(** * osgEarth: TerrainEngineNode

    A shallow embedding of [src/osgEarth/TerrainEngineNode.cpp]: the
    terrain engine node, the weak map-callback proxy in front of it, and
    the few operations of its collaborators (map, image layers) that the
    node drives.  Methods are programs in a state-and-failure monad over
    the node's fields and its environment; calls that leave the translation
    unit (virtual hooks, scene-graph glue) are recorded in a trace. *)

From Stdlib Require Import ZArith Lia.
From stdpp Require Import base option list gmap strings.

Open Scope Z_scope.

(** ** Objects and pointers *)

(** A C++ pointer is either null or the address of an object. *)
Abbreviation ptr A := (option A) (only parsing).

(** Objects that the node only holds and compares by address. *)
Abbreviation TerrainEffect := nat (only parsing).
Abbreviation CreateTileModelCallback := nat (only parsing).
Abbreviation TileNodeCallback := nat (only parsing).
Abbreviation TilePatchCallback := nat (only parsing).
Abbreviation ComputeRangeCallback := nat (only parsing).
Abbreviation TerrainLayerCallback := nat (only parsing).
Abbreviation ImageLayer := nat (only parsing).
Abbreviation ElevationLayer := nat (only parsing).
Abbreviation Profile := nat (only parsing).
Abbreviation MapPtr := nat (only parsing).
Abbreviation NodePtr := nat (only parsing).

(** A C [float], carried as its bit pattern; the node only stores it. *)
Definition float : Type := Z.
Definition float_one : float := 0x3F800000.

Record TerrainOptions : Type := {
  binNumber : option Z
}.

Inductive InitStage : Type :=
| INIT_NONE
| INIT_POSTINIT_COMPLETE.

Inductive VisitorType : Type :=
| NODE_VISITOR
| UPDATE_VISITOR
| EVENT_VISITOR
| CULL_VISITOR.

Global Instance VisitorType_eq_dec : EqDecision VisitorType.
Proof. solve_decision. Defined.

(** [new Terrain(this, profile, geocentric, options)] *)
Record Terrain : Type := {
  terrain_profile : ptr Profile;
  terrain_geocentric : bool;
  terrain_options : TerrainOptions
}.

(** [new TerrainTileModelFactory(options)] *)
Record TerrainTileModelFactory : Type := {
  factory_options : TerrainOptions
}.

(** [new TextureCompositor()], then the units marked off limits. *)
Record TextureCompositor : Type := {
  compositor_offLimits : list Z
}.

(** What the tile-model factory reads through [TerrainEngineRequirements]. *)
Record TerrainEngineRequirements : Type := {
  elevationTexturesRequired : bool;
  normalTexturesRequired : bool;
  parentTexturesRequired : bool;
  elevationBorderRequired : bool;
  fullDataAtFirstLodRequired : bool
}.

(** ** The node *)

Record TerrainEngineNode : Type := {
  _verticalScale : float;
  _initStage : InitStage;
  _dirtyCount : Z;
  _requireElevationTextures : bool;
  _requireNormalTextures : bool;
  _requireParentTextures : bool;
  _requireElevationBorder : bool;
  _requireFullDataAtFirstLOD : bool;
  _redrawRequired : bool;
  effects_ : list TerrainEffect;
  _map : ptr MapPtr;
  _terrainInterface : ptr Terrain;
  _textureResourceTracker : ptr TextureCompositor;
  _tileModelFactory : ptr TerrainTileModelFactory;
  _imageLayerController : ptr TerrainLayerCallback;
  _createTileModelCallbacks : list (ptr CreateTileModelCallback);
  _tileNodeCallbacks : list (ptr TileNodeCallback);
  _tilePatchCallbacks : list (ptr TilePatchCallback);
  _computeRangeCallback : ptr ComputeRangeCallback
}.

(** Field updates. *)

Definition set_verticalScale (v : float) (n : TerrainEngineNode)
  : TerrainEngineNode :=
  {| _verticalScale := v; _initStage := _initStage n;
     _dirtyCount := _dirtyCount n;
     _requireElevationTextures := _requireElevationTextures n;
     _requireNormalTextures := _requireNormalTextures n;
     _requireParentTextures := _requireParentTextures n;
     _requireElevationBorder := _requireElevationBorder n;
     _requireFullDataAtFirstLOD := _requireFullDataAtFirstLOD n;
     _redrawRequired := _redrawRequired n; effects_ := effects_ n;
     _map := _map n; _terrainInterface := _terrainInterface n;
     _textureResourceTracker := _textureResourceTracker n;
     _tileModelFactory := _tileModelFactory n;
     _imageLayerController := _imageLayerController n;
     _createTileModelCallbacks := _createTileModelCallbacks n;
     _tileNodeCallbacks := _tileNodeCallbacks n;
     _tilePatchCallbacks := _tilePatchCallbacks n;
     _computeRangeCallback := _computeRangeCallback n |}.

Definition set_initStage (v : InitStage) (n : TerrainEngineNode)
  : TerrainEngineNode :=
  {| _verticalScale := _verticalScale n; _initStage := v;
     _dirtyCount := _dirtyCount n;
     _requireElevationTextures := _requireElevationTextures n;
     _requireNormalTextures := _requireNormalTextures n;
     _requireParentTextures := _requireParentTextures n;
     _requireElevationBorder := _requireElevationBorder n;
     _requireFullDataAtFirstLOD := _requireFullDataAtFirstLOD n;
     _redrawRequired := _redrawRequired n; effects_ := effects_ n;
     _map := _map n; _terrainInterface := _terrainInterface n;
     _textureResourceTracker := _textureResourceTracker n;
     _tileModelFactory := _tileModelFactory n;
     _imageLayerController := _imageLayerController n;
     _createTileModelCallbacks := _createTileModelCallbacks n;
     _tileNodeCallbacks := _tileNodeCallbacks n;
     _tilePatchCallbacks := _tilePatchCallbacks n;
     _computeRangeCallback := _computeRangeCallback n |}.

Definition set_dirtyCount (v : Z) (n : TerrainEngineNode)
  : TerrainEngineNode :=
  {| _verticalScale := _verticalScale n; _initStage := _initStage n;
     _dirtyCount := v;
     _requireElevationTextures := _requireElevationTextures n;
     _requireNormalTextures := _requireNormalTextures n;
     _requireParentTextures := _requireParentTextures n;
     _requireElevationBorder := _requireElevationBorder n;
     _requireFullDataAtFirstLOD := _requireFullDataAtFirstLOD n;
     _redrawRequired := _redrawRequired n; effects_ := effects_ n;
     _map := _map n; _terrainInterface := _terrainInterface n;
     _textureResourceTracker := _textureResourceTracker n;
     _tileModelFactory := _tileModelFactory n;
     _imageLayerController := _imageLayerController n;
     _createTileModelCallbacks := _createTileModelCallbacks n;
     _tileNodeCallbacks := _tileNodeCallbacks n;
     _tilePatchCallbacks := _tilePatchCallbacks n;
     _computeRangeCallback := _computeRangeCallback n |}.

Definition set_requireElevationTextures (v : bool) (n : TerrainEngineNode)
  : TerrainEngineNode :=
  {| _verticalScale := _verticalScale n; _initStage := _initStage n;
     _dirtyCount := _dirtyCount n; _requireElevationTextures := v;
     _requireNormalTextures := _requireNormalTextures n;
     _requireParentTextures := _requireParentTextures n;
     _requireElevationBorder := _requireElevationBorder n;
     _requireFullDataAtFirstLOD := _requireFullDataAtFirstLOD n;
     _redrawRequired := _redrawRequired n; effects_ := effects_ n;
     _map := _map n; _terrainInterface := _terrainInterface n;
     _textureResourceTracker := _textureResourceTracker n;
     _tileModelFactory := _tileModelFactory n;
     _imageLayerController := _imageLayerController n;
     _createTileModelCallbacks := _createTileModelCallbacks n;
     _tileNodeCallbacks := _tileNodeCallbacks n;
     _tilePatchCallbacks := _tilePatchCallbacks n;
     _computeRangeCallback := _computeRangeCallback n |}.

Definition set_requireNormalTextures (v : bool) (n : TerrainEngineNode)
  : TerrainEngineNode :=
  {| _verticalScale := _verticalScale n; _initStage := _initStage n;
     _dirtyCount := _dirtyCount n;
     _requireElevationTextures := _requireElevationTextures n;
     _requireNormalTextures := v;
     _requireParentTextures := _requireParentTextures n;
     _requireElevationBorder := _requireElevationBorder n;
     _requireFullDataAtFirstLOD := _requireFullDataAtFirstLOD n;
     _redrawRequired := _redrawRequired n; effects_ := effects_ n;
     _map := _map n; _terrainInterface := _terrainInterface n;
     _textureResourceTracker := _textureResourceTracker n;
     _tileModelFactory := _tileModelFactory n;
     _imageLayerController := _imageLayerController n;
     _createTileModelCallbacks := _createTileModelCallbacks n;
     _tileNodeCallbacks := _tileNodeCallbacks n;
     _tilePatchCallbacks := _tilePatchCallbacks n;
     _computeRangeCallback := _computeRangeCallback n |}.

Definition set_requireParentTextures (v : bool) (n : TerrainEngineNode)
  : TerrainEngineNode :=
  {| _verticalScale := _verticalScale n; _initStage := _initStage n;
     _dirtyCount := _dirtyCount n;
     _requireElevationTextures := _requireElevationTextures n;
     _requireNormalTextures := _requireNormalTextures n;
     _requireParentTextures := v;
     _requireElevationBorder := _requireElevationBorder n;
     _requireFullDataAtFirstLOD := _requireFullDataAtFirstLOD n;
     _redrawRequired := _redrawRequired n; effects_ := effects_ n;
     _map := _map n; _terrainInterface := _terrainInterface n;
     _textureResourceTracker := _textureResourceTracker n;
     _tileModelFactory := _tileModelFactory n;
     _imageLayerController := _imageLayerController n;
     _createTileModelCallbacks := _createTileModelCallbacks n;
     _tileNodeCallbacks := _tileNodeCallbacks n;
     _tilePatchCallbacks := _tilePatchCallbacks n;
     _computeRangeCallback := _computeRangeCallback n |}.

Definition set_effects (v : list TerrainEffect) (n : TerrainEngineNode)
  : TerrainEngineNode :=
  {| _verticalScale := _verticalScale n; _initStage := _initStage n;
     _dirtyCount := _dirtyCount n;
     _requireElevationTextures := _requireElevationTextures n;
     _requireNormalTextures := _requireNormalTextures n;
     _requireParentTextures := _requireParentTextures n;
     _requireElevationBorder := _requireElevationBorder n;
     _requireFullDataAtFirstLOD := _requireFullDataAtFirstLOD n;
     _redrawRequired := _redrawRequired n; effects_ := v; _map := _map n;
     _terrainInterface := _terrainInterface n;
     _textureResourceTracker := _textureResourceTracker n;
     _tileModelFactory := _tileModelFactory n;
     _imageLayerController := _imageLayerController n;
     _createTileModelCallbacks := _createTileModelCallbacks n;
     _tileNodeCallbacks := _tileNodeCallbacks n;
     _tilePatchCallbacks := _tilePatchCallbacks n;
     _computeRangeCallback := _computeRangeCallback n |}.

Definition set_map (v : ptr MapPtr) (n : TerrainEngineNode)
  : TerrainEngineNode :=
  {| _verticalScale := _verticalScale n; _initStage := _initStage n;
     _dirtyCount := _dirtyCount n;
     _requireElevationTextures := _requireElevationTextures n;
     _requireNormalTextures := _requireNormalTextures n;
     _requireParentTextures := _requireParentTextures n;
     _requireElevationBorder := _requireElevationBorder n;
     _requireFullDataAtFirstLOD := _requireFullDataAtFirstLOD n;
     _redrawRequired := _redrawRequired n; effects_ := effects_ n; _map := v;
     _terrainInterface := _terrainInterface n;
     _textureResourceTracker := _textureResourceTracker n;
     _tileModelFactory := _tileModelFactory n;
     _imageLayerController := _imageLayerController n;
     _createTileModelCallbacks := _createTileModelCallbacks n;
     _tileNodeCallbacks := _tileNodeCallbacks n;
     _tilePatchCallbacks := _tilePatchCallbacks n;
     _computeRangeCallback := _computeRangeCallback n |}.

Definition set_terrainInterface (v : ptr Terrain) (n : TerrainEngineNode)
  : TerrainEngineNode :=
  {| _verticalScale := _verticalScale n; _initStage := _initStage n;
     _dirtyCount := _dirtyCount n;
     _requireElevationTextures := _requireElevationTextures n;
     _requireNormalTextures := _requireNormalTextures n;
     _requireParentTextures := _requireParentTextures n;
     _requireElevationBorder := _requireElevationBorder n;
     _requireFullDataAtFirstLOD := _requireFullDataAtFirstLOD n;
     _redrawRequired := _redrawRequired n; effects_ := effects_ n;
     _map := _map n; _terrainInterface := v;
     _textureResourceTracker := _textureResourceTracker n;
     _tileModelFactory := _tileModelFactory n;
     _imageLayerController := _imageLayerController n;
     _createTileModelCallbacks := _createTileModelCallbacks n;
     _tileNodeCallbacks := _tileNodeCallbacks n;
     _tilePatchCallbacks := _tilePatchCallbacks n;
     _computeRangeCallback := _computeRangeCallback n |}.

Definition set_textureResourceTracker (v : ptr TextureCompositor) (n : TerrainEngineNode)
  : TerrainEngineNode :=
  {| _verticalScale := _verticalScale n; _initStage := _initStage n;
     _dirtyCount := _dirtyCount n;
     _requireElevationTextures := _requireElevationTextures n;
     _requireNormalTextures := _requireNormalTextures n;
     _requireParentTextures := _requireParentTextures n;
     _requireElevationBorder := _requireElevationBorder n;
     _requireFullDataAtFirstLOD := _requireFullDataAtFirstLOD n;
     _redrawRequired := _redrawRequired n; effects_ := effects_ n;
     _map := _map n; _terrainInterface := _terrainInterface n;
     _textureResourceTracker := v; _tileModelFactory := _tileModelFactory n;
     _imageLayerController := _imageLayerController n;
     _createTileModelCallbacks := _createTileModelCallbacks n;
     _tileNodeCallbacks := _tileNodeCallbacks n;
     _tilePatchCallbacks := _tilePatchCallbacks n;
     _computeRangeCallback := _computeRangeCallback n |}.

Definition set_tileModelFactory (v : ptr TerrainTileModelFactory) (n : TerrainEngineNode)
  : TerrainEngineNode :=
  {| _verticalScale := _verticalScale n; _initStage := _initStage n;
     _dirtyCount := _dirtyCount n;
     _requireElevationTextures := _requireElevationTextures n;
     _requireNormalTextures := _requireNormalTextures n;
     _requireParentTextures := _requireParentTextures n;
     _requireElevationBorder := _requireElevationBorder n;
     _requireFullDataAtFirstLOD := _requireFullDataAtFirstLOD n;
     _redrawRequired := _redrawRequired n; effects_ := effects_ n;
     _map := _map n; _terrainInterface := _terrainInterface n;
     _textureResourceTracker := _textureResourceTracker n;
     _tileModelFactory := v;
     _imageLayerController := _imageLayerController n;
     _createTileModelCallbacks := _createTileModelCallbacks n;
     _tileNodeCallbacks := _tileNodeCallbacks n;
     _tilePatchCallbacks := _tilePatchCallbacks n;
     _computeRangeCallback := _computeRangeCallback n |}.

Definition set_imageLayerController (v : ptr TerrainLayerCallback) (n : TerrainEngineNode)
  : TerrainEngineNode :=
  {| _verticalScale := _verticalScale n; _initStage := _initStage n;
     _dirtyCount := _dirtyCount n;
     _requireElevationTextures := _requireElevationTextures n;
     _requireNormalTextures := _requireNormalTextures n;
     _requireParentTextures := _requireParentTextures n;
     _requireElevationBorder := _requireElevationBorder n;
     _requireFullDataAtFirstLOD := _requireFullDataAtFirstLOD n;
     _redrawRequired := _redrawRequired n; effects_ := effects_ n;
     _map := _map n; _terrainInterface := _terrainInterface n;
     _textureResourceTracker := _textureResourceTracker n;
     _tileModelFactory := _tileModelFactory n; _imageLayerController := v;
     _createTileModelCallbacks := _createTileModelCallbacks n;
     _tileNodeCallbacks := _tileNodeCallbacks n;
     _tilePatchCallbacks := _tilePatchCallbacks n;
     _computeRangeCallback := _computeRangeCallback n |}.

Definition set_createTileModelCallbacks (v : list (ptr CreateTileModelCallback)) (n : TerrainEngineNode)
  : TerrainEngineNode :=
  {| _verticalScale := _verticalScale n; _initStage := _initStage n;
     _dirtyCount := _dirtyCount n;
     _requireElevationTextures := _requireElevationTextures n;
     _requireNormalTextures := _requireNormalTextures n;
     _requireParentTextures := _requireParentTextures n;
     _requireElevationBorder := _requireElevationBorder n;
     _requireFullDataAtFirstLOD := _requireFullDataAtFirstLOD n;
     _redrawRequired := _redrawRequired n; effects_ := effects_ n;
     _map := _map n; _terrainInterface := _terrainInterface n;
     _textureResourceTracker := _textureResourceTracker n;
     _tileModelFactory := _tileModelFactory n;
     _imageLayerController := _imageLayerController n;
     _createTileModelCallbacks := v;
     _tileNodeCallbacks := _tileNodeCallbacks n;
     _tilePatchCallbacks := _tilePatchCallbacks n;
     _computeRangeCallback := _computeRangeCallback n |}.

Definition set_tilePatchCallbacks (v : list (ptr TilePatchCallback)) (n : TerrainEngineNode)
  : TerrainEngineNode :=
  {| _verticalScale := _verticalScale n; _initStage := _initStage n;
     _dirtyCount := _dirtyCount n;
     _requireElevationTextures := _requireElevationTextures n;
     _requireNormalTextures := _requireNormalTextures n;
     _requireParentTextures := _requireParentTextures n;
     _requireElevationBorder := _requireElevationBorder n;
     _requireFullDataAtFirstLOD := _requireFullDataAtFirstLOD n;
     _redrawRequired := _redrawRequired n; effects_ := effects_ n;
     _map := _map n; _terrainInterface := _terrainInterface n;
     _textureResourceTracker := _textureResourceTracker n;
     _tileModelFactory := _tileModelFactory n;
     _imageLayerController := _imageLayerController n;
     _createTileModelCallbacks := _createTileModelCallbacks n;
     _tileNodeCallbacks := _tileNodeCallbacks n; _tilePatchCallbacks := v;
     _computeRangeCallback := _computeRangeCallback n |}.

Definition set_computeRangeCallback (v : ptr ComputeRangeCallback) (n : TerrainEngineNode)
  : TerrainEngineNode :=
  {| _verticalScale := _verticalScale n; _initStage := _initStage n;
     _dirtyCount := _dirtyCount n;
     _requireElevationTextures := _requireElevationTextures n;
     _requireNormalTextures := _requireNormalTextures n;
     _requireParentTextures := _requireParentTextures n;
     _requireElevationBorder := _requireElevationBorder n;
     _requireFullDataAtFirstLOD := _requireFullDataAtFirstLOD n;
     _redrawRequired := _redrawRequired n; effects_ := effects_ n;
     _map := _map n; _terrainInterface := _terrainInterface n;
     _textureResourceTracker := _textureResourceTracker n;
     _tileModelFactory := _tileModelFactory n;
     _imageLayerController := _imageLayerController n;
     _createTileModelCallbacks := _createTileModelCallbacks n;
     _tileNodeCallbacks := _tileNodeCallbacks n;
     _tilePatchCallbacks := _tilePatchCallbacks n;
     _computeRangeCallback := v |}.

(** The node as its constructor leaves it. *)
Definition TerrainEngineNode_new : TerrainEngineNode :=
  {| _verticalScale := float_one;
     _initStage := INIT_NONE;
     _dirtyCount := 0;
     _requireElevationTextures := false;
     _requireNormalTextures := false;
     _requireParentTextures := false;
     _requireElevationBorder := false;
     _requireFullDataAtFirstLOD := false;
     _redrawRequired := true;
     effects_ := [];
     _map := None;
     _terrainInterface := None;
     _textureResourceTracker := None;
     _tileModelFactory := None;
     _imageLayerController := None;
     _createTileModelCallbacks := [];
     _tileNodeCallbacks := [];
     _tilePatchCallbacks := [];
     _computeRangeCallback := None |}.

(** [TerrainEngineRequirements* requirements = this]: the node seen through
    its requirements interface. *)
Definition requirements_of (n : TerrainEngineNode) : TerrainEngineRequirements :=
  {| elevationTexturesRequired := _requireElevationTextures n;
     normalTexturesRequired := _requireNormalTextures n;
     parentTexturesRequired := _requireParentTextures n;
     elevationBorderRequired := _requireElevationBorder n;
     fullDataAtFirstLodRequired := _requireFullDataAtFirstLOD n |}.

(** ** The environment of the node *)

(** The proxy registered with the map: it holds an [observer_ptr] to the
    node, which is an address that may no longer be occupied. *)
Record TerrainEngineNodeCallbackProxy : Type := {
  _node : NodePtr
}.

(** Modelled from the spec: the map model, whose class is not part of this
    file.  It "holds layers (image, elevation) and a spatial profile; raises
    change notifications"; only its profile, its geocentric flag, its image
    layers and its registered callbacks are read here. *)
Record Map : Type := {
  getProfile : ptr Profile;
  isGeocentric : bool;
  map_imageLayers : list ImageLayer;
  _mapCallbacks : list TerrainEngineNodeCallbackProxy
}.

Definition set_mapCallbacks (v : list TerrainEngineNodeCallbackProxy) (m : Map) : Map :=
  {| getProfile := getProfile m; isGeocentric := isGeocentric m;
     map_imageLayers := map_imageLayers m; _mapCallbacks := v |}.

Definition set_map_imageLayers (v : list ImageLayer) (m : Map) : Map :=
  {| getProfile := getProfile m; isGeocentric := isGeocentric m;
     map_imageLayers := v; _mapCallbacks := _mapCallbacks m |}.

(** [MapInfo(map)]: the profile and the geocentric flag, read once. *)
Record MapInfo : Type := {
  mapInfo_getProfile : ptr Profile;
  mapInfo_isGeocentric : bool
}.

Definition MapInfo_of (m : Map) : MapInfo :=
  {| mapInfo_getProfile := getProfile m; mapInfo_isGeocentric := isGeocentric m |}.

(** The kinds of change a [MapModelChange] announces.  The enumeration is
    declared with the map model; the node tells two of them apart. *)
Inductive ActionType : Type :=
| ADD_LAYER
| REMOVE_LAYER
| MOVE_LAYER
| UNSPECIFIED_ACTION.

Global Instance ActionType_eq_dec : EqDecision ActionType.
Proof. solve_decision. Defined.

(** A change, as far as the node looks at it: its action and what its layer
    is when viewed as an image layer and as an elevation layer. *)
Record MapModelChange : Type := {
  getAction : ActionType;
  getImageLayer : ptr ImageLayer;
  getElevationLayer : ptr ElevationLayer
}.

(** Calls that leave this file: virtual hooks whose bodies belong to the
    drivers and effects, and scene-graph glue.  They are recorded in the
    order in which they are made. *)
Inductive Event : Type :=
| Effect_onInstall (effect : TerrainEffect)
| Effect_onUninstall (effect : TerrainEffect)
| DirtyState
| ViewsRequestRedraw
| OnVerticalScaleChanged
| Terrain_notifyMapElevationChanged
| Terrain_update
| Callback_onCreateTileModel (callback : CreateTileModelCallback)
| TileNodeCallback_call (callback : TileNodeCallback)
| UpdateTextureCombining
| SRS_populateCoordinateSystemNode (profile : Profile)
| SetEllipsoidModel_NULL
| SetRenderBinDetails (bin : Z)
| CoordinateSystemNode_traverse (vt : VisitorType).

Global Instance Event_eq_dec : EqDecision Event.
Proof. solve_decision. Defined.

Record Env : Type := {
  (** calls made so far, oldest first *)
  trace : list Event;
  (** the map objects alive, by address *)
  maps : gmap MapPtr Map;
  (** per image layer, the callbacks subscribed to it *)
  layerCallbacks : gmap ImageLayer (list (ptr TerrainLayerCallback));
  (** the address the next [new] returns *)
  next_object : nat;
  (** [Registry::instance()->getOffLimitsTextureImageUnits()] *)
  offLimitsTextureImageUnits : list Z
}.

Definition set_trace (v : list Event) (e : Env) : Env :=
  {| trace := v; maps := maps e; layerCallbacks := layerCallbacks e;
     next_object := next_object e;
     offLimitsTextureImageUnits := offLimitsTextureImageUnits e |}.

Definition set_maps (v : gmap MapPtr Map) (e : Env) : Env :=
  {| trace := trace e; maps := v; layerCallbacks := layerCallbacks e;
     next_object := next_object e;
     offLimitsTextureImageUnits := offLimitsTextureImageUnits e |}.

Definition set_layerCallbacks
    (v : gmap ImageLayer (list (ptr TerrainLayerCallback))) (e : Env) : Env :=
  {| trace := trace e; maps := maps e; layerCallbacks := v;
     next_object := next_object e;
     offLimitsTextureImageUnits := offLimitsTextureImageUnits e |}.

Definition set_next_object (v : nat) (e : Env) : Env :=
  {| trace := trace e; maps := maps e; layerCallbacks := layerCallbacks e;
     next_object := v;
     offLimitsTextureImageUnits := offLimitsTextureImageUnits e |}.

(** ** Methods as programs *)

(** A method runs on one node ([this], at address [self]) in an
    environment. *)
Record World : Type := {
  self : NodePtr;
  this : TerrainEngineNode;
  env : Env
}.

(** A method either returns a value and the world it leaves, or fails:
    failure is a dereference of a null or dangling pointer. *)
Definition M (A : Type) : Type := World → option (A * World).

Global Instance M_ret : MRet M := λ A a w, Some (a, w).
Global Instance M_bind : MBind M := λ A B k m w,
  match m w with
  | Some (a, w') => k a w'
  | None => None
  end.

Definition crash {A} : M A := λ _, None.

Definition deref {A} (p : ptr A) : M A :=
  match p with
  | Some a => mret a
  | None => crash
  end.

Definition get_this : M TerrainEngineNode := λ w, Some (this w, w).
Definition get_env : M Env := λ w, Some (env w, w).
Definition get_self : M NodePtr := λ w, Some (self w, w).

Definition update_this (f : TerrainEngineNode → TerrainEngineNode) : M unit :=
  λ w, Some (tt, {| self := self w; this := f (this w); env := env w |}).

Definition update_env (f : Env → Env) : M unit :=
  λ w, Some (tt, {| self := self w; this := this w; env := f (env w) |}).

(** Record a call that leaves the file. *)
Definition emit (e : Event) : M unit :=
  update_env (λ E, set_trace (trace E ++ [e]) E).

(** A loop over a vector, front to back, running [body] on each element. *)
Fixpoint for_each {A} (body : A → M unit) (v : list A) : M unit :=
  match v with
  | [] => mret tt
  | x :: rest => body x ;; for_each body rest
  end.

(** [std::find(v.begin(), v.end(), x)], as the index of the first element
    equal to [x]; the size of the vector stands for the end iterator. *)
Fixpoint std_find {A} `{EqDecision A} (v : list A) (x : A) : nat :=
  match v with
  | [] => 0%nat
  | y :: rest => if decide (y = x) then 0%nat else S (std_find rest x)
  end.

(** [if (i != v.end()) v.erase(i)] for [i = std::find(...)]. *)
Definition find_and_erase {A} `{EqDecision A} (v : list A) (x : A) : list A :=
  let i := std_find v x in
  if decide (i ≠ length v) then delete i v else v.

(** [std::remove(v.begin(), v.end(), x)] on a vector: the elements that
    differ from [x] are assigned forward over the first match, and the
    iterator past the last kept element is returned.  Nothing is erased:
    the vector keeps its size, and a slot that has been assigned from holds
    [moved_from] of its former value (the value itself when the element
    type copies on assignment, a null when it moves). *)
Section StdRemove.
Context {A : Type} `{EqDecision A}.
Variable moved_from : A → A.
Variable x : A.

(** The loop [for (i = first; ++i != last;) if (!( *i == x)) *first++ = move( *i)],
    entered with [n] elements still to visit, the next one at index [i]. *)
Fixpoint std_remove_loop (n : nat) (v : list A) (first i : nat) : list A * nat :=
  match n with
  | O => (v, first)
  | S n' =>
      match v !! i with
      | Some y =>
          if decide (y = x) then std_remove_loop n' v first (S i)
          else std_remove_loop n' (<[i := moved_from y]> (<[first := y]> v))
                               (S first) (S i)
      | None => (v, first)
      end
  end.

Definition std_remove (v : list A) : list A * nat :=
  let first := std_find v x in
  if decide (first ≠ length v)
  then std_remove_loop (length v - S first) v first (S first)
  else (v, first).
End StdRemove.

(** *** Collaborators reached through the environment *)

(** [new T(...)] for an object that is later compared by address. *)
Definition new_object : M nat :=
  E ← get_env;
  update_env (set_next_object (S (next_object E))) ;;
  mret (next_object E).

(** Reading through a [Map*]. *)
Definition Map_read (p : MapPtr) : M Map :=
  E ← get_env;
  deref (maps E !! p).

(** Modelled from the spec: [Map::addMapCallback], which is not part of this
    file; the map keeps the callbacks it will notify, in registration
    order ("change-notification subscription"). *)
Definition Map_addMapCallback (p : MapPtr) (cb : TerrainEngineNodeCallbackProxy) : M unit :=
  m ← Map_read p;
  update_env (λ E, set_maps (<[p := set_mapCallbacks (_mapCallbacks m ++ [cb]) m]> (maps E)) E).

(** The callbacks subscribed to an image layer. *)
Definition callbacks_of (E : Env) (l : ImageLayer) : list (ptr TerrainLayerCallback) :=
  default [] (layerCallbacks E !! l).

(** Modelled from the spec: [ImageLayer::addCallback], which is not part of
    this file ("per-layer callback subscription"): the callback is
    subscribed to the layer. *)
Definition ImageLayer_addCallback (l : ImageLayer) (cb : ptr TerrainLayerCallback) : M unit :=
  update_env (λ E, set_layerCallbacks (<[l := callbacks_of E l ++ [cb]]> (layerCallbacks E)) E).

(** Modelled from the spec: [ImageLayer::removeCallback], which is not part
    of this file: one subscription of the callback to the layer, if there
    is one, is withdrawn. *)
Definition ImageLayer_removeCallback (l : ImageLayer) (cb : ptr TerrainLayerCallback) : M unit :=
  update_env (λ E, set_layerCallbacks (<[l := find_and_erase (callbacks_of E l) cb]> (layerCallbacks E)) E).

(** Modelled from the spec: the virtual [dirtyState] of the node, declared
    outside this file; it "marks engine state dirty (triggers a
    redraw/rebuild signal)". *)
Definition dirtyState : M unit := emit DirtyState.

(** *** TerrainEngineNode *)

Definition addEffect (effect : ptr TerrainEffect) : M unit :=
  match effect with
  | Some e =>
      update_this (λ n, set_effects (effects_ n ++ [e]) n) ;;
      emit (Effect_onInstall e) ;;
      dirtyState
  | None => mret tt
  end.

Definition removeEffect (effect : ptr TerrainEffect) : M unit :=
  match effect with
  | Some e =>
      emit (Effect_onUninstall e) ;;
      update_this (λ n, set_effects (find_and_erase (effects_ n) e) n) ;;
      dirtyState
  | None => mret tt
  end.

Definition getResources : M (ptr TextureCompositor) :=
  n ← get_this; mret (_textureResourceTracker n).

(** [_engine->updateTextureCombining()], a virtual of the node. *)
Definition ImageLayerController_onColorFiltersChanged (layer : ptr ImageLayer) : M unit :=
  emit UpdateTextureCombining.

(** [_dirtyCount] is a 32-bit unsigned counter: it holds a value from 0 to
    [UINT_MAX], and incrementing [UINT_MAX] gives 0. *)
Definition UINT_MAX : Z := 4294967295.

Definition uint_wrap (z : Z) : Z := z mod (UINT_MAX + 1).

Arguments uint_wrap : simpl never.

(** [if (0 == _dirtyCount++) { ... this->accept(visitor); }]: the test reads
    the value before the increment, and the increment wraps around. *)
Definition requestRedraw : M unit :=
  n ← get_this;
  update_this (set_dirtyCount (uint_wrap (_dirtyCount n + 1))) ;;
  if decide (0 = _dirtyCount n) then emit ViewsRequestRedraw else mret tt.

Definition dirtyTerrain : M unit := requestRedraw.

Definition requireNormalTextures : M unit :=
  update_this (set_requireNormalTextures true) ;;
  dirtyTerrain.

Definition requireElevationTextures : M unit :=
  update_this (set_requireElevationTextures true) ;;
  dirtyTerrain.

Definition requireParentTextures : M unit :=
  update_this (set_requireParentTextures true) ;;
  dirtyTerrain.

Definition onMapInfoEstablished (mapInfo : MapInfo) : M unit :=
  profile ← deref (mapInfo_getProfile mapInfo);
  emit (SRS_populateCoordinateSystemNode profile) ;;
  if mapInfo_isGeocentric mapInfo then mret tt else emit SetEllipsoidModel_NULL.

Definition setMap (map : ptr MapPtr) (options : TerrainOptions) : M unit :=
  match map with
  | None => mret tt
  | Some p =>
      update_this (set_map (Some p)) ;;
      m ← Map_read p;
      update_this (set_terrainInterface
        (Some {| terrain_profile := getProfile m;
                 terrain_geocentric := isGeocentric m;
                 terrain_options := options |})) ;;
      profile ← deref (getProfile m);
      emit (SRS_populateCoordinateSystemNode profile) ;;
      (if isGeocentric m then mret tt else emit SetEllipsoidModel_NULL) ;;
      E ← get_env;
      update_this (set_textureResourceTracker
        (Some {| compositor_offLimits := offLimitsTextureImageUnits E |})) ;;
      me ← get_self;
      Map_addMapCallback p {| _node := me |} ;;
      match binNumber options with
      | Some bin => emit (SetRenderBinDetails bin)
      | None => mret tt
      end ;;
      update_this (set_tileModelFactory (Some {| factory_options := options |})) ;;
      m' ← Map_read p;
      match getProfile m' with
      | Some _ => onMapInfoEstablished (MapInfo_of m')
      | None => mret tt
      end ;;
      controller ← new_object;
      update_this (set_imageLayerController (Some controller)) ;;
      mapf ← Map_read p;
      for_each (λ l, ImageLayer_addCallback l (Some controller))
               (map_imageLayers mapf) ;;
      update_this (set_initStage INIT_POSTINIT_COMPLETE)
  end.

Definition setVerticalScale (value : float) : M unit :=
  update_this (set_verticalScale value) ;;
  emit OnVerticalScaleChanged.

Definition onMapModelChanged (change : MapModelChange) : M unit :=
  n ← get_this;
  match getAction change, getImageLayer change with
  | ADD_LAYER, Some layer =>
      ImageLayer_addCallback layer (_imageLayerController n)
  | REMOVE_LAYER, Some layer =>
      ImageLayer_removeCallback layer (_imageLayerController n)
  | _, _ => mret tt
  end ;;
  match getElevationLayer change with
  | Some _ =>
      _ ← deref (_terrainInterface n);
      emit Terrain_notifyMapElevationChanged
  | None => mret tt
  end ;;
  requestRedraw.

Definition addCreateTileModelCallback (callback : ptr CreateTileModelCallback) : M unit :=
  update_this (λ n, set_createTileModelCallbacks (_createTileModelCallbacks n ++ [callback]) n).

(** The loop that erases the first entry equal to [callback] and stops. *)
Fixpoint erase_first_equal (v : list (ptr CreateTileModelCallback))
    (callback : ptr CreateTileModelCallback) : list (ptr CreateTileModelCallback) :=
  match v with
  | [] => []
  | c :: rest =>
      if decide (c = callback) then rest
      else c :: erase_first_equal rest callback
  end.

Definition removeCreateTileModelCallback (callback : ptr CreateTileModelCallback) : M unit :=
  update_this (λ n, set_createTileModelCallbacks
                      (erase_first_equal (_createTileModelCallbacks n) callback) n).

Definition traverse (vt : VisitorType) : M unit :=
  match vt with
  | EVENT_VISITOR => update_this (set_dirtyCount 0)
  | UPDATE_VISITOR =>
      n ← get_this;
      _ ← deref (_terrainInterface n);
      emit Terrain_update
  | _ => mret tt
  end ;;
  emit (CoordinateSystemNode_traverse vt).

Definition addTilePatchCallback (cb : ptr TilePatchCallback) : M unit :=
  update_this (λ n, set_tilePatchCallbacks (_tilePatchCallbacks n ++ [cb]) n).

Definition getComputeRangeCallback : M (ptr ComputeRangeCallback) :=
  n ← get_this; mret (_computeRangeCallback n).

Definition setComputeRangeCallback (computeRangeCallback : ptr ComputeRangeCallback) : M unit :=
  update_this (set_computeRangeCallback computeRangeCallback).

(** *** Tile models *)

(** What this file leaves to its collaborators: the tile-model types, the
    factory that builds a model, what a callback makes of a model it is
    handed, and the value a [ref_ptr] holds after it has been assigned from
    with [std::move]. *)
Record Host : Type := {
  TerrainTileModel : Type;
  TileKey : Type;
  CreateTileModelFilter : Type;
  ProgressCallback : Type;
  factory_createTileModel :
    TerrainTileModelFactory → Map → TileKey → CreateTileModelFilter →
    TerrainEngineRequirements → ptr ProgressCallback → ptr TerrainTileModel;
  onCreateTileModel :
    CreateTileModelCallback → TerrainEngineNode → TerrainTileModel → TerrainTileModel;
  moved_from : ptr TilePatchCallback → ptr TilePatchCallback
}.

Section WithHost.
Context (H : Host).

(** The loop over [_createTileModelCallbacks]: each entry is dereferenced
    and handed the engine and the model. *)
Fixpoint fire_callbacks (callbacks : list (ptr CreateTileModelCallback))
    (model : TerrainTileModel H) : M (TerrainTileModel H) :=
  match callbacks with
  | [] => mret model
  | i :: rest =>
      callback ← deref i;
      n ← get_this;
      emit (Callback_onCreateTileModel callback) ;;
      fire_callbacks rest (onCreateTileModel H callback n model)
  end.

Definition createTileModel (frame : Map) (key : TileKey H)
    (filter : CreateTileModelFilter H) (progress : ptr (ProgressCallback H))
    : M (ptr (TerrainTileModel H)) :=
  n ← get_this;
  factory ← deref (_tileModelFactory n);
  match factory_createTileModel H factory frame key filter
                                (requirements_of n) progress with
  | Some model =>
      model' ← fire_callbacks (_createTileModelCallbacks n) model;
      mret (Some model')
  | None => mret None
  end.

Definition notifyOfTerrainTileNodeCreation (key : TileKey H) (node : ptr nat) : M unit :=
  n ← get_this;
  for_each (λ i, callback ← deref i; emit (TileNodeCallback_call callback))
           (_tileNodeCallbacks n).

(** [std::remove(...)] alone: its result is dropped and no [erase] follows. *)
Definition removeTilePatchCallback (cb : ptr TilePatchCallback) : M unit :=
  update_this (λ n, set_tilePatchCallbacks
                      (fst (std_remove (moved_from H) cb (_tilePatchCallbacks n))) n).

(** The body of the destructor. *)
Definition TerrainEngineNode_destructor : M unit :=
  n ← get_this;
  match _map n with
  | Some p =>
      mapf ← Map_read p;
      for_each (λ l, ImageLayer_removeCallback l (_imageLayerController n))
               (map_imageLayers mapf)
  | None => mret tt
  end.

(** The operations of the node, for runs of calls made on it. *)
Inductive Op : Type :=
| call_addEffect (effect : ptr TerrainEffect)
| call_removeEffect (effect : ptr TerrainEffect)
| call_onColorFiltersChanged (layer : ptr ImageLayer)
| call_requireNormalTextures
| call_requireElevationTextures
| call_requireParentTextures
| call_requestRedraw
| call_dirtyTerrain
| call_setMap (map : ptr MapPtr) (options : TerrainOptions)
| call_setVerticalScale (value : float)
| call_onMapInfoEstablished (mapInfo : MapInfo)
| call_onMapModelChanged (change : MapModelChange)
| call_createTileModel (frame : Map) (key : TileKey H)
    (filter : CreateTileModelFilter H) (progress : ptr (ProgressCallback H))
| call_addCreateTileModelCallback (callback : ptr CreateTileModelCallback)
| call_removeCreateTileModelCallback (callback : ptr CreateTileModelCallback)
| call_traverse (vt : VisitorType)
| call_notifyOfTerrainTileNodeCreation (key : TileKey H) (node : ptr nat)
| call_addTilePatchCallback (cb : ptr TilePatchCallback)
| call_removeTilePatchCallback (cb : ptr TilePatchCallback)
| call_setComputeRangeCallback (cb : ptr ComputeRangeCallback).

Definition exec (op : Op) : M unit :=
  match op with
  | call_addEffect e => addEffect e
  | call_removeEffect e => removeEffect e
  | call_onColorFiltersChanged l => ImageLayerController_onColorFiltersChanged l
  | call_requireNormalTextures => requireNormalTextures
  | call_requireElevationTextures => requireElevationTextures
  | call_requireParentTextures => requireParentTextures
  | call_requestRedraw => requestRedraw
  | call_dirtyTerrain => dirtyTerrain
  | call_setMap map options => setMap map options
  | call_setVerticalScale v => setVerticalScale v
  | call_onMapInfoEstablished mi => onMapInfoEstablished mi
  | call_onMapModelChanged change => onMapModelChanged change
  | call_createTileModel frame key filter progress =>
      createTileModel frame key filter progress ;; mret tt
  | call_addCreateTileModelCallback cb => addCreateTileModelCallback cb
  | call_removeCreateTileModelCallback cb => removeCreateTileModelCallback cb
  | call_traverse vt => traverse vt
  | call_notifyOfTerrainTileNodeCreation key node =>
      notifyOfTerrainTileNodeCreation key node
  | call_addTilePatchCallback cb => addTilePatchCallback cb
  | call_removeTilePatchCallback cb => removeTilePatchCallback cb
  | call_setComputeRangeCallback cb => setComputeRangeCallback cb
  end.

(** A run of calls, one after the other. *)
Definition exec_all (ops : list Op) : M unit := for_each exec ops.

End WithHost.

(** ** Nodes on the heap, and the proxy in front of them *)

(** The nodes alive, by address, and the environment they share.  A
    destroyed node has no entry. *)
Record Heap : Type := {
  nodes : gmap NodePtr TerrainEngineNode;
  heap_env : Env
}.

(** Run a method on the node at address [p]. *)
Definition invoke {A} (p : NodePtr) (m : M A) (h : Heap) : option (A * Heap) :=
  match nodes h !! p with
  | Some n =>
      match m {| self := p; this := n; env := heap_env h |} with
      | Some (a, w) =>
          Some (a, {| nodes := <[p := this w]> (nodes h); heap_env := env w |})
      | None => None
      end
  | None => None
  end.

(** [observer_ptr::lock]: a strong reference if the node is still alive. *)
Definition observer_lock (h : Heap) (p : NodePtr) : ptr TerrainEngineNode :=
  nodes h !! p.

Definition Proxy_onMapInfoEstablished (proxy : TerrainEngineNodeCallbackProxy)
    (mapInfo : MapInfo) (h : Heap) : option Heap :=
  match observer_lock h (_node proxy) with
  | Some safeNode => snd <$> invoke (_node proxy) (onMapInfoEstablished mapInfo) h
  | None => Some h
  end.

Definition Proxy_onMapModelChanged (proxy : TerrainEngineNodeCallbackProxy)
    (change : MapModelChange) (h : Heap) : option Heap :=
  match observer_lock h (_node proxy) with
  | Some safeNode => snd <$> invoke (_node proxy) (onMapModelChanged change) h
  | None => Some h
  end.

(** [delete node]: the destructor runs, then the node is gone. *)
Definition destroy (p : NodePtr) (h : Heap) : option Heap :=
  match invoke p TerrainEngineNode_destructor h with
  | Some (_, h') => Some {| nodes := delete p (nodes h'); heap_env := heap_env h' |}
  | None => None
  end.

(** Modelled from the spec: the map "raises change notifications"; the
    notifying code is not part of this file.  Every registered callback is
    handed the change, in registration order. *)
Fixpoint Map_notify (callbacks : list TerrainEngineNodeCallbackProxy)
    (change : MapModelChange) (h : Heap) : option Heap :=
  match callbacks with
  | [] => Some h
  | proxy :: rest =>
      match Proxy_onMapModelChanged proxy change h with
      | Some h' => Map_notify rest change h'
      | None => None
      end
  end.

Definition heap_set_map (p : MapPtr) (m : Map) (h : Heap) : Heap :=
  {| nodes := nodes h; heap_env := set_maps (<[p := m]> (maps (heap_env h))) (heap_env h) |}.

(** Modelled from the spec: an image layer joins the map, and the map
    announces it with an ADD_LAYER change that carries the layer. *)
Definition Map_addImageLayer (p : MapPtr) (layer : ImageLayer) (h : Heap) : option Heap :=
  match maps (heap_env h) !! p with
  | Some m =>
      Map_notify (_mapCallbacks m)
        {| getAction := ADD_LAYER; getImageLayer := Some layer; getElevationLayer := None |}
        (heap_set_map p (set_map_imageLayers (map_imageLayers m ++ [layer]) m) h)
  | None => None
  end.

(** Modelled from the spec: an image layer of the map leaves it, and the
    map announces it with a REMOVE_LAYER change that carries the layer.  A
    layer that is not in the map cannot leave: nothing happens. *)
Definition Map_removeImageLayer (p : MapPtr) (layer : ImageLayer) (h : Heap) : option Heap :=
  match maps (heap_env h) !! p with
  | Some m =>
      if decide (layer ∈ map_imageLayers m) then
        Map_notify (_mapCallbacks m)
          {| getAction := REMOVE_LAYER; getImageLayer := Some layer; getElevationLayer := None |}
          (heap_set_map p (set_map_imageLayers (find_and_erase (map_imageLayers m) layer) m) h)
      else Some h
  | None => None
  end.

(** The edits of the map's image layers. *)
Inductive MapEdit : Type :=
| AddImageLayer (layer : ImageLayer)
| RemoveImageLayer (layer : ImageLayer).

Definition apply_edit (p : MapPtr) (e : MapEdit) (h : Heap) : option Heap :=
  match e with
  | AddImageLayer l => Map_addImageLayer p l h
  | RemoveImageLayer l => Map_removeImageLayer p l h
  end.

Fixpoint apply_edits (p : MapPtr) (es : list MapEdit) (h : Heap) : option Heap :=
  match es with
  | [] => Some h
  | e :: rest =>
      match apply_edit p e h with
      | Some h' => apply_edits p rest h'
      | None => None
      end
  end.

(** ** Vocabulary for the properties *)

(** [m] called [n] times in a row. *)
Fixpoint repeat_call (n : nat) (m : M unit) : M unit :=
  match n with
  | O => mret tt
  | S n' => m ;; repeat_call n' m
  end.

(** The number of redraw requests that have reached the views. *)
Definition outward_signals (E : Env) : nat :=
  count_occ Event_eq_dec (trace E) ViewsRequestRedraw.

(** The requirement flags that have a setter in this file. *)
Inductive RequirementFlag : Type :=
| NormalTextures
| ElevationTextures
| ParentTextures.

Definition require (f : RequirementFlag) : M unit :=
  match f with
  | NormalTextures => requireNormalTextures
  | ElevationTextures => requireElevationTextures
  | ParentTextures => requireParentTextures
  end.

Definition reads (f : RequirementFlag) (n : TerrainEngineNode) : bool :=
  match f with
  | NormalTextures => _requireNormalTextures n
  | ElevationTextures => _requireElevationTextures n
  | ParentTextures => _requireParentTextures n
  end.

(** A method keeps a property of the node: if the property holds when the
    method is entered and the method returns, it holds on return. *)
Definition keeps (P : TerrainEngineNode → Prop) {A} (m : M A) : Prop :=
  ∀ w a w', m w = Some (a, w') → P (this w) → P (this w').

(** A requirement flag reads true. *)
Definition flag_set (f : RequirementFlag) (n : TerrainEngineNode) : Prop :=
  reads f n = true.

(** The world after the calls [es] have been recorded, all else equal. *)
Definition emitted (es : list Event) (w : World) : World :=
  {| self := self w; this := this w;
     env := set_trace (trace (env w) ++ es) (env w) |}.

(** The subscription table after [cb] has been subscribed to each layer of
    [ls] in turn, and after it has been unsubscribed from each in turn. *)
Definition subscribe_all (cb : ptr TerrainLayerCallback) (ls : list ImageLayer)
    (lc : gmap ImageLayer (list (ptr TerrainLayerCallback)))
    : gmap ImageLayer (list (ptr TerrainLayerCallback)) :=
  foldl (λ lc l, <[l := default [] (lc !! l) ++ [cb]]> lc) lc ls.

Definition unsubscribe_all (cb : ptr TerrainLayerCallback) (ls : list ImageLayer)
    (lc : gmap ImageLayer (list (ptr TerrainLayerCallback)))
    : gmap ImageLayer (list (ptr TerrainLayerCallback)) :=
  foldl (λ lc l, <[l := find_and_erase (default [] (lc !! l)) cb]> lc) lc ls.

(** How often [cb] occurs in the entry of layer [l]. *)
Definition occurrences (lc : gmap ImageLayer (list (ptr TerrainLayerCallback)))
    (l : ImageLayer) (cb : ptr TerrainLayerCallback) : nat :=
  count_occ (decide_rel (=)) (default [] (lc !! l)) cb.

(** How often a callback is subscribed to a layer. *)
Definition subscriptions (E : Env) (l : ImageLayer) (cb : ptr TerrainLayerCallback) : nat :=
  occurrences (layerCallbacks E) l cb.

(** The image layers of a map after an edit, and after a list of edits. *)
Definition edit_layers (e : MapEdit) (L : list ImageLayer) : list ImageLayer :=
  match e with
  | AddImageLayer l => L ++ [l]
  | RemoveImageLayer l => find_and_erase L l
  end.

Definition layers_after (es : list MapEdit) (L : list ImageLayer) : list ImageLayer :=
  foldl (λ L e, edit_layers e L) L es.

(** The node at [p] watches the map at [mp] through one proxy, and its
    controller [c] is subscribed to each layer as often as the map lists
    it. *)
Definition tracks (p : NodePtr) (mp : MapPtr) (c : TerrainLayerCallback) (h : Heap) : Prop :=
  ∃ n m,
    nodes h !! p = Some n
    ∧ _imageLayerController n = Some c
    ∧ _map n = Some mp
    ∧ maps (heap_env h) !! mp = Some m
    ∧ _mapCallbacks m = [{| _node := p |}]
    ∧ ∀ l, subscriptions (heap_env h) l (Some c)
           = count_occ Nat.eq_dec (map_imageLayers m) l.

(** The image layers of the map at [mp]. *)
Definition layers_of (h : Heap) (mp : MapPtr) : list ImageLayer :=
  match maps (heap_env h) !! mp with
  | Some m => map_imageLayers m
  | None => []
  end.

(** *** A small concrete setting *)

(** A host in which a tile model is the list of the callbacks that have
    seen it, the factory has data for levels of detail below 3 only, and
    assignment copies. *)
Definition sample_host : Host :=
  {| TerrainTileModel := list nat;
     TileKey := nat * nat * nat;
     CreateTileModelFilter := unit;
     ProgressCallback := unit;
     factory_createTileModel := λ _ _ key _ _ _,
       if decide (key.1.1 < 3)%nat then Some [] else None;
     onCreateTileModel := λ cb _ model, model ++ [cb];
     moved_from := λ p, p |}.

Definition sample_map : Map :=
  {| getProfile := Some 5%nat; isGeocentric := true;
     map_imageLayers := [10%nat; 11%nat]; _mapCallbacks := [] |}.

Definition sample_env : Env :=
  {| trace := [];
     maps := {[ 1%nat := sample_map ]};
     layerCallbacks := ∅;
     next_object := 100;
     offLimitsTextureImageUnits := [0] |}.

Definition sample_options : TerrainOptions := {| binNumber := None |}.

(** A node fresh from its constructor. *)
Definition sample_world : World :=
  {| self := 0%nat; this := TerrainEngineNode_new; env := sample_env |}.

Definition sample_heap : Heap :=
  {| nodes := {[ 0%nat := TerrainEngineNode_new ]}; heap_env := sample_env |}.

(** A node whose effect list is [[1; 2]]. *)
Definition two_effects_world : World :=
  {| self := 0%nat;
     this := set_effects [1%nat; 2%nat] TerrainEngineNode_new;
     env := sample_env |}.

(** The sample node after [setMap] on the sample map. *)
Definition sample_ready_world : World :=
  match setMap (Some 1%nat) sample_options sample_world with
  | Some (_, w) => w
  | None => sample_world
  end.

(** The same node with tile-model callbacks 21 and 22 registered, in that
    order. *)
Definition sample_tiles_world : World :=
  match (addCreateTileModelCallback (Some 21%nat) ;;
         addCreateTileModelCallback (Some 22%nat)) sample_ready_world with
  | Some (_, w) => w
  | None => sample_ready_world
  end.

(** ** Further vocabulary *)

(** The node of a world with its tile-model callback registry replaced. *)
Definition with_tileModelCallbacks (cbs : list (ptr CreateTileModelCallback)) (w : World) : World :=
  {| self := self w; this := set_createTileModelCallbacks cbs (this w); env := env w |}.

(** The state of the node, by who may write it. *)
Inductive Field : Type :=
| EffectList
| TileModelCallbacks
| TilePatchCallbacks
| VerticalScale
| ComputeRange
| RequirementFlags
| DirtyCount
| Setup
| Untouched.

Global Instance Field_eq_dec : EqDecision Field.
Proof. solve_decision. Defined.

(** Two nodes agree on a part of the state. *)
Definition same_on (fld : Field) (n n' : TerrainEngineNode) : Prop :=
  match fld with
  | EffectList => effects_ n = effects_ n'
  | TileModelCallbacks => _createTileModelCallbacks n = _createTileModelCallbacks n'
  | TilePatchCallbacks => _tilePatchCallbacks n = _tilePatchCallbacks n'
  | VerticalScale => _verticalScale n = _verticalScale n'
  | ComputeRange => _computeRangeCallback n = _computeRangeCallback n'
  | RequirementFlags =>
      _requireNormalTextures n = _requireNormalTextures n'
      ∧ _requireElevationTextures n = _requireElevationTextures n'
      ∧ _requireParentTextures n = _requireParentTextures n'
  | DirtyCount => _dirtyCount n = _dirtyCount n'
  | Setup =>
      _map n = _map n'
      ∧ _terrainInterface n = _terrainInterface n'
      ∧ _textureResourceTracker n = _textureResourceTracker n'
      ∧ _tileModelFactory n = _tileModelFactory n'
      ∧ _imageLayerController n = _imageLayerController n'
      ∧ _initStage n = _initStage n'
  | Untouched =>
      _tileNodeCallbacks n = _tileNodeCallbacks n'
      ∧ _redrawRequired n = _redrawRequired n'
      ∧ _requireElevationBorder n = _requireElevationBorder n'
      ∧ _requireFullDataAtFirstLOD n = _requireFullDataAtFirstLOD n'
  end.

(** The parts of the state that a call assigns to. *)
Definition written_by (H : Host) (op : Op H) : list Field :=
  match op with
  | call_addEffect _ (Some _) | call_removeEffect _ (Some _) => [EffectList]
  | call_requireNormalTextures _ | call_requireElevationTextures _
  | call_requireParentTextures _ => [RequirementFlags; DirtyCount]
  | call_requestRedraw _ | call_dirtyTerrain _ | call_onMapModelChanged _ _
  | call_traverse _ EVENT_VISITOR => [DirtyCount]
  | call_setMap _ (Some _) _ => [Setup]
  | call_setVerticalScale _ _ => [VerticalScale]
  | call_addCreateTileModelCallback _ _ | call_removeCreateTileModelCallback _ _ =>
      [TileModelCallbacks]
  | call_addTilePatchCallback _ _ | call_removeTilePatchCallback _ _ => [TilePatchCallbacks]
  | call_setComputeRangeCallback _ _ => [ComputeRange]
  | _ => []
  end.

(** The node has everything [setMap] makes. *)
Definition ready (n : TerrainEngineNode) : Prop :=
  is_Some (_map n)
  ∧ is_Some (_terrainInterface n)
  ∧ is_Some (_textureResourceTracker n)
  ∧ is_Some (_tileModelFactory n)
  ∧ is_Some (_imageLayerController n)
  ∧ _initStage n = INIT_POSTINIT_COMPLETE.

(** The event traversals among a run of calls. *)
Definition is_event_traversal (H : Host) (op : Op H) : bool :=
  match op with
  | call_traverse _ EVENT_VISITOR => true
  | _ => false
  end.

Definition event_traversals (H : Host) (ops : list (Op H)) : nat :=
  foldr (λ op k, if is_event_traversal H op then S k else k) 0%nat ops.

(** 1 when the next redraw request would reach the views, else 0. *)
Definition idle (w : World) : nat :=
  if decide (_dirtyCount (this w) = 0) then 1%nat else 0%nat.

(** A method that increments the dirty counter at most [j] times and,
    where the counter has room for that, lets at most [d] redraw requests
    out beyond the one the counter already allows. *)
Definition bounded (d j : nat) {A} (m : M A) : Prop :=
  ∀ w a w', m w = Some (a, w') →
    0 ≤ _dirtyCount (this w) →
    _dirtyCount (this w) + Z.of_nat j ≤ UINT_MAX →
    0 ≤ _dirtyCount (this w') ≤ _dirtyCount (this w) + Z.of_nat j
    ∧ (outward_signals (env w') + idle w' ≤ outward_signals (env w) + idle w + d)%nat.

(** Every proxy registered with the map at [mp] points at a destroyed
    node. *)
Definition orphaned (mp : MapPtr) (h : Heap) : Prop :=
  ∃ m, maps (heap_env h) !! mp = Some m
       ∧ Forall (λ proxy, observer_lock h (_node proxy) = None) (_mapCallbacks m).

(** The sample heap after [setMap] on the sample map and then the
    destruction of the node. *)
Definition sample_orphan_heap : Heap :=
  match invoke 0%nat (setMap (Some 1%nat) sample_options) sample_heap with
  | Some (_, h1) =>
      match destroy 0%nat h1 with
      | Some h2 => h2
      | None => sample_heap
      end
  | None => sample_heap
  end.

(** A fresh node with tile-patch callbacks 1, 2, 1, 3 registered, in that
    order. *)
Definition sample_patch_world : World :=
  {| self := 0%nat;
     this := set_tilePatchCallbacks [Some 1%nat; Some 2%nat; Some 1%nat; Some 3%nat]
                                    TerrainEngineNode_new;
     env := sample_env |}.

(** A fresh node that has been given a tile-node callback registry. *)
Definition tile_node_world (callbacks : list (ptr TileNodeCallback)) : World :=
  {| self := 0%nat;
     this :=
       {| _verticalScale := float_one;
          _initStage := INIT_NONE;
          _dirtyCount := 0;
          _requireElevationTextures := false;
          _requireNormalTextures := false;
          _requireParentTextures := false;
          _requireElevationBorder := false;
          _requireFullDataAtFirstLOD := false;
          _redrawRequired := true;
          effects_ := [];
          _map := None;
          _terrainInterface := None;
          _textureResourceTracker := None;
          _tileModelFactory := None;
          _imageLayerController := None;
          _createTileModelCallbacks := [];
          _tileNodeCallbacks := callbacks;
          _tilePatchCallbacks := [];
          _computeRangeCallback := None |};
     env := sample_env |}.

(** The calls that set up the coordinate-system node for a map: the
    population from the profile's SRS and, for a projected map, the clearing
    of the ellipsoid model. *)
Definition coordinate_system_calls (profile : Profile) (geocentric : bool) : list Event :=
  SRS_populateCoordinateSystemNode profile
  :: (if geocentric then [] else [SetEllipsoidModel_NULL]).

(** The call that stamps the render bin, if the options ask for one. *)
Definition render_bin_calls (options : TerrainOptions) : list Event :=
  match binNumber options with
  | Some bin => [SetRenderBinDetails bin]
  | None => []
  end.

(** *** TerrainEngineNodeFactory *)

(** What [osgDB::readObjectFile] hands back: a terrain engine node, or an
    object of some other class. *)
Inductive LoadedObject : Type :=
| LoadedEngine (node : NodePtr)
| LoadedOther.

(** The outcome of [TerrainEngineNodeFactory::create]: the node, the name
    the plugin loader was asked for, and the driver named in the warning, if
    one was logged. *)
Record Creation : Type := {
  created : ptr NodePtr;
  asked_for : string;
  warned_about : option string
}.

(** The driver that is loaded: the one the options name, or the registry's
    default when they name none. *)
Definition effective_driver (getDriver : TerrainOptions → string) (defaultName : string)
    (options : TerrainOptions) : string :=
  if decide (getDriver options = EmptyString) then defaultName else getDriver options.

(** [getDriver] reads the driver name off the options,
    [defaultName] is the registry's default terrain-engine driver name, and
    [readObjectFile] is the plugin loader. *)
Definition TerrainEngineNodeFactory_create (getDriver : TerrainOptions → string)
    (defaultName : string) (readObjectFile : string → ptr LoadedObject)
    (options : TerrainOptions) : Creation :=
  let driver := effective_driver getDriver defaultName options in
  let driverExt := (".osgearth_engine_" +:+ driver)%string in
  let result :=
    match readObjectFile driverExt with
    | Some (LoadedEngine node) => Some node
    | _ => None
    end in
  {| created := result;
     asked_for := driverExt;
     warned_about := match result with
                     | Some _ => None
                     | None => Some driver
                     end |}.

(** Options that name the driver [mp] when a render bin is set, and none
    otherwise; a loader that knows the drivers [mp] and [rex]. *)
Definition sample_getDriver (options : TerrainOptions) : string :=
  match binNumber options with
  | Some _ => "mp"%string
  | None => EmptyString
  end.

Definition sample_readObjectFile (name : string) : ptr LoadedObject :=
  if decide (name = ".osgearth_engine_mp"%string) then Some (LoadedEngine 1)
  else if decide (name = ".osgearth_engine_rex"%string) then Some (LoadedEngine 2)
  else if decide (name = ".osgearth_engine_png"%string) then Some LoadedOther
  else None.

(** The sample heap after [setMap] on the sample map. *)
Definition sample_watched_heap : Heap :=
  match invoke 0%nat (setMap (Some 1%nat) sample_options) sample_heap with
  | Some (_, h) => h
  | None => sample_heap
  end.

(** The requirements with one more flag on. *)
Definition with_requirement (f : RequirementFlag) (r : TerrainEngineRequirements)
    : TerrainEngineRequirements :=
  {| elevationTexturesRequired :=
       match f with ElevationTextures => true | _ => elevationTexturesRequired r end;
     normalTexturesRequired :=
       match f with NormalTextures => true | _ => normalTexturesRequired r end;
     parentTexturesRequired :=
       match f with ParentTextures => true | _ => parentTexturesRequired r end;
     elevationBorderRequired := elevationBorderRequired r;
     fullDataAtFirstLodRequired := fullDataAtFirstLodRequired r |}.

(** A host whose factory has data exactly when normal textures are
    required. *)
Definition normals_host : Host :=
  {| TerrainTileModel := list nat;
     TileKey := nat * nat * nat;
     CreateTileModelFilter := unit;
     ProgressCallback := unit;
     factory_createTileModel := λ _ _ _ _ req _,
       if normalTexturesRequired req then Some [] else None;
     onCreateTileModel := λ cb _ model, model ++ [cb];
     moved_from := λ p, p |}.

(** The nodes that the proxies registered with a map point at, one entry
    per proxy. *)
Definition watchers (m : Map) : list NodePtr := _node <$> _mapCallbacks m.

(** The node at [p] is alive, works on the map at [mp] and has the
    controller [c], which no other live node has. *)
Definition owns (p : NodePtr) (mp : MapPtr) (c : TerrainLayerCallback) (h : Heap) : Prop :=
  ∃ n,
    nodes h !! p = Some n
    ∧ _imageLayerController n = Some c
    ∧ _map n = Some mp
    ∧ ∀ q n', q ≠ p → nodes h !! q = Some n' → _imageLayerController n' ≠ Some c.

(** The node at [p] watches the map at [mp] through one proxy, next to
    whichever other watchers the map has, and its controller [c] is
    subscribed to each layer as often as the map lists it. *)
Definition follows (p : NodePtr) (mp : MapPtr) (c : TerrainLayerCallback) (h : Heap) : Prop :=
  owns p mp c h
  ∧ ∃ m,
      maps (heap_env h) !! mp = Some m
      ∧ count_occ Nat.eq_dec (watchers m) p = 1%nat
      ∧ ∀ l, subscriptions (heap_env h) l (Some c)
             = count_occ Nat.eq_dec (map_imageLayers m) l.

(** A number of subscriptions after [k] handlers have seen a change. *)
Definition shifted (action : ActionType) (k x : nat) : nat :=
  match action with
  | ADD_LAYER => (x + k)%nat
  | REMOVE_LAYER => (x - k)%nat
  | _ => x
  end.

(** The change that announces an image layer. *)
Definition image_change (action : ActionType) (layer : ImageLayer) : MapModelChange :=
  {| getAction := action; getImageLayer := Some layer; getElevationLayer := None |}.

(** A heap in which the sample map is watched already: by the node at 7,
    whose controller is object 50, and through a proxy left behind by a
    node at 9 that is gone. *)
Definition sample_shared_heap : Heap :=
  {| nodes :=
       <[7%nat := set_imageLayerController (Some 50%nat)
                    (set_map (Some 1%nat) TerrainEngineNode_new)]>
         {[ 0%nat := TerrainEngineNode_new ]};
     heap_env :=
       {| trace := [];
          maps := {[ 1%nat := set_mapCallbacks [{| _node := 7%nat |}; {| _node := 9%nat |}]
                                sample_map ]};
          layerCallbacks := <[10%nat := [Some 50%nat]]> {[ 11%nat := [Some 50%nat] ]};
          next_object := 100;
          offLimitsTextureImageUnits := [0] |} |}.

(** * Properties *)

Ltac unfold_monad :=
  unfold mbind, mret, M_bind, M_ret, get_this, get_env, get_self,
         update_this, update_env, emit, deref, crash in *.

Ltac run := repeat (unfold_monad; cbn).

(** ** Sanity checks on small inputs *)

Example std_find_example :
  std_find [4%nat; 7%nat; 7%nat] 7%nat = 1%nat ∧ std_find [4%nat; 7%nat] 9%nat = 2%nat.
Proof. split; reflexivity. Qed.

Example find_and_erase_example :
  find_and_erase [4%nat; 7%nat; 5%nat; 7%nat] 7%nat = [4%nat; 5%nat; 7%nat]
  ∧ find_and_erase [4%nat; 5%nat] 7%nat = [4%nat; 5%nat].
Proof. split; reflexivity. Qed.

(** [std::remove] of 1 from [1; 2; 1; 3]: 2 and 3 move to the front and the
    new end is at index 2, but the vector still has four elements; what the
    last two hold depends on whether assignment copies or moves. *)
Example std_remove_copying :
  std_remove (λ p, p) (Some 1%nat) [Some 1%nat; Some 2%nat; Some 1%nat; Some 3%nat]
  = ([Some 2%nat; Some 3%nat; Some 1%nat; Some 3%nat], 2%nat).
Proof. reflexivity. Qed.

Example std_remove_moving :
  std_remove (λ _, None) (Some 1%nat) [Some 1%nat; Some 2%nat; Some 1%nat; Some 3%nat]
  = ([Some 2%nat; Some 3%nat; Some 1%nat; None], 2%nat).
Proof. reflexivity. Qed.

Example std_remove_last :
  std_remove (λ _, None) (Some 3%nat) [Some 1%nat; Some 2%nat; Some 3%nat]
  = ([Some 1%nat; Some 2%nat; Some 3%nat], 2%nat).
Proof. reflexivity. Qed.

Example erase_first_equal_example :
  erase_first_equal [Some 1%nat; Some 2%nat; Some 1%nat] (Some 1%nat)
  = [Some 2%nat; Some 1%nat].
Proof. reflexivity. Qed.

(** The sample node after [setMap]: its controller is object 100 and is
    subscribed to the two layers of the sample map. *)
Example sample_ready_world_example :
  _imageLayerController (this sample_ready_world) = Some 100%nat
  ∧ callbacks_of (env sample_ready_world) 10%nat = [Some 100%nat]
  ∧ callbacks_of (env sample_ready_world) 11%nat = [Some 100%nat]
  ∧ callbacks_of (env sample_ready_world) 12%nat = []
  ∧ trace (env sample_ready_world)
    = [SRS_populateCoordinateSystemNode 5; SRS_populateCoordinateSystemNode 5]
  ∧ _initStage (this sample_ready_world) = INIT_POSTINIT_COMPLETE.
Proof. vm_compute. repeat split. Qed.

(** Where the pointers are not what the methods expect, the call fails:
    a tile request before [setMap], a null entry in the callback registry,
    an elevation change before [setMap]. *)
Example createTileModel_without_factory :
  createTileModel sample_host sample_map (1%nat, 0%nat, 0%nat) tt None sample_world = None.
Proof. vm_compute. reflexivity. Qed.

Example createTileModel_null_callback :
  (addCreateTileModelCallback None ;;
   createTileModel sample_host sample_map (1%nat, 0%nat, 0%nat) tt None)
    sample_ready_world = None.
Proof. vm_compute. reflexivity. Qed.

Example onMapModelChanged_without_terrain :
  onMapModelChanged
    {| getAction := ADD_LAYER; getImageLayer := None; getElevationLayer := Some 30%nat |}
    sample_world = None.
Proof. vm_compute. reflexivity. Qed.

(** ** Redraw requests *)

Lemma uint_wrap_small z : 0 ≤ z ≤ UINT_MAX → uint_wrap z = z.
Proof. unfold uint_wrap, UINT_MAX. intros Hz. apply Z.mod_small. lia. Qed.

Lemma uint_wrap_range z : 0 ≤ uint_wrap z ≤ UINT_MAX.
Proof.
  unfold uint_wrap, UINT_MAX.
  pose proof (Z.mod_pos_bound z (4294967295 + 1)). lia.
Qed.

(** Incrementing always changes the counter, also where it wraps. *)
Lemma uint_wrap_succ_ne c : uint_wrap (c + 1) ≠ c.
Proof.
  intros Heq. pose proof (uint_wrap_range (c + 1)) as Hr. rewrite Heq in Hr.
  destruct (decide (c = UINT_MAX)) as [->|Hne].
  - vm_compute in Heq. discriminate.
  - rewrite uint_wrap_small in Heq by lia. lia.
Qed.

Lemma requestRedraw_first w :
  _dirtyCount (this w) = 0 →
  requestRedraw w =
  Some (tt, {| self := self w;
               this := set_dirtyCount 1 (this w);
               env := set_trace (trace (env w) ++ [ViewsRequestRedraw]) (env w) |}).
Proof.
  intros Hc. unfold requestRedraw. run. rewrite Hc.
  destruct (decide (0 = 0)) as [_|Hne]; [reflexivity | congruence].
Qed.

Lemma requestRedraw_later w :
  _dirtyCount (this w) ≠ 0 →
  requestRedraw w =
  Some (tt, {| self := self w;
               this := set_dirtyCount (uint_wrap (_dirtyCount (this w) + 1)) (this w);
               env := env w |}).
Proof.
  intros Hc. unfold requestRedraw. run.
  destruct (decide (0 = _dirtyCount (this w))) as [Heq|_]; [congruence | reflexivity].
Qed.

(** At the top of its range the counter goes back to 0, silently; the
    request after that one reaches the views again. *)
Example requestRedraw_at_UINT_MAX :
  let w := {| self := 0%nat; this := set_dirtyCount UINT_MAX TerrainEngineNode_new;
              env := sample_env |} in
  ∃ w1 w2,
    requestRedraw w = Some (tt, w1)
    ∧ _dirtyCount (this w1) = 0
    ∧ trace (env w1) = []
    ∧ requestRedraw w1 = Some (tt, w2)
    ∧ _dirtyCount (this w2) = 1
    ∧ trace (env w2) = [ViewsRequestRedraw].
Proof.
  intros w.
  let r := eval vm_compute in (requestRedraw w) in
  match r with
  | Some (tt, ?W1) =>
      exists W1;
      let r2 := eval vm_compute in (requestRedraw W1) in
      match r2 with Some (tt, ?W2) => exists W2 end
  end.
  repeat split; vm_compute; reflexivity.
Qed.

Lemma repeat_call_app (a b : nat) (m : M unit) (w : World) :
  repeat_call (a + b) m w
  = match repeat_call a m w with
    | Some (_, w') => repeat_call b m w'
    | None => None
    end.
Proof.
  revert w. induction a as [|a IH]; intros w; [reflexivity|].
  cbn [Nat.add repeat_call]. unfold mbind, M_bind.
  destruct (m w) as [[[] w']|]; [apply IH | reflexivity].
Qed.

(** While the counter is positive, further requests only count: none
    reaches the views, up to and including the request that takes the
    counter from [UINT_MAX] back to 0. *)
Lemma repeat_requestRedraw_later k : ∀ w,
  0 < _dirtyCount (this w) ≤ UINT_MAX →
  _dirtyCount (this w) + Z.of_nat k ≤ UINT_MAX + 1 →
  ∃ w', repeat_call k requestRedraw w = Some (tt, w')
        ∧ env w' = env w
        ∧ _dirtyCount (this w') = uint_wrap (_dirtyCount (this w) + Z.of_nat k).
Proof.
  induction k as [|k IH]; intros w Hpos Hk.
  - exists w. cbn [repeat_call]. repeat split.
    rewrite uint_wrap_small; lia.
  - cbn [repeat_call]. unfold mbind, M_bind at 1.
    rewrite requestRedraw_later by lia.
    set (w1 := {| self := self w;
                  this := set_dirtyCount (uint_wrap (_dirtyCount (this w) + 1)) (this w);
                  env := env w |}).
    assert (Hc1 : _dirtyCount (this w1) = uint_wrap (_dirtyCount (this w) + 1))
      by reflexivity.
    destruct (decide (_dirtyCount (this w) = UINT_MAX)) as [Htop|Hlow].
    + assert (k = 0%nat) as -> by lia.
      exists w1. cbn [repeat_call]. repeat split.
    + rewrite uint_wrap_small in Hc1 by lia.
      destruct (IH w1) as (w' & Hrun & Henv & Hcount); [lia | lia |].
      exists w'. rewrite Hrun. repeat split; [exact Henv|].
      rewrite Hcount, Hc1. f_equal. lia.
Qed.

Lemma count_signals_app (t u : list Event) :
  count_occ Event_eq_dec (t ++ u) ViewsRequestRedraw =
  (count_occ Event_eq_dec t ViewsRequestRedraw
   + count_occ Event_eq_dec u ViewsRequestRedraw)%nat.
Proof. apply count_occ_app. Qed.

(** From a counter of 0, [UINT_MAX + 2] requests in a row let two through:
    the first, and the one that finds the counter back at 0. *)
Lemma requestRedraw_wraps (k : nat) (w : World) :
  _dirtyCount (this w) = 0 →
  Z.of_nat k = UINT_MAX →
  ∃ w1, repeat_call (S (k + 1)) requestRedraw w = Some (tt, w1)
        ∧ trace (env w1) = trace (env w) ++ [ViewsRequestRedraw; ViewsRequestRedraw]
        ∧ _dirtyCount (this w1) = 1.
Proof.
  intros Hzero Hk.
  cbn [repeat_call]. unfold mbind, M_bind at 1.
  rewrite (requestRedraw_first w Hzero).
  set (wa := {| self := self w; this := set_dirtyCount 1 (this w);
                env := set_trace (trace (env w) ++ [ViewsRequestRedraw]) (env w) |}).
  destruct (repeat_requestRedraw_later k wa) as (wb & Hrun & Henv & Hcount).
  { change (_dirtyCount (this wa)) with 1. unfold UINT_MAX. lia. }
  { change (_dirtyCount (this wa)) with 1. lia. }
  change (_dirtyCount (this wa)) with 1 in Hcount.
  rewrite Hk in Hcount. change (uint_wrap (1 + UINT_MAX)) with 0 in Hcount.
  rewrite repeat_call_app, Hrun.
  cbn [repeat_call]. unfold mbind, M_bind at 1.
  rewrite (requestRedraw_first wb Hcount).
  eexists. split; [reflexivity|]. split; [|reflexivity].
  cbn. rewrite Henv. cbn. rewrite <- app_assoc. reflexivity.
Qed.

(** C4 as stated fails for a run that is long enough: with the counter at
    0, [UINT_MAX + 2] calls of [requestRedraw] and no event traversal in
    between let two redraw requests out, not one.  The call number
    [UINT_MAX + 1] takes the counter from [UINT_MAX] back to 0, and the next
    call sees 0. *)
Lemma C4_second_signal_after_wrap :
  (1 < Z.to_nat (UINT_MAX + 2))%nat
  ∧ _dirtyCount (this sample_world) = 0
  ∧ ∃ w1,
      repeat_call (Z.to_nat (UINT_MAX + 2)) requestRedraw sample_world = Some (tt, w1)
      ∧ trace (env w1)
        = trace (env sample_world) ++ [ViewsRequestRedraw; ViewsRequestRedraw]
      ∧ outward_signals (env w1) = S (S (outward_signals (env sample_world)))
      ∧ outward_signals (env w1) ≠ S (outward_signals (env sample_world)).
Proof.
  assert (HN : ∃ k, Z.to_nat (UINT_MAX + 2) = S (k + 1) ∧ Z.of_nat k = UINT_MAX).
  { exists (Z.to_nat UINT_MAX). unfold UINT_MAX. lia. }
  destruct HN as (k & -> & Hk).
  split; [lia|]. split; [reflexivity|].
  destruct (requestRedraw_wraps k sample_world eq_refl Hk) as (w1 & Hrun & Htrace & _).
  exists w1. split; [exact Hrun|]. split; [exact Htrace|].
  unfold outward_signals. rewrite Htrace, count_signals_app. cbn. lia.
Qed.

(** C4, as the code has it.  Starting from a dirty counter of 0, [N] calls
    of [requestRedraw] with no event traversal in between, for
    [1 < N ≤ UINT_MAX + 1], let exactly one redraw request out, made by the
    first call (the 0-to-1 transition); the event traversal puts the
    counter back to 0, and the call after it lets exactly one more out. *)
Theorem C4_requestRedraw_coalesces (N : nat) (w : World) :
  (1 < N)%nat →
  Z.of_nat N ≤ UINT_MAX + 1 →
  _dirtyCount (this w) = 0 →
  ∃ w1 w2 w3,
    repeat_call N requestRedraw w = Some (tt, w1)
    ∧ trace (env w1) = trace (env w) ++ [ViewsRequestRedraw]
    ∧ outward_signals (env w1) = S (outward_signals (env w))
    ∧ traverse EVENT_VISITOR w1 = Some (tt, w2)
    ∧ _dirtyCount (this w2) = 0
    ∧ outward_signals (env w2) = outward_signals (env w1)
    ∧ requestRedraw w2 = Some (tt, w3)
    ∧ trace (env w3) = trace (env w2) ++ [ViewsRequestRedraw]
    ∧ outward_signals (env w3) = S (S (outward_signals (env w))).
Proof.
  intros HN Hmax Hzero.
  destruct N as [|k]; [lia|].
  pose (wa := {| self := self w; this := set_dirtyCount 1 (this w);
                 env := set_trace (trace (env w) ++ [ViewsRequestRedraw]) (env w) |}).
  destruct (repeat_requestRedraw_later k wa) as (w1 & Hrun & Henv & Hcount).
  { change (_dirtyCount (this wa)) with 1. unfold UINT_MAX. lia. }
  { change (_dirtyCount (this wa)) with 1. lia. }
  pose (w2 := {| self := self w1; this := set_dirtyCount 0 (this w1);
                 env := set_trace (trace (env w1) ++ [CoordinateSystemNode_traverse EVENT_VISITOR])
                                  (env w1) |}).
  exists w1, w2. eexists.
  assert (Htr1 : trace (env w1) = trace (env w) ++ [ViewsRequestRedraw])
    by (rewrite Henv; reflexivity).
  assert (Hs1 : outward_signals (env w1) = S (outward_signals (env w))).
  { unfold outward_signals. rewrite Htr1, count_signals_app. cbn. lia. }
  assert (Hs2 : outward_signals (env w2) = outward_signals (env w1)).
  { unfold outward_signals. cbn. rewrite count_signals_app. cbn. lia. }
  split.
  { cbn [repeat_call]. unfold mbind, M_bind at 1.
    rewrite (requestRedraw_first w Hzero). exact Hrun. }
  split; [exact Htr1|]. split; [exact Hs1|].
  split; [reflexivity|]. split; [reflexivity|]. split; [exact Hs2|].
  split; [apply (requestRedraw_first w2); reflexivity|].
  split; [reflexivity|].
  unfold outward_signals in *. cbn. rewrite !count_signals_app. cbn.
  rewrite Htr1, count_signals_app in *. cbn in *. lia.
Qed.

Lemma C4_requestRedraw_coalesces_witness :
  ∃ w1 w2 w3,
    repeat_call 3 requestRedraw sample_world = Some (tt, w1)
    ∧ trace (env w1) = trace (env sample_world) ++ [ViewsRequestRedraw]
    ∧ outward_signals (env w1) = S (outward_signals (env sample_world))
    ∧ traverse EVENT_VISITOR w1 = Some (tt, w2)
    ∧ _dirtyCount (this w2) = 0
    ∧ outward_signals (env w2) = outward_signals (env w1)
    ∧ requestRedraw w2 = Some (tt, w3)
    ∧ trace (env w3) = trace (env w2) ++ [ViewsRequestRedraw]
    ∧ outward_signals (env w3) = S (S (outward_signals (env sample_world))).
Proof.
  apply (C4_requestRedraw_coalesces 3 sample_world);
    [lia | unfold UINT_MAX; lia | reflexivity].
Defined.

(** ** Vertical scale *)

(** C10. [setVerticalScale v] stores [v] in the vertical-scale field and
    calls the vertical-scale-changed hook, and that is all: the dirty
    counter, the redraw requests, the effect list, the callback registries
    and the requirement flags are as before. *)
Theorem C10_setVerticalScale_frame (v : float) (w : World) :
  ∃ w',
    setVerticalScale v w = Some (tt, w')
    ∧ w' = {| self := self w;
              this := set_verticalScale v (this w);
              env := set_trace (trace (env w) ++ [OnVerticalScaleChanged]) (env w) |}
    ∧ _verticalScale (this w') = v
    ∧ trace (env w') = trace (env w) ++ [OnVerticalScaleChanged]
    ∧ _dirtyCount (this w') = _dirtyCount (this w)
    ∧ outward_signals (env w') = outward_signals (env w)
    ∧ effects_ (this w') = effects_ (this w)
    ∧ _createTileModelCallbacks (this w') = _createTileModelCallbacks (this w)
    ∧ _tileNodeCallbacks (this w') = _tileNodeCallbacks (this w)
    ∧ _tilePatchCallbacks (this w') = _tilePatchCallbacks (this w)
    ∧ requirements_of (this w') = requirements_of (this w)
    ∧ layerCallbacks (env w') = layerCallbacks (env w)
    ∧ maps (env w') = maps (env w).
Proof.
  eexists. split; [reflexivity|]. split; [reflexivity|].
  repeat split.
  unfold outward_signals. cbn. rewrite count_signals_app. cbn. lia.
Qed.

(** ** Finding and erasing in a vector *)

Lemma std_find_le {A} `{EqDecision A} (v : list A) (x : A) :
  (std_find v x ≤ length v)%nat.
Proof.
  induction v as [|y v IH]; cbn; [lia|].
  destruct (decide (y = x)); cbn; lia.
Qed.

Lemma std_find_absent {A} `{EqDecision A} (v : list A) (x : A) :
  x ∉ v → std_find v x = length v.
Proof.
  induction v as [|y v IH]; intros Hx; cbn; [reflexivity|].
  apply not_elem_of_cons in Hx as [Hne Hx].
  destruct (decide (y = x)); [congruence|]. rewrite IH; auto.
Qed.

Lemma std_find_present {A} `{EqDecision A} (v : list A) (x : A) :
  x ∈ v → v !! std_find v x = Some x.
Proof.
  induction v as [|y v IH]; intros Hx; cbn.
  - apply elem_of_nil in Hx as [].
  - destruct (decide (y = x)) as [->|Hne]; [reflexivity|].
    apply elem_of_cons in Hx as [Heq|Hx]; [congruence|]. cbn. auto.
Qed.

Lemma std_find_app_fresh {A} `{EqDecision A} (v : list A) (x : A) :
  x ∉ v → std_find (v ++ [x]) x = length v.
Proof.
  induction v as [|y v IH]; intros Hx; cbn.
  - destruct (decide (x = x)); congruence.
  - apply not_elem_of_cons in Hx as [Hne Hx].
    destruct (decide (y = x)); [congruence|]. rewrite IH; auto.
Qed.

Lemma delete_last {A} (v : list A) (x : A) : delete (length v) (v ++ [x]) = v.
Proof. induction v as [|y v IH]; cbn; [reflexivity | f_equal; exact IH]. Qed.

Lemma find_and_erase_absent {A} `{EqDecision A} (v : list A) (x : A) :
  x ∉ v → find_and_erase v x = v.
Proof.
  intros Hx. unfold find_and_erase. rewrite std_find_absent by assumption.
  destruct (decide (length v ≠ length v)); congruence.
Qed.

Lemma find_and_erase_app_fresh {A} `{EqDecision A} (v : list A) (x : A) :
  x ∉ v → find_and_erase (v ++ [x]) x = v.
Proof.
  intros Hx. unfold find_and_erase. rewrite std_find_app_fresh by assumption.
  rewrite length_app. cbn.
  destruct (decide (length v ≠ (length v + 1)%nat)); [apply delete_last | lia].
Qed.

Lemma find_and_erase_present {A} `{EqDecision A} (v : list A) (x : A) :
  x ∈ v → v ≡ₚ x :: find_and_erase v x.
Proof.
  intros Hx. unfold find_and_erase.
  pose proof (std_find_present v x Hx) as Hi.
  destruct (decide (std_find v x ≠ length v)) as [_|Hend].
  - apply delete_Permutation. exact Hi.
  - apply lookup_lt_Some in Hi. lia.
Qed.

Lemma set_effects_same (n : TerrainEngineNode) : set_effects (effects_ n) n = n.
Proof. destruct n; reflexivity. Qed.

(** ** Effects *)

(** What [removeEffect] does for a non-null effect, whether installed or
    not: the uninstall hook, the erasure of the first entry if there is one,
    the dirty-state hook. *)
Lemma removeEffect_some (e : TerrainEffect) (w : World) :
  removeEffect (Some e) w =
  Some (tt, {| self := self w;
               this := set_effects (find_and_erase (effects_ (this w)) e) (this w);
               env := set_trace (trace (env w) ++ [Effect_onUninstall e; DirtyState]) (env w) |}).
Proof.
  unfold removeEffect, dirtyState. run.
  rewrite <- app_assoc. reflexivity.
Qed.

Lemma addEffect_some (e : TerrainEffect) (w : World) :
  addEffect (Some e) w =
  Some (tt, {| self := self w;
               this := set_effects (effects_ (this w) ++ [e]) (this w);
               env := set_trace (trace (env w) ++ [Effect_onInstall e; DirtyState]) (env w) |}).
Proof.
  unfold addEffect, dirtyState. run.
  rewrite <- app_assoc. reflexivity.
Qed.

(** C6, as the code has it.  [addEffect(null)] and [removeEffect(null)]
    leave the world as it is.  [removeEffect] of a non-null effect that is
    not in the list leaves the node as it is (the effect list included) and
    requests no redraw, but it does call the effect's uninstall hook and
    then the dirty-state hook, once each. *)
Theorem C6_null_and_absent_effects (w : World) :
  addEffect None w = Some (tt, w)
  ∧ removeEffect None w = Some (tt, w)
  ∧ ∀ e : TerrainEffect,
      e ∉ effects_ (this w) →
      ∃ w', removeEffect (Some e) w = Some (tt, w')
            ∧ this w' = this w
            ∧ trace (env w') = trace (env w) ++ [Effect_onUninstall e; DirtyState]
            ∧ outward_signals (env w') = outward_signals (env w).
Proof.
  split; [reflexivity|]. split; [reflexivity|].
  intros e He. eexists. split; [apply removeEffect_some|]. cbn.
  split; [|split; [reflexivity|]].
  - rewrite find_and_erase_absent by assumption. apply set_effects_same.
  - unfold outward_signals. cbn. rewrite count_signals_app. cbn. lia.
Qed.

Lemma C6_null_and_absent_effects_witness :
  (7%nat ∉ effects_ (this sample_world))
  ∧ ∃ w', removeEffect (Some 7%nat) sample_world = Some (tt, w')
          ∧ this w' = this sample_world
          ∧ trace (env w') = trace (env sample_world) ++ [Effect_onUninstall 7; DirtyState]
          ∧ outward_signals (env w') = outward_signals (env sample_world).
Proof.
  assert (Habs : 7%nat ∉ effects_ (this sample_world)) by (cbn; apply not_elem_of_nil).
  split; [exact Habs|].
  exact (proj2 (proj2 (C6_null_and_absent_effects sample_world)) 7%nat Habs).
Defined.

(** C6 as stated fails: on a node that never had effect 7 added,
    [removeEffect] still calls its uninstall hook and the dirty-state hook,
    so the call is not a no-op. *)
Lemma C6_removeEffect_absent_not_noop :
  (7%nat ∉ effects_ (this sample_world))
  ∧ removeEffect (Some 7%nat) sample_world ≠ Some (tt, sample_world)
  ∧ ∃ w', removeEffect (Some 7%nat) sample_world = Some (tt, w')
          ∧ trace (env sample_world) = []
          ∧ trace (env w') = [Effect_onUninstall 7; DirtyState].
Proof.
  split; [cbn; apply not_elem_of_nil|]. split.
  - rewrite removeEffect_some. intros Heq.
    apply (f_equal (λ r, match r with
                         | Some (_, w') => trace (env w')
                         | None => []
                         end)) in Heq.
    cbn in Heq. discriminate.
  - eexists. split; [apply removeEffect_some|]. split; reflexivity.
Qed.

Lemma find_and_erase_app_perm {A} `{EqDecision A} (v : list A) (x : A) :
  find_and_erase (v ++ [x]) x ≡ₚ v.
Proof.
  assert (Hin : x ∈ v ++ [x]) by (apply elem_of_app; right; apply list_elem_of_singleton; reflexivity).
  apply find_and_erase_present in Hin.
  apply (Permutation_cons_inv (a := x)).
  rewrite <- Hin. symmetry. apply Permutation_cons_append.
Qed.

(** C7, as the code has it.  For every non-null effect [e], [addEffect e]
    followed at once by [removeEffect e] calls the install hook once and
    then the uninstall hook once (each followed by the dirty-state hook),
    and leaves the effect list with the same entries as before; when [e]
    was not in the list beforehand, the list, and with it the whole node, is
    restored exactly. *)
Theorem C7_addEffect_removeEffect (e : TerrainEffect) (w : World) :
  ∃ w',
    (addEffect (Some e) ;; removeEffect (Some e)) w = Some (tt, w')
    ∧ trace (env w') =
        trace (env w) ++ [Effect_onInstall e; DirtyState; Effect_onUninstall e; DirtyState]
    ∧ effects_ (this w') ≡ₚ effects_ (this w)
    ∧ (e ∉ effects_ (this w) →
       effects_ (this w') = effects_ (this w) ∧ this w' = this w).
Proof.
  eexists. split.
  { unfold mbind, M_bind. rewrite addEffect_some, removeEffect_some. reflexivity. }
  cbn. split; [rewrite <- app_assoc; reflexivity|].
  split; [apply find_and_erase_app_perm|].
  intros He. rewrite find_and_erase_app_fresh by assumption.
  split; [reflexivity|]. destruct (this w); reflexivity.
Qed.

Lemma C7_addEffect_removeEffect_witness :
  (7%nat ∉ effects_ (this sample_world))
  ∧ ∃ w',
      (addEffect (Some 7%nat) ;; removeEffect (Some 7%nat)) sample_world = Some (tt, w')
      ∧ trace (env w') =
          trace (env sample_world)
          ++ [Effect_onInstall 7; DirtyState; Effect_onUninstall 7; DirtyState]
      ∧ effects_ (this w') = effects_ (this sample_world)
      ∧ this w' = this sample_world.
Proof.
  assert (Habs : 7%nat ∉ effects_ (this sample_world)) by (cbn; apply not_elem_of_nil).
  split; [exact Habs|].
  destruct (C7_addEffect_removeEffect 7%nat sample_world) as (w' & Hrun & Htr & _ & Hfresh).
  exists w'. destruct (Hfresh Habs) as [Hl Hn]. repeat split; assumption.
Defined.

(** C7 as stated fails: with the effect list [[1; 2]], adding effect 1
    again and removing it erases the first entry, and the list is [[2; 1]]
    afterwards. *)
Lemma C7_effect_list_not_restored :
  ∃ w', (addEffect (Some 1%nat) ;; removeEffect (Some 1%nat)) two_effects_world
        = Some (tt, w')
        ∧ effects_ (this two_effects_world) = [1%nat; 2%nat]
        ∧ effects_ (this w') = [2%nat; 1%nat]
        ∧ effects_ (this w') ≠ effects_ (this two_effects_world).
Proof.
  eexists. split.
  { unfold mbind, M_bind. rewrite addEffect_some, removeEffect_some. reflexivity. }
  cbn. repeat split. discriminate.
Qed.

(** ** Tile-patch callbacks *)

Section StdRemoveFacts.
Context {A : Type} `{EqDecision A}.
Variable moved_from : A → A.
Variable x : A.

(** [std::remove] never changes the size of the vector. *)
Lemma std_remove_loop_length (n : nat) : ∀ (v : list A) (first i : nat),
  length (fst (std_remove_loop moved_from x n v first i)) = length v.
Proof.
  induction n as [|n IH]; intros v first i; cbn; [reflexivity|].
  destruct (v !! i) as [y|]; [|reflexivity].
  destruct (decide (y = x)); [apply IH|].
  rewrite IH, !length_insert. reflexivity.
Qed.

Lemma std_remove_length (v : list A) :
  length (fst (std_remove moved_from x v)) = length v.
Proof.
  unfold std_remove.
  destruct (decide (std_find v x ≠ length v)); [apply std_remove_loop_length | reflexivity].
Qed.

(** When the only match is the last element, nothing is assigned at all. *)
Lemma std_remove_app_fresh (v : list A) :
  x ∉ v → fst (std_remove moved_from x (v ++ [x])) = v ++ [x].
Proof.
  intros Hx. unfold std_remove. rewrite std_find_app_fresh by assumption.
  rewrite length_app. cbn.
  destruct (decide (length v ≠ (length v + 1)%nat)); [|reflexivity].
  replace (length v + 1 - S (length v))%nat with 0%nat by lia. reflexivity.
Qed.
End StdRemoveFacts.

Lemma addTilePatchCallback_then_remove (H : Host) (cb : ptr TilePatchCallback) (w : World) :
  (addTilePatchCallback cb ;; removeTilePatchCallback H cb) w =
  Some (tt, {| self := self w;
               this := set_tilePatchCallbacks
                         (fst (std_remove (moved_from H) cb (_tilePatchCallbacks (this w) ++ [cb])))
                         (set_tilePatchCallbacks (_tilePatchCallbacks (this w) ++ [cb]) (this w));
               env := env w |}).
Proof. reflexivity. Qed.

(** A callback that was not registered before is still registered after it
    has been added and removed. *)
Lemma removeTilePatchCallback_keeps_fresh (H : Host) (cb : ptr TilePatchCallback) (w : World) :
  cb ∉ _tilePatchCallbacks (this w) →
  ∃ w', (addTilePatchCallback cb ;; removeTilePatchCallback H cb) w = Some (tt, w')
        ∧ _tilePatchCallbacks (this w') = _tilePatchCallbacks (this w) ++ [cb].
Proof.
  intros Hfresh. eexists. split; [apply addTilePatchCallback_then_remove|].
  cbn. apply std_remove_app_fresh. exact Hfresh.
Qed.

(** C9, where the code departs from it.  On a fresh node, adding tile-patch
    callback 1 and removing it leaves the registry holding callback 1; and
    from any registry, for any callback and whatever assignment does to its
    source, the registry after the two calls is one entry longer than
    before, hence never the registry the calls started from. *)
Theorem C9_removeTilePatchCallback_does_not_remove (H : Host) :
  (∃ w', (addTilePatchCallback (Some 1%nat) ;; removeTilePatchCallback H (Some 1%nat))
           sample_world = Some (tt, w')
         ∧ _tilePatchCallbacks (this sample_world) = []
         ∧ _tilePatchCallbacks (this w') = [Some 1%nat])
  ∧ ∀ (cb : ptr TilePatchCallback) (w : World),
      ∃ w', (addTilePatchCallback cb ;; removeTilePatchCallback H cb) w = Some (tt, w')
            ∧ length (_tilePatchCallbacks (this w'))
              = S (length (_tilePatchCallbacks (this w)))
            ∧ _tilePatchCallbacks (this w') ≠ _tilePatchCallbacks (this w).
Proof.
  split.
  - eexists. split; [apply addTilePatchCallback_then_remove|]. split; reflexivity.
  - intros cb w. eexists. split; [apply addTilePatchCallback_then_remove|].
    cbn. rewrite std_remove_length, length_app. cbn.
    split; [lia|]. intros Heq. apply (f_equal length) in Heq.
    rewrite std_remove_length, length_app in Heq. cbn in Heq. lia.
Qed.

(** ** Properties of the node that every method keeps *)

Section Keeps.
Variable P : TerrainEngineNode → Prop.

Lemma keeps_ret {A} (a : A) : keeps P (mret a).
Proof. intros w b w' Heq HP. injection Heq as <- <-. exact HP. Qed.

Lemma keeps_bind {A B} (m : M A) (k : A → M B) :
  keeps P m → (∀ a, keeps P (k a)) → keeps P (m ≫= k).
Proof.
  intros Hm Hk w b w' Heq HP. unfold mbind, M_bind in Heq.
  destruct (m w) as [[a w1]|] eqn:Hmw; [|discriminate].
  eapply Hk; [exact Heq|]. eapply Hm; [exact Hmw | exact HP].
Qed.

Lemma keeps_crash {A} : keeps P (crash (A := A)).
Proof. intros w a w' Heq. discriminate. Qed.

Lemma keeps_deref {A} (p : ptr A) : keeps P (deref p).
Proof. destruct p; [apply keeps_ret | apply keeps_crash]. Qed.

Lemma keeps_get_this : keeps P get_this.
Proof. intros w a w' Heq HP. injection Heq as <- <-. exact HP. Qed.

Lemma keeps_get_env : keeps P get_env.
Proof. intros w a w' Heq HP. injection Heq as <- <-. exact HP. Qed.

Lemma keeps_get_self : keeps P get_self.
Proof. intros w a w' Heq HP. injection Heq as <- <-. exact HP. Qed.

Lemma keeps_update_env (f : Env → Env) : keeps P (update_env f).
Proof. intros w a w' Heq HP. injection Heq as <- <-. exact HP. Qed.

Lemma keeps_update_this (f : TerrainEngineNode → TerrainEngineNode) :
  (∀ n, P n → P (f n)) → keeps P (update_this f).
Proof. intros Hf w a w' Heq HP. injection Heq as <- <-. apply Hf, HP. Qed.

Lemma keeps_emit (e : Event) : keeps P (emit e).
Proof. apply keeps_update_env. Qed.

Lemma keeps_for_each {A} (body : A → M unit) (v : list A) :
  (∀ x, keeps P (body x)) → keeps P (for_each body v).
Proof.
  intros Hbody. induction v as [|x v IH]; cbn.
  - apply keeps_ret.
  - apply keeps_bind; [apply Hbody | intros _; exact IH].
Qed.

Lemma keeps_new_object : keeps P new_object.
Proof.
  unfold new_object. apply keeps_bind; [apply keeps_get_env | intros E].
  apply keeps_bind; [apply keeps_update_env | intros _; apply keeps_ret].
Qed.

Lemma keeps_Map_read (p : MapPtr) : keeps P (Map_read p).
Proof.
  unfold Map_read. apply keeps_bind; [apply keeps_get_env | intros E; apply keeps_deref].
Qed.
End Keeps.

Create HintDb keeps.
#[export] Hint Resolve keeps_ret keeps_crash keeps_deref keeps_get_this keeps_get_env
  keeps_get_self keeps_update_env keeps_emit keeps_new_object keeps_Map_read : keeps.

(** Decompose a method along its binds, loops and case distinctions; what
    is left are the updates of the node. *)
Ltac keeps_step :=
  match goal with
  | |- keeps _ (_ ≫= _) => apply keeps_bind; [|intros ?]
  | |- keeps _ (for_each _ _) => apply keeps_for_each; intros ?
  | |- keeps _ (match ?x with _ => _ end) => destruct x
  | |- keeps _ _ => solve [auto with keeps]
  end.

Ltac keeps_auto := repeat keeps_step.

(** ** Requirement flags *)

(** Every field update the methods make leaves a set flag set. *)
Ltac keeps_flag_update :=
  apply keeps_update_this; intros ?; unfold flag_set;
  match goal with f : RequirementFlag |- _ => destruct f end; cbn; auto.

Lemma requestRedraw_keeps_flag (f : RequirementFlag) : keeps (flag_set f) requestRedraw.
Proof. unfold requestRedraw. keeps_auto; keeps_flag_update. Qed.

Lemma onMapInfoEstablished_keeps_flag (f : RequirementFlag) (mapInfo : MapInfo) :
  keeps (flag_set f) (onMapInfoEstablished mapInfo).
Proof. unfold onMapInfoEstablished. keeps_auto. Qed.

Lemma fire_callbacks_keeps_flag (H : Host) (f : RequirementFlag)
    (callbacks : list (ptr CreateTileModelCallback)) :
  ∀ model, keeps (flag_set f) (fire_callbacks H callbacks model).
Proof.
  induction callbacks as [|i rest IH]; intros model; cbn [fire_callbacks].
  - auto with keeps.
  - keeps_auto; apply IH.
Qed.

#[export] Hint Resolve requestRedraw_keeps_flag onMapInfoEstablished_keeps_flag
  fire_callbacks_keeps_flag : keeps.

Lemma exec_keeps_flag (H : Host) (f : RequirementFlag) (op : Op H) :
  keeps (flag_set f) (exec H op).
Proof.
  destruct op; cbn [exec];
    unfold addEffect, removeEffect, ImageLayerController_onColorFiltersChanged,
      requireNormalTextures, requireElevationTextures, requireParentTextures,
      dirtyTerrain, setMap, setVerticalScale,
      onMapModelChanged, createTileModel, addCreateTileModelCallback,
      removeCreateTileModelCallback, traverse, notifyOfTerrainTileNodeCreation,
      addTilePatchCallback, removeTilePatchCallback, setComputeRangeCallback,
      dirtyState, Map_addMapCallback, ImageLayer_addCallback, ImageLayer_removeCallback;
    keeps_auto; keeps_flag_update.
Qed.

Lemma exec_all_keeps_flag (H : Host) (f : RequirementFlag) (ops : list (Op H)) :
  keeps (flag_set f) (exec_all H ops).
Proof. apply keeps_for_each. intros op. apply exec_keeps_flag. Qed.

(** C5. Each of the three setters turns its flag on, whatever it was, and
    takes the dirty-terrain path: the dirty counter is incremented (from
    [UINT_MAX] it goes back to 0) and exactly one redraw request goes out
    when the counter was 0 just before (none otherwise).  From then on the
    flag reads true after every run of calls on the node. *)
Theorem C5_requirement_flags_one_way (H : Host) (f : RequirementFlag) (w : World) :
  ∃ w1,
    require f w = Some (tt, w1)
    ∧ reads f (this w1) = true
    ∧ _dirtyCount (this w1) = uint_wrap (_dirtyCount (this w) + 1)
    ∧ trace (env w1) =
        trace (env w)
        ++ (if decide (_dirtyCount (this w) = 0) then [ViewsRequestRedraw] else [])
    ∧ outward_signals (env w1) =
        (outward_signals (env w)
         + (if decide (_dirtyCount (this w) = 0%Z) then 1 else 0))%nat
    ∧ ∀ (ops : list (Op H)) (w2 : World),
        exec_all H ops w1 = Some (tt, w2) → reads f (this w2) = true.
Proof.
  assert (Hrun : ∃ w1, require f w = Some (tt, w1)
                       ∧ reads f (this w1) = true
                       ∧ _dirtyCount (this w1) = uint_wrap (_dirtyCount (this w) + 1)
                       ∧ trace (env w1) =
                           trace (env w) ++
                           (if decide (_dirtyCount (this w) = 0)
                            then [ViewsRequestRedraw] else [])).
  { destruct f; unfold require, requireNormalTextures, requireElevationTextures,
      requireParentTextures, dirtyTerrain, requestRedraw; run;
      destruct (decide (0 = _dirtyCount (this w)));
      destruct (decide (_dirtyCount (this w) = 0)); try congruence; run;
      eexists; (split; [reflexivity|]); cbn; rewrite ?app_nil_r; auto. }
  destruct Hrun as (w1 & Hrun & Hflag & Hcount & Htrace).
  exists w1. split; [exact Hrun|]. split; [exact Hflag|]. split; [exact Hcount|].
  split; [exact Htrace|]. split.
  - unfold outward_signals. rewrite Htrace, count_signals_app.
    destruct (decide (_dirtyCount (this w) = 0)); reflexivity.
  - intros ops w2 Hops. exact (exec_all_keeps_flag H f ops w1 tt w2 Hops Hflag).
Qed.

Lemma C5_requirement_flags_one_way_witness :
  ∃ w1 w2,
    require NormalTextures sample_world = Some (tt, w1)
    ∧ exec_all sample_host
        [call_traverse sample_host EVENT_VISITOR;
         call_setVerticalScale sample_host 7;
         call_removeEffect sample_host (Some 3%nat);
         call_requireParentTextures sample_host;
         call_requestRedraw sample_host] w1 = Some (tt, w2)
    ∧ reads NormalTextures (this w2) = true.
Proof.
  destruct (C5_requirement_flags_one_way sample_host NormalTextures sample_world)
    as (w1 & Hrun & _ & _ & _ & _ & Hops).
  exists w1.
  assert (Hw1 : Some (tt, w1) = require NormalTextures sample_world) by (symmetry; exact Hrun).
  vm_compute in Hw1. injection Hw1 as ->.
  match goal with
  | |- ∃ w2, _ ∧ exec_all ?H ?ops ?W = _ ∧ _ =>
      let r := eval vm_compute in (exec_all H ops W) in
      match r with
      | Some (tt, ?W2) =>
          exists W2;
          assert (Hexec : exec_all H ops W = Some (tt, W2)) by (vm_compute; reflexivity)
      end
  end.
  split; [exact Hrun|].
  split; [exact Hexec | exact (Hops _ _ Hexec)].
Defined.

(** ** Tile-model construction *)

Lemma emitted_nil (w : World) : emitted [] w = w.
Proof.
  destruct w as [s n E]. destruct E. unfold emitted, set_trace. cbn.
  rewrite app_nil_r. reflexivity.
Qed.

Lemma emitted_emitted (es1 es2 : list Event) (w : World) :
  emitted es2 (emitted es1 w) = emitted (es1 ++ es2) w.
Proof. unfold emitted, set_trace. cbn. rewrite app_assoc. reflexivity. Qed.

Lemma emit_emitted (e : Event) (w : World) : emit e w = Some (tt, emitted [e] w).
Proof. reflexivity. Qed.

(** The loop fires the entries front to back, once each, and threads the
    model through them. *)
Lemma fire_callbacks_all (H : Host) (cbs : list CreateTileModelCallback) :
  ∀ (model : TerrainTileModel H) (w : World),
    fire_callbacks H (Some <$> cbs) model w =
    Some (foldl (λ m cb, onCreateTileModel H cb (this w) m) model cbs,
          emitted (Callback_onCreateTileModel <$> cbs) w).
Proof.
  induction cbs as [|cb cbs IH]; intros model w.
  - cbn. rewrite emitted_nil. reflexivity.
  - cbn [fmap list_fmap fire_callbacks foldl]. run.
    change ({| self := self w; this := this w;
               env := set_trace (trace (env w) ++ [Callback_onCreateTileModel cb]) (env w) |})
      with (emitted [Callback_onCreateTileModel cb] w).
    rewrite IH, emitted_emitted. reflexivity.
Qed.

(** C1. On a node that has its factory, and whose registered callbacks are
    the objects [cbs] in vector order: when the factory returns null,
    [createTileModel] returns null and the world is untouched, so no
    callback fires; when it returns a model, the calls made are exactly one
    [onCreateTileModel] per registered callback, in vector order, and the
    model returned is the factory's after the callbacks have worked on it.
    Vector order is registration order: registering appends. *)
Theorem C1_createTileModel_fires_callbacks (H : Host)
    (frame : Map) (key : TileKey H) (filter : CreateTileModelFilter H)
    (progress : ptr (ProgressCallback H))
    (w : World) (factory : TerrainTileModelFactory)
    (cbs : list CreateTileModelCallback) :
  _tileModelFactory (this w) = Some factory →
  _createTileModelCallbacks (this w) = Some <$> cbs →
  match factory_createTileModel H factory frame key filter
                                (requirements_of (this w)) progress with
  | None =>
      createTileModel H frame key filter progress w = Some (None, w)
  | Some model =>
      createTileModel H frame key filter progress w =
      Some (Some (foldl (λ m cb, onCreateTileModel H cb (this w) m) model cbs),
            emitted (Callback_onCreateTileModel <$> cbs) w)
  end
  ∧ ∀ cb : CreateTileModelCallback,
      ∃ w', addCreateTileModelCallback (Some cb) w = Some (tt, w')
            ∧ _createTileModelCallbacks (this w') = Some <$> (cbs ++ [cb])
            ∧ _tileModelFactory (this w') = Some factory.
Proof.
  intros Hfactory Hcbs. split.
  - unfold createTileModel. run. rewrite Hfactory. cbn.
    destruct (factory_createTileModel H factory frame key filter
                (requirements_of (this w)) progress) as [model|]; [|reflexivity].
    rewrite Hcbs, fire_callbacks_all. reflexivity.
  - intros cb. eexists. split; [reflexivity|]. cbn.
    rewrite Hcbs, fmap_app. split; [reflexivity | exact Hfactory].
Qed.

Lemma C1_createTileModel_fires_callbacks_witness :
  createTileModel sample_host sample_map (1%nat, 0%nat, 0%nat) tt None sample_tiles_world
  = Some (Some [21%nat; 22%nat],
          emitted [Callback_onCreateTileModel 21; Callback_onCreateTileModel 22]
                  sample_tiles_world)
  ∧ createTileModel sample_host sample_map (5%nat, 0%nat, 0%nat) tt None sample_tiles_world
    = Some (None, sample_tiles_world).
Proof.
  assert (Hfactory : _tileModelFactory (this sample_tiles_world)
                     = Some {| factory_options := sample_options |})
    by (vm_compute; reflexivity).
  assert (Hcbs : _createTileModelCallbacks (this sample_tiles_world)
                 = Some <$> [21%nat; 22%nat])
    by (vm_compute; reflexivity).
  split.
  - exact (proj1 (C1_createTileModel_fires_callbacks sample_host sample_map
                    (1%nat, 0%nat, 0%nat) tt None sample_tiles_world _ _ Hfactory Hcbs)).
  - exact (proj1 (C1_createTileModel_fires_callbacks sample_host sample_map
                    (5%nat, 0%nat, 0%nat) tt None sample_tiles_world _ _ Hfactory Hcbs)).
Defined.

(** ** Map-model changes *)

(** The whole effect of [onMapModelChanged], for a node that has its terrain
    interface or a change without an elevation layer. *)
Lemma onMapModelChanged_run (change : MapModelChange) (w : World) :
  getElevationLayer change = None ∨ is_Some (_terrainInterface (this w)) →
  onMapModelChanged change w =
  Some (tt,
    {| self := self w;
       this := set_dirtyCount (uint_wrap (_dirtyCount (this w) + 1)) (this w);
       env :=
         set_trace
           (trace (env w)
            ++ match getElevationLayer change with
               | Some _ => [Terrain_notifyMapElevationChanged]
               | None => []
               end
            ++ (if decide (_dirtyCount (this w) = 0) then [ViewsRequestRedraw] else []))
           (set_layerCallbacks
              (match getAction change, getImageLayer change with
               | ADD_LAYER, Some layer =>
                   <[layer := callbacks_of (env w) layer ++ [_imageLayerController (this w)]]>
                     (layerCallbacks (env w))
               | REMOVE_LAYER, Some layer =>
                   <[layer := find_and_erase (callbacks_of (env w) layer)
                                             (_imageLayerController (this w))]>
                     (layerCallbacks (env w))
               | _, _ => layerCallbacks (env w)
               end)
              (env w)) |}).
Proof.
  intros Hterrain. destruct w as [s n E]. destruct E as [t ms lc no ol].
  unfold onMapModelChanged, requestRedraw, ImageLayer_addCallback,
    ImageLayer_removeCallback, callbacks_of.
  destruct change as [action image elevation]. cbn in Hterrain |- *.
  assert (Hdec : ∀ (A : Type) (a b : A),
            (if decide (0 = _dirtyCount n) then a else b)
            = (if decide (_dirtyCount n = 0) then a else b)).
  { intros A a b. destruct (decide (0 = _dirtyCount n)), (decide (_dirtyCount n = 0));
      congruence. }
  destruct elevation as [el|].
  - destruct Hterrain as [Hnone|[terrain Hterrain]]; [discriminate|].
    destruct action, image as [layer|]; run; rewrite Hterrain; run;
      rewrite Hdec; destruct (decide (_dirtyCount n = 0)); run;
      rewrite <- ?app_assoc, ?app_nil_r; reflexivity.
  - destruct action, image as [layer|]; run;
      rewrite Hdec; destruct (decide (_dirtyCount n = 0)); run;
      rewrite <- ?app_assoc, ?app_nil_r; reflexivity.
Qed.

(** C2. For every change (on a node that has its terrain interface, or for
    a change without an elevation layer): the last thing done is a call of
    [requestRedraw], whatever the change, so the dirty counter is
    incremented (from [UINT_MAX] it goes back to 0) and the views are asked
    to redraw if it was 0; before that, an
    ADD_LAYER change with an image layer subscribes the image-layer
    controller to that layer, a REMOVE_LAYER change with an image layer
    unsubscribes it, any other change leaves the subscriptions alone; and,
    independently of the action, a change with an elevation layer makes the
    terrain's elevation-changed notification, once. *)
Theorem C2_onMapModelChanged_branches (change : MapModelChange) (w : World) :
  getElevationLayer change = None ∨ is_Some (_terrainInterface (this w)) →
  ∃ w_mid w',
    onMapModelChanged change w = Some (tt, w')
    ∧ requestRedraw w_mid = Some (tt, w')
    ∧ this w_mid = this w
    ∧ _dirtyCount (this w') = uint_wrap (_dirtyCount (this w) + 1)
    ∧ layerCallbacks (env w') = layerCallbacks (env w_mid)
    ∧ layerCallbacks (env w_mid) =
        match getAction change, getImageLayer change with
        | ADD_LAYER, Some layer =>
            <[layer := callbacks_of (env w) layer ++ [_imageLayerController (this w)]]>
              (layerCallbacks (env w))
        | REMOVE_LAYER, Some layer =>
            <[layer := find_and_erase (callbacks_of (env w) layer)
                                      (_imageLayerController (this w))]>
              (layerCallbacks (env w))
        | _, _ => layerCallbacks (env w)
        end
    ∧ trace (env w_mid) =
        trace (env w)
        ++ match getElevationLayer change with
           | Some _ => [Terrain_notifyMapElevationChanged]
           | None => []
           end
    ∧ trace (env w') =
        trace (env w_mid)
        ++ (if decide (_dirtyCount (this w) = 0) then [ViewsRequestRedraw] else []).
Proof.
  intros Hterrain.
  pose (E_mid :=
    set_trace
      (trace (env w)
       ++ match getElevationLayer change with
          | Some _ => [Terrain_notifyMapElevationChanged]
          | None => []
          end)
      (set_layerCallbacks
         (match getAction change, getImageLayer change with
          | ADD_LAYER, Some layer =>
              <[layer := callbacks_of (env w) layer ++ [_imageLayerController (this w)]]>
                (layerCallbacks (env w))
          | REMOVE_LAYER, Some layer =>
              <[layer := find_and_erase (callbacks_of (env w) layer)
                                        (_imageLayerController (this w))]>
                (layerCallbacks (env w))
          | _, _ => layerCallbacks (env w)
          end)
         (env w))).
  exists {| self := self w; this := this w; env := E_mid |}. eexists.
  split; [apply onMapModelChanged_run; exact Hterrain|].
  split.
  { destruct (decide (_dirtyCount (this w) = 0)) as [Hz|Hnz].
    - rewrite requestRedraw_first by exact Hz. cbn. rewrite Hz, <- app_assoc. reflexivity.
    - rewrite requestRedraw_later by exact Hnz. cbn. rewrite app_nil_r.
      destruct (env w); reflexivity. }
  cbn. rewrite <- app_assoc. repeat split; reflexivity.
Qed.

Lemma C2_onMapModelChanged_branches_witness :
  ∃ w',
    onMapModelChanged
      {| getAction := ADD_LAYER; getImageLayer := None; getElevationLayer := Some 30%nat |}
      sample_ready_world = Some (tt, w')
    ∧ _dirtyCount (this w') = 1
    ∧ layerCallbacks (env w') = layerCallbacks (env sample_ready_world)
    ∧ trace (env w') =
        trace (env sample_ready_world)
        ++ [Terrain_notifyMapElevationChanged; ViewsRequestRedraw].
Proof.
  assert (Hterrain :
    getElevationLayer
      {| getAction := ADD_LAYER; getImageLayer := None; getElevationLayer := Some 30%nat |}
    = None ∨ is_Some (_terrainInterface (this sample_ready_world))).
  { right. exists {| terrain_profile := Some 5%nat; terrain_geocentric := true;
                     terrain_options := sample_options |}.
    vm_compute. reflexivity. }
  destruct (C2_onMapModelChanged_branches _ sample_ready_world Hterrain)
    as (w_mid & w' & Hrun & _ & _ & Hcount & Hsubs & Hmid & Htmid & Htrace).
  exists w'. split; [exact Hrun|].
  split; [rewrite Hcount; vm_compute; reflexivity|].
  split; [rewrite Hsubs, Hmid; reflexivity|].
  rewrite Htrace, Htmid. vm_compute. reflexivity.
Defined.

(** ** The map callback proxy *)

(** Whenever [onMapModelChanged] returns, it has incremented the dirty
    counter. *)
Lemma onMapModelChanged_counts (change : MapModelChange) (w w' : World) :
  onMapModelChanged change w = Some (tt, w') →
  _dirtyCount (this w') = uint_wrap (_dirtyCount (this w) + 1).
Proof.
  intros Hrun.
  destruct (getElevationLayer change) as [el|] eqn:Hel;
    [destruct (_terrainInterface (this w)) as [terrain|] eqn:Hterrain|].
  - rewrite onMapModelChanged_run in Hrun by (right; rewrite Hterrain; eauto).
    injection Hrun as <-. reflexivity.
  - exfalso. revert Hrun. unfold onMapModelChanged.
    destruct (getAction change), (getImageLayer change); run;
      rewrite Hel, Hterrain; run; discriminate.
  - rewrite onMapModelChanged_run in Hrun by (left; exact Hel).
    injection Hrun as <-. reflexivity.
Qed.

(** Whenever [onMapInfoEstablished] returns, it has made at least the call
    that populates the coordinate-system node. *)
Lemma onMapInfoEstablished_calls (mapInfo : MapInfo) (w w' : World) :
  onMapInfoEstablished mapInfo w = Some (tt, w') →
  (length (trace (env w)) < length (trace (env w')))%nat.
Proof.
  unfold onMapInfoEstablished.
  destruct (mapInfo_getProfile mapInfo) as [profile|]; run; [|discriminate].
  destruct (mapInfo_isGeocentric mapInfo); run; intros Hrun;
    injection Hrun as <-; cbn; rewrite !length_app; cbn; lia.
Qed.

(** C8. A notification through the proxy reaches the node's handler exactly
    when the proxy's weak reference resolves.  If the node is alive, the
    proxy's result is the handler's, run on that node; if the node has been
    destroyed, the proxy returns normally and the heap is exactly as it
    was.  The two cases cannot be confused: a handler that has run has left
    its mark (one more counted redraw request, or one more recorded call),
    so the heap comes back unchanged only when the node is gone. *)
Theorem C8_proxy_upcall_iff_alive (proxy : TerrainEngineNodeCallbackProxy)
    (change : MapModelChange) (mapInfo : MapInfo) (h : Heap) :
  (∀ safeNode, observer_lock h (_node proxy) = Some safeNode →
     Proxy_onMapModelChanged proxy change h
       = snd <$> invoke (_node proxy) (onMapModelChanged change) h
     ∧ Proxy_onMapInfoEstablished proxy mapInfo h
       = snd <$> invoke (_node proxy) (onMapInfoEstablished mapInfo) h)
  ∧ (observer_lock h (_node proxy) = None →
     Proxy_onMapModelChanged proxy change h = Some h
     ∧ Proxy_onMapInfoEstablished proxy mapInfo h = Some h)
  ∧ (Proxy_onMapModelChanged proxy change h = Some h →
     observer_lock h (_node proxy) = None)
  ∧ (Proxy_onMapInfoEstablished proxy mapInfo h = Some h →
     observer_lock h (_node proxy) = None).
Proof.
  unfold Proxy_onMapModelChanged, Proxy_onMapInfoEstablished, observer_lock, invoke.
  destruct (nodes h !! _node proxy) as [n|] eqn:Hlive.
  - split; [intros safeNode _; split; reflexivity|].
    split; [discriminate|]. split; intros Hback; exfalso.
    + destruct (onMapModelChanged change _) as [[[] w']|] eqn:Hrun; [|discriminate].
      apply onMapModelChanged_counts in Hrun. cbn in Hrun, Hback.
      injection Hback as Hback. apply (f_equal (λ x, nodes x !! _node proxy)) in Hback.
      cbn in Hback. rewrite lookup_insert_eq, Hlive in Hback.
      injection Hback as Hback. rewrite Hback in Hrun.
      exact (uint_wrap_succ_ne _ (eq_sym Hrun)).
    + destruct (onMapInfoEstablished mapInfo _) as [[[] w']|] eqn:Hrun; [|discriminate].
      apply onMapInfoEstablished_calls in Hrun. cbn in Hrun, Hback.
      injection Hback as Hback. apply (f_equal (λ x, length (trace (heap_env x)))) in Hback.
      cbn in Hback. lia.
  - split; [discriminate|]. split; [intros _; split; reflexivity|].
    split; reflexivity.
Qed.

Lemma C8_proxy_upcall_iff_alive_witness :
  (∃ safeNode h',
     observer_lock sample_heap 0%nat = Some safeNode
     ∧ Proxy_onMapModelChanged {| _node := 0%nat |}
         {| getAction := MOVE_LAYER; getImageLayer := Some 10%nat; getElevationLayer := None |}
         sample_heap = Some h'
     ∧ h' ≠ sample_heap)
  ∧ observer_lock sample_heap 9%nat = None
  ∧ Proxy_onMapModelChanged {| _node := 9%nat |}
      {| getAction := MOVE_LAYER; getImageLayer := Some 10%nat; getElevationLayer := None |}
      sample_heap = Some sample_heap.
Proof.
  pose (change := {| getAction := MOVE_LAYER; getImageLayer := Some 10%nat;
                     getElevationLayer := None |}).
  pose (mapInfo := MapInfo_of sample_map).
  assert (Hlive : observer_lock sample_heap 0%nat = Some TerrainEngineNode_new)
    by (vm_compute; reflexivity).
  assert (Hdead : observer_lock sample_heap 9%nat = None) by (vm_compute; reflexivity).
  split.
  - destruct (C8_proxy_upcall_iff_alive {| _node := 0%nat |} change mapInfo sample_heap)
      as (Hup & _ & Hback & _).
    destruct (Hup _ Hlive) as [Hrun _].
    destruct (Proxy_onMapModelChanged {| _node := 0%nat |} change sample_heap)
      as [h'|] eqn:Hres.
    + exists TerrainEngineNode_new, h'. split; [exact Hlive|]. split; [exact Hres|].
      intros ->. specialize (Hback eq_refl). cbn [_node] in Hback.
      rewrite Hlive in Hback. discriminate.
    + exfalso. vm_compute in Hrun. discriminate.
  - destruct (C8_proxy_upcall_iff_alive {| _node := 9%nat |} change mapInfo sample_heap)
      as (_ & Hdrop & _).
    split; [exact Hdead|]. exact (proj1 (Hdrop Hdead)).
Defined.

(** ** Image-layer subscriptions *)

Lemma find_and_erase_cons {A} `{EqDecision A} (y : A) (v : list A) (x : A) :
  find_and_erase (y :: v) x =
  if decide (y = x) then v else y :: find_and_erase v x.
Proof.
  unfold find_and_erase. cbn.
  destruct (decide (y = x)); cbn.
  - destruct (decide (0%nat ≠ S (length v))); [reflexivity | lia].
  - destruct (decide (S (std_find v x) ≠ S (length v))),
             (decide (std_find v x ≠ length v)); try reflexivity; lia.
Qed.

Lemma count_find_and_erase {A} `{EqDecision A} (dec : ∀ a b : A, {a = b} + {a ≠ b})
    (v : list A) (x y : A) :
  count_occ dec (find_and_erase v x) y =
  if decide (x = y) then pred (count_occ dec v y) else count_occ dec v y.
Proof.
  induction v as [|z v IH].
  - cbn. destruct (decide (x = y)); reflexivity.
  - rewrite find_and_erase_cons. destruct (decide (z = x)) as [->|Hzx].
    + destruct (decide (x = y)) as [->|Hxy].
      * rewrite count_occ_cons_eq by reflexivity. reflexivity.
      * rewrite count_occ_cons_neq by assumption. reflexivity.
    + destruct (decide (z = y)) as [->|Hzy].
      * rewrite !count_occ_cons_eq by reflexivity. rewrite IH.
        destruct (decide (x = y)); [congruence | reflexivity].
      * rewrite !count_occ_cons_neq by assumption. exact IH.
Qed.

Lemma occurrences_insert lc (l l' : ImageLayer) (v : list (ptr TerrainLayerCallback)) cb :
  occurrences (<[l := v]> lc) l' cb =
  if decide (l = l') then count_occ (decide_rel (=)) v cb else occurrences lc l' cb.
Proof.
  unfold occurrences. destruct (decide (l = l')) as [->|Hne].
  - rewrite lookup_insert_eq. reflexivity.
  - rewrite lookup_insert_ne by assumption. reflexivity.
Qed.

(** Subscribing to every layer of a list adds, per layer, as many
    subscriptions as the list has entries for it. *)
Lemma occurrences_subscribe_all cb (ls : list ImageLayer) : ∀ lc l,
  occurrences (subscribe_all cb ls lc) l cb =
  (occurrences lc l cb + count_occ Nat.eq_dec ls l)%nat.
Proof.
  induction ls as [|l0 ls IH]; intros lc l; cbn.
  - lia.
  - unfold subscribe_all in IH. rewrite IH, occurrences_insert.
    destruct (decide (l0 = l)) as [Heq|Hne], (Nat.eq_dec l0 l) as [Heq'|Hne'];
      try congruence; try lia.
    subst l0. rewrite count_occ_app. cbn. destruct (decide_rel eq cb cb); [|congruence].
    unfold occurrences. lia.
Qed.

(** Unsubscribing from every layer of a list withdraws, per layer, as many
    subscriptions as the list has entries for it, as far as there are any. *)
Lemma occurrences_unsubscribe_all cb (ls : list ImageLayer) : ∀ lc l,
  occurrences (unsubscribe_all cb ls lc) l cb =
  (occurrences lc l cb - count_occ Nat.eq_dec ls l)%nat.
Proof.
  induction ls as [|l0 ls IH]; intros lc l; cbn.
  - lia.
  - unfold unsubscribe_all in IH. rewrite IH, occurrences_insert.
    destruct (decide (l0 = l)) as [Heq|Hne], (Nat.eq_dec l0 l) as [Heq'|Hne'];
      try congruence; try lia.
    subst l0. rewrite count_find_and_erase. destruct (decide (cb = cb)); [|congruence].
    unfold occurrences. lia.
Qed.

Lemma for_each_addCallback cb (ls : list ImageLayer) : ∀ w,
  for_each (λ l, ImageLayer_addCallback l cb) ls w =
  Some (tt, {| self := self w; this := this w;
               env := set_layerCallbacks (subscribe_all cb ls (layerCallbacks (env w)))
                                         (env w) |}).
Proof.
  induction ls as [|l ls IH]; intros w.
  - destruct w as [s n E]. destruct E. reflexivity.
  - cbn [for_each]. unfold mbind, M_bind at 1. cbn. rewrite IH. reflexivity.
Qed.

Lemma for_each_removeCallback cb (ls : list ImageLayer) : ∀ w,
  for_each (λ l, ImageLayer_removeCallback l cb) ls w =
  Some (tt, {| self := self w; this := this w;
               env := set_layerCallbacks (unsubscribe_all cb ls (layerCallbacks (env w)))
                                         (env w) |}).
Proof.
  induction ls as [|l ls IH]; intros w.
  - destruct w as [s n E]. destruct E. reflexivity.
  - cbn [for_each]. unfold mbind, M_bind at 1. cbn. rewrite IH. reflexivity.
Qed.

(** What [setMap] leaves behind on a map that has a profile. *)
Lemma setMap_run (mp : MapPtr) (options : TerrainOptions) (w : World)
    (m0 : Map) (profile : Profile) :
  maps (env w) !! mp = Some m0 →
  getProfile m0 = Some profile →
  ∃ w', setMap (Some mp) options w = Some (tt, w')
        ∧ self w' = self w
        ∧ _map (this w') = Some mp
        ∧ _imageLayerController (this w') = Some (next_object (env w))
        ∧ is_Some (_terrainInterface (this w'))
        ∧ is_Some (_tileModelFactory (this w'))
        ∧ _initStage (this w') = INIT_POSTINIT_COMPLETE
        ∧ maps (env w') =
            <[mp := set_mapCallbacks (_mapCallbacks m0 ++ [{| _node := self w |}]) m0]>
              (maps (env w))
        ∧ layerCallbacks (env w') =
            subscribe_all (Some (next_object (env w))) (map_imageLayers m0)
                          (layerCallbacks (env w))
        ∧ next_object (env w') = S (next_object (env w)).
Proof.
  intros Hmap Hprofile. destruct w as [s n E]. cbn in Hmap.
  unfold setMap, Map_addMapCallback, Map_read, new_object, onMapInfoEstablished.
  destruct (isGeocentric m0) eqn:Hgeo, (binNumber options) as [bin|];
    repeat (run; rewrite ?Hmap, ?lookup_insert_eq, ?Hprofile, ?Hgeo);
    rewrite for_each_addCallback; run;
    (eexists; split; [reflexivity|]); cbn;
    repeat split; eauto.
Qed.

(** A change that carries no elevation layer, delivered by the one proxy of
    a live node. *)
Lemma Map_notify_one (p : NodePtr) (change : MapModelChange) (h : Heap)
    (n : TerrainEngineNode) :
  nodes h !! p = Some n →
  getElevationLayer change = None →
  ∃ w', onMapModelChanged change {| self := p; this := n; env := heap_env h |}
        = Some (tt, w')
        ∧ Map_notify [{| _node := p |}] change h
          = Some {| nodes := <[p := this w']> (nodes h); heap_env := env w' |}.
Proof.
  intros Hlive Hel. eexists. split.
  - apply onMapModelChanged_run. left. exact Hel.
  - cbn [Map_notify]. unfold Proxy_onMapModelChanged, observer_lock, invoke.
    cbn [_node]. rewrite Hlive.
    rewrite onMapModelChanged_run by (left; exact Hel). reflexivity.
Qed.

Lemma tracks_add (p : NodePtr) (mp : MapPtr) (c : TerrainLayerCallback)
    (l : ImageLayer) (h : Heap) :
  tracks p mp c h →
  ∃ h', Map_addImageLayer mp l h = Some h'
        ∧ tracks p mp c h'
        ∧ layers_of h' mp = layers_of h mp ++ [l].
Proof.
  intros (n & m & Hlive & Hctrl & Hmapptr & Hmap & Hcbs & Hcount).
  unfold Map_addImageLayer. rewrite Hmap, Hcbs.
  set (change := {| getAction := ADD_LAYER; getImageLayer := Some l;
                    getElevationLayer := None |}).
  set (h1 := heap_set_map mp (set_map_imageLayers (map_imageLayers m ++ [l]) m) h).
  destruct (Map_notify_one p change h1 n Hlive eq_refl) as (w' & Hrun & Hnotify).
  rewrite Hnotify. eexists. split; [reflexivity|].
  rewrite onMapModelChanged_run in Hrun by (left; reflexivity).
  injection Hrun as <-. cbn [this env].
  split.
  - exists (set_dirtyCount (uint_wrap (_dirtyCount n + 1)) n),
           (set_map_imageLayers (map_imageLayers m ++ [l]) m).
    cbn. rewrite !lookup_insert_eq. repeat split; try assumption.
    intros l'. unfold subscriptions in *. cbn. rewrite occurrences_insert, Hctrl.
    rewrite !count_occ_app. unfold callbacks_of. cbn. specialize (Hcount l').
    unfold occurrences in Hcount |- *.
    destruct (decide_rel eq (Some c) (Some c)); [|congruence].
    destruct (decide (l = l')) as [Heq|Hne], (Nat.eq_dec l l') as [Heq'|Hne'];
      try congruence; lia.
  - unfold layers_of. cbn. rewrite lookup_insert_eq, Hmap. reflexivity.
Qed.

Lemma tracks_remove (p : NodePtr) (mp : MapPtr) (c : TerrainLayerCallback)
    (l : ImageLayer) (h : Heap) :
  tracks p mp c h →
  ∃ h', Map_removeImageLayer mp l h = Some h'
        ∧ tracks p mp c h'
        ∧ layers_of h' mp = find_and_erase (layers_of h mp) l.
Proof.
  intros Htracks.
  pose proof Htracks as (n & m & Hlive & Hctrl & Hmapptr & Hmap & Hcbs & Hcount).
  unfold Map_removeImageLayer. rewrite Hmap, Hcbs.
  destruct (decide (l ∈ map_imageLayers m)) as [Hin|Hout].
  - set (change := {| getAction := REMOVE_LAYER; getImageLayer := Some l;
                      getElevationLayer := None |}).
    set (h1 := heap_set_map mp (set_map_imageLayers (find_and_erase (map_imageLayers m) l) m) h).
    destruct (Map_notify_one p change h1 n Hlive eq_refl) as (w' & Hrun & Hnotify).
    rewrite Hnotify. eexists. split; [reflexivity|].
    rewrite onMapModelChanged_run in Hrun by (left; reflexivity).
    injection Hrun as <-. cbn [this env].
    split.
    + exists (set_dirtyCount (uint_wrap (_dirtyCount n + 1)) n),
             (set_map_imageLayers (find_and_erase (map_imageLayers m) l) m).
      cbn. rewrite !lookup_insert_eq. repeat split; try assumption.
      intros l'. unfold subscriptions in *. cbn. rewrite occurrences_insert, Hctrl.
      rewrite (count_find_and_erase Nat.eq_dec (map_imageLayers m) l l').
      specialize (Hcount l').
      destruct (decide (l = l')) as [Heq|Hne]; [subst l'|exact Hcount].
      unfold callbacks_of. rewrite count_find_and_erase.
      destruct (decide (Some c = Some c)); [|congruence].
      unfold occurrences in Hcount. cbn in Hcount |- *. rewrite Hcount. reflexivity.
    + unfold layers_of. cbn. rewrite lookup_insert_eq, Hmap. reflexivity.
  - exists h. split; [reflexivity|]. split; [exact Htracks|].
    unfold layers_of. rewrite Hmap. symmetry. apply find_and_erase_absent. exact Hout.
Qed.

Lemma tracks_edits (p : NodePtr) (mp : MapPtr) (c : TerrainLayerCallback)
    (es : list MapEdit) : ∀ h,
  tracks p mp c h →
  ∃ h', apply_edits mp es h = Some h'
        ∧ tracks p mp c h'
        ∧ layers_of h' mp = layers_after es (layers_of h mp).
Proof.
  induction es as [|e es IH]; intros h Htracks.
  - exists h. repeat split; [exact Htracks].
  - assert (Hstep : ∃ h1, apply_edit mp e h = Some h1 ∧ tracks p mp c h1
                          ∧ layers_of h1 mp = edit_layers e (layers_of h mp)).
    { destruct e as [l|l]; [apply tracks_add | apply tracks_remove]; exact Htracks. }
    destruct Hstep as (h1 & Hrun1 & Htracks1 & Hlayers1).
    destruct (IH h1 Htracks1) as (h' & Hrun & Htracks' & Hlayers').
    exists h'. cbn [apply_edits]. rewrite Hrun1. split; [exact Hrun|].
    split; [exact Htracks'|]. rewrite Hlayers', Hlayers1. reflexivity.
Qed.

(** [setMap] on a map nobody watches yet puts the node in charge of it. *)
Lemma setMap_tracks (p : NodePtr) (mp : MapPtr) (options : TerrainOptions)
    (h0 : Heap) (n0 : TerrainEngineNode) (m0 : Map) (profile : Profile) :
  nodes h0 !! p = Some n0 →
  maps (heap_env h0) !! mp = Some m0 →
  getProfile m0 = Some profile →
  _mapCallbacks m0 = [] →
  (∀ l, subscriptions (heap_env h0) l (Some (next_object (heap_env h0))) = 0%nat) →
  ∃ h1, invoke p (setMap (Some mp) options) h0 = Some (tt, h1)
        ∧ tracks p mp (next_object (heap_env h0)) h1
        ∧ layers_of h1 mp = map_imageLayers m0.
Proof.
  intros Hlive Hmap Hprofile Hcbs Hfresh.
  destruct (setMap_run mp options {| self := p; this := n0; env := heap_env h0 |}
              m0 profile Hmap Hprofile)
    as (w' & Hrun & Hself & Hmapptr & Hctrl & _ & _ & _ & Hmaps & Hsubs & _).
  unfold invoke. rewrite Hlive, Hrun. eexists. split; [reflexivity|].
  cbn in Hself, Hmaps, Hsubs, Hctrl. split.
  - exists (this w'), (set_mapCallbacks (_mapCallbacks m0 ++ [{| _node := p |}]) m0).
    cbn. rewrite lookup_insert_eq, Hmaps, lookup_insert_eq, Hcbs.
    repeat split; try assumption.
    intros l. unfold subscriptions in *. cbn. rewrite Hsubs, occurrences_subscribe_all.
    rewrite Hfresh. reflexivity.
  - unfold layers_of. cbn. rewrite Hmaps, lookup_insert_eq. reflexivity.
Qed.

(** Destroying the node withdraws every subscription of its controller. *)
Lemma destroy_unsubscribes (p : NodePtr) (mp : MapPtr) (c : TerrainLayerCallback)
    (h : Heap) :
  tracks p mp c h →
  ∃ h', destroy p h = Some h'
        ∧ nodes h' !! p = None
        ∧ ∀ l, subscriptions (heap_env h') l (Some c) = 0%nat.
Proof.
  intros (n & m & Hlive & Hctrl & Hmapptr & Hmap & _ & Hcount).
  unfold destroy, invoke. rewrite Hlive.
  unfold TerrainEngineNode_destructor, Map_read. run. rewrite Hmapptr. run.
  rewrite Hmap. run. rewrite for_each_removeCallback. cbn.
  eexists. split; [reflexivity|]. cbn. split; [apply lookup_delete_eq|].
  intros l. unfold subscriptions in *. cbn.
  rewrite Hctrl, occurrences_unsubscribe_all, Hcount. lia.
Qed.

Lemma count_occ_NoDup (L : list ImageLayer) (l : ImageLayer) :
  NoDup L →
  count_occ Nat.eq_dec L l = if decide (l ∈ L) then 1%nat else 0%nat.
Proof.
  intros Hnd. destruct (decide (l ∈ L)) as [Hin|Hout].
  - apply list_elem_of_In in Hin.
    pose proof (proj1 (count_occ_In Nat.eq_dec L l) Hin) as Hpos.
    apply NoDup_ListNoDup in Hnd.
    pose proof (proj1 (NoDup_count_occ Nat.eq_dec L) Hnd l) as Hle. lia.
  - apply count_occ_not_In. rewrite <- list_elem_of_In. exact Hout.
Qed.

(** *** A map with other watchers *)

Lemma shifted_0 (action : ActionType) (x : nat) : shifted action 0 x = x.
Proof. destruct action; cbn; lia. Qed.

Lemma shifted_S (action : ActionType) (k x : nat) :
  shifted action (S k) x = shifted action k (shifted action 1 x).
Proof. destruct action; cbn; lia. Qed.

(** One proxy is handed a change that carries an image layer.  The handler
    of the node at [p] moves the subscriptions of its controller on that
    layer; the handler of another node, or a proxy whose node is gone,
    leaves them alone. *)
Lemma Proxy_image_change (p : NodePtr) (mp : MapPtr) (c : TerrainLayerCallback)
    (proxy : TerrainEngineNodeCallbackProxy) (action : ActionType) (l0 : ImageLayer)
    (h : Heap) :
  owns p mp c h →
  ∃ h', Proxy_onMapModelChanged proxy (image_change action l0) h = Some h'
        ∧ owns p mp c h'
        ∧ maps (heap_env h') = maps (heap_env h)
        ∧ ∀ l, subscriptions (heap_env h') l (Some c) =
               if decide (l0 = l ∧ _node proxy = p)
               then shifted action 1 (subscriptions (heap_env h) l (Some c))
               else subscriptions (heap_env h) l (Some c).
Proof.
  intros (n & Hlive & Hctrl & Hmapptr & Hothers).
  unfold Proxy_onMapModelChanged, observer_lock, invoke.
  destruct (nodes h !! _node proxy) as [nq|] eqn:Hq.
  - rewrite onMapModelChanged_run by (left; reflexivity).
    unfold image_change.
    cbn [fmap option_fmap option_map snd this env self
         getElevationLayer getAction getImageLayer app].
    eexists. split; [reflexivity|]. unfold owns. cbn [nodes heap_env].
    assert (Hcq : _imageLayerController nq = Some c ↔ _node proxy = p).
    { split.
      - intros Hc. destruct (decide (_node proxy = p)) as [|Hne]; [assumption|].
        exfalso. exact (Hothers _ _ Hne Hq Hc).
      - intros Heq. rewrite Heq, Hlive in Hq. injection Hq as <-. exact Hctrl. }
    split; [|split].
    + destruct (decide (_node proxy = p)) as [Heq|Hne].
      * rewrite Heq in *. rewrite Hlive in Hq. injection Hq as <-.
        eexists. split; [apply lookup_insert_eq|]. split; [exact Hctrl|].
        split; [exact Hmapptr|].
        intros q n' Hqp Hq'. rewrite lookup_insert_ne in Hq' by congruence. eauto.
      * exists n. split; [rewrite lookup_insert_ne by exact Hne; exact Hlive|].
        split; [exact Hctrl|]. split; [exact Hmapptr|].
        intros q n' Hqp Hq'. destruct (decide (q = _node proxy)) as [->|Hqq].
        -- rewrite lookup_insert_eq in Hq'. injection Hq' as <-. cbn.
           intros Hc. apply Hcq in Hc. congruence.
        -- rewrite lookup_insert_ne in Hq' by congruence. eauto.
    + destruct action; reflexivity.
    + intros l. unfold subscriptions, image_change.
      destruct action; cbn; rewrite ?occurrences_insert;
        destruct (decide (l0 = l)) as [Hl|Hl];
        destruct (decide (l0 = l ∧ _node proxy = p)) as [[Hl' Hp]|Hno];
        try reflexivity; try tauto; unfold occurrences, callbacks_of; cbn.
      * apply Hcq in Hp. rewrite count_occ_app, Hp, Hl. cbn.
        destruct (decide_rel eq (Some c) (Some c)); [reflexivity | congruence].
      * rewrite count_occ_app, Hl. cbn.
        destruct (decide_rel eq (_imageLayerController nq) (Some c)) as [Hc|Hc];
          [apply Hcq in Hc; tauto | lia].
      * apply Hcq in Hp. rewrite count_find_and_erase, Hp, Hl.
        destruct (decide (Some c = Some c)); [lia | congruence].
      * rewrite count_find_and_erase, Hl.
        destruct (decide (_imageLayerController nq = Some c)) as [Hc|Hc];
          [apply Hcq in Hc; tauto | reflexivity].
  - exists h. split; [reflexivity|].
    split; [exists n; repeat split; assumption|]. split; [reflexivity|].
    intros l. destruct (decide (l0 = l ∧ _node proxy = p)) as [[_ Hp]|_]; [|reflexivity].
    rewrite Hp in Hq. congruence.
Qed.

(** All the proxies of a map are handed the change, in turn: the
    subscriptions of the controller move once per proxy of its node. *)
Lemma Map_notify_image_change (p : NodePtr) (mp : MapPtr) (c : TerrainLayerCallback)
    (action : ActionType) (l0 : ImageLayer)
    (callbacks : list TerrainEngineNodeCallbackProxy) : ∀ h,
  owns p mp c h →
  ∃ h', Map_notify callbacks (image_change action l0) h = Some h'
        ∧ owns p mp c h'
        ∧ maps (heap_env h') = maps (heap_env h)
        ∧ ∀ l, subscriptions (heap_env h') l (Some c) =
               if decide (l0 = l)
               then shifted action (count_occ Nat.eq_dec (_node <$> callbacks) p)
                            (subscriptions (heap_env h) l (Some c))
               else subscriptions (heap_env h) l (Some c).
Proof.
  induction callbacks as [|proxy rest IH]; intros h Howns.
  - exists h. split; [reflexivity|]. split; [exact Howns|]. split; [reflexivity|].
    intros l. cbn. rewrite shifted_0. destruct (decide (l0 = l)); reflexivity.
  - destruct (Proxy_image_change p mp c proxy action l0 h Howns)
      as (h1 & Hrun1 & Howns1 & Hmaps1 & Hsubs1).
    destruct (IH h1 Howns1) as (h' & Hrun & Howns' & Hmaps & Hsubs).
    exists h'. cbn [Map_notify]. rewrite Hrun1. split; [exact Hrun|].
    split; [exact Howns'|]. split; [congruence|].
    intros l. rewrite Hsubs, Hsubs1. cbn [fmap list_fmap count_occ].
    destruct (decide (l0 = l)) as [Hl|Hl].
    + destruct (Nat.eq_dec (_node proxy) p) as [Hp|Hp].
      * destruct (decide (l0 = l ∧ _node proxy = p)); [|tauto].
        symmetry. apply shifted_S.
      * destruct (decide (l0 = l ∧ _node proxy = p)); [tauto | reflexivity].
    + destruct (decide (l0 = l ∧ _node proxy = p)); [tauto | reflexivity].
Qed.

Lemma owns_heap_set_map (p : NodePtr) (mp mp' : MapPtr) (c : TerrainLayerCallback)
    (m : Map) (h : Heap) :
  owns p mp c h → owns p mp c (heap_set_map mp' m h).
Proof. intros Howns. exact Howns. Qed.

Lemma follows_add (p : NodePtr) (mp : MapPtr) (c : TerrainLayerCallback)
    (l : ImageLayer) (h : Heap) :
  follows p mp c h →
  ∃ h', Map_addImageLayer mp l h = Some h'
        ∧ follows p mp c h'
        ∧ layers_of h' mp = layers_of h mp ++ [l].
Proof.
  intros (Howns & m & Hmap & Hone & Hcount).
  unfold Map_addImageLayer. rewrite Hmap.
  set (m' := set_map_imageLayers (map_imageLayers m ++ [l]) m).
  destruct (Map_notify_image_change p mp c ADD_LAYER l (_mapCallbacks m)
              (heap_set_map mp m' h) (owns_heap_set_map p mp mp c m' h Howns))
    as (h' & Hrun & Howns' & Hmaps & Hsubs).
  exists h'. split; [exact Hrun|].
  assert (Hmap' : maps (heap_env h') !! mp = Some m')
    by (rewrite Hmaps; cbn; apply lookup_insert_eq).
  split.
  - split; [exact Howns'|]. exists m'. split; [exact Hmap'|]. split; [exact Hone|].
    intros l'. rewrite Hsubs. fold (watchers m). rewrite Hone.
    change (subscriptions (heap_env (heap_set_map mp m' h)) l' (Some c))
      with (subscriptions (heap_env h) l' (Some c)).
    rewrite Hcount. cbn. rewrite count_occ_app. cbn.
    destruct (decide (l = l')), (Nat.eq_dec l l'); try congruence; lia.
  - unfold layers_of. rewrite Hmap', Hmap. reflexivity.
Qed.

Lemma follows_remove (p : NodePtr) (mp : MapPtr) (c : TerrainLayerCallback)
    (l : ImageLayer) (h : Heap) :
  follows p mp c h →
  ∃ h', Map_removeImageLayer mp l h = Some h'
        ∧ follows p mp c h'
        ∧ layers_of h' mp = find_and_erase (layers_of h mp) l.
Proof.
  intros Hfollows. pose proof Hfollows as (Howns & m & Hmap & Hone & Hcount).
  unfold Map_removeImageLayer. rewrite Hmap.
  destruct (decide (l ∈ map_imageLayers m)) as [Hin|Hout].
  - set (m' := set_map_imageLayers (find_and_erase (map_imageLayers m) l) m).
    destruct (Map_notify_image_change p mp c REMOVE_LAYER l (_mapCallbacks m)
                (heap_set_map mp m' h) (owns_heap_set_map p mp mp c m' h Howns))
      as (h' & Hrun & Howns' & Hmaps & Hsubs).
    exists h'. split; [exact Hrun|].
    assert (Hmap' : maps (heap_env h') !! mp = Some m')
      by (rewrite Hmaps; cbn; apply lookup_insert_eq).
    split.
    + split; [exact Howns'|]. exists m'. split; [exact Hmap'|]. split; [exact Hone|].
      intros l'. rewrite Hsubs. fold (watchers m). rewrite Hone.
      change (subscriptions (heap_env (heap_set_map mp m' h)) l' (Some c))
        with (subscriptions (heap_env h) l' (Some c)).
      rewrite Hcount. cbn.
      rewrite (count_find_and_erase Nat.eq_dec (map_imageLayers m) l l').
      destruct (decide (l = l')); lia.
    + unfold layers_of. rewrite Hmap', Hmap. reflexivity.
  - exists h. split; [reflexivity|]. split; [exact Hfollows|].
    unfold layers_of. rewrite Hmap. symmetry. apply find_and_erase_absent. exact Hout.
Qed.

Lemma follows_edits (p : NodePtr) (mp : MapPtr) (c : TerrainLayerCallback)
    (es : list MapEdit) : ∀ h,
  follows p mp c h →
  ∃ h', apply_edits mp es h = Some h'
        ∧ follows p mp c h'
        ∧ layers_of h' mp = layers_after es (layers_of h mp).
Proof.
  induction es as [|e es IH]; intros h Hfollows.
  - exists h. split; [reflexivity|]. split; [exact Hfollows | reflexivity].
  - assert (Hstep : ∃ h1, apply_edit mp e h = Some h1 ∧ follows p mp c h1
                          ∧ layers_of h1 mp = edit_layers e (layers_of h mp)).
    { destruct e as [l|l]; [apply follows_add | apply follows_remove]; exact Hfollows. }
    destruct Hstep as (h1 & Hrun1 & Hfollows1 & Hlayers1).
    destruct (IH h1 Hfollows1) as (h' & Hrun & Hfollows' & Hlayers').
    exists h'. cbn [apply_edits]. rewrite Hrun1. split; [exact Hrun|].
    split; [exact Hfollows'|]. rewrite Hlayers', Hlayers1. reflexivity.
Qed.

(** [setMap] on a map that the node does not watch yet, with a controller
    at an address that is not in use. *)
Lemma setMap_follows (p : NodePtr) (mp : MapPtr) (options : TerrainOptions)
    (h0 : Heap) (n0 : TerrainEngineNode) (m0 : Map) (profile : Profile) :
  nodes h0 !! p = Some n0 →
  maps (heap_env h0) !! mp = Some m0 →
  getProfile m0 = Some profile →
  p ∉ watchers m0 →
  (∀ l, subscriptions (heap_env h0) l (Some (next_object (heap_env h0))) = 0%nat) →
  (∀ q n', q ≠ p → nodes h0 !! q = Some n' →
           _imageLayerController n' ≠ Some (next_object (heap_env h0))) →
  ∃ h1, invoke p (setMap (Some mp) options) h0 = Some (tt, h1)
        ∧ follows p mp (next_object (heap_env h0)) h1
        ∧ layers_of h1 mp = map_imageLayers m0.
Proof.
  intros Hlive Hmap Hprofile Hnew Hfresh Hothers.
  destruct (setMap_run mp options {| self := p; this := n0; env := heap_env h0 |}
              m0 profile Hmap Hprofile)
    as (w' & Hrun & Hself & Hmapptr & Hctrl & _ & _ & _ & Hmaps & Hsubs & _).
  unfold invoke. rewrite Hlive, Hrun. eexists. split; [reflexivity|].
  cbn in Hself, Hmaps, Hsubs, Hctrl.
  assert (Hmap1 : maps (env w') !! mp
                  = Some (set_mapCallbacks (_mapCallbacks m0 ++ [{| _node := p |}]) m0))
    by (rewrite Hmaps; apply lookup_insert_eq).
  split; [split|].
  - exists (this w'). cbn. split; [apply lookup_insert_eq|]. split; [exact Hctrl|].
    split; [exact Hmapptr|].
    intros q n' Hqp Hq. rewrite lookup_insert_ne in Hq by congruence. eauto.
  - eexists. cbn. split; [exact Hmap1|]. split.
    + unfold watchers in *. cbn [_mapCallbacks set_mapCallbacks].
      rewrite fmap_app, count_occ_app.
      change (_node <$> [{| _node := p |}]) with [p].
      rewrite count_occ_cons_eq by reflexivity. cbn [count_occ].
      rewrite (proj1 (count_occ_not_In Nat.eq_dec _ p)); [reflexivity|].
      rewrite <- list_elem_of_In. exact Hnew.
    + intros l. unfold subscriptions in *. cbn. rewrite Hsubs, occurrences_subscribe_all.
      rewrite Hfresh. reflexivity.
  - unfold layers_of. cbn. rewrite Hmap1. reflexivity.
Qed.

(** Destroying the node withdraws every subscription of its controller,
    whoever else watches the map. *)
Lemma destroy_withdraws (p : NodePtr) (mp : MapPtr) (c : TerrainLayerCallback)
    (h : Heap) :
  follows p mp c h →
  ∃ h', destroy p h = Some h'
        ∧ nodes h' !! p = None
        ∧ ∀ l, subscriptions (heap_env h') l (Some c) = 0%nat.
Proof.
  intros ((n & Hlive & Hctrl & Hmapptr & _) & m & Hmap & _ & Hcount).
  unfold destroy, invoke. rewrite Hlive.
  unfold TerrainEngineNode_destructor, Map_read. run. rewrite Hmapptr. run.
  rewrite Hmap. run. rewrite for_each_removeCallback. cbn.
  eexists. split; [reflexivity|]. cbn. split; [apply lookup_delete_eq|].
  intros l. unfold subscriptions in *. cbn.
  rewrite Hctrl, occurrences_unsubscribe_all, Hcount. lia.
Qed.

(** C3 as stated fails where a layer joins a map that lists it already:
    after [setMap] on the sample map, whose layers are 10 and 11, layer 10
    joins once more; the ADD_LAYER change subscribes the controller (object
    100) again, and layer 10, which is in the map, holds two subscriptions
    of the controller, not exactly one. *)
Lemma C3_layer_listed_twice_two_subscriptions :
  ∃ h1 h2 n2,
    invoke 0%nat (setMap (Some 1%nat) sample_options) sample_heap = Some (tt, h1)
    ∧ apply_edits 1%nat [AddImageLayer 10] h1 = Some h2
    ∧ nodes h2 !! 0%nat = Some n2
    ∧ _imageLayerController n2 = Some 100%nat
    ∧ layers_of h2 1%nat = [10%nat; 11%nat; 10%nat]
    ∧ callbacks_of (heap_env h2) 10%nat = [Some 100%nat; Some 100%nat]
    ∧ subscriptions (heap_env h2) 10%nat (Some 100%nat) = 2%nat
    ∧ subscriptions (heap_env h2) 10%nat (Some 100%nat) ≠ 1%nat.
Proof.
  let r := eval vm_compute in
    (invoke 0%nat (setMap (Some 1%nat) sample_options) sample_heap) in
  match r with
  | Some (tt, ?H1) =>
      exists H1;
      let r2 := eval vm_compute in (apply_edits 1%nat [AddImageLayer 10] H1) in
      match r2 with
      | Some ?H2 =>
          exists H2;
          let r3 := eval vm_compute in (nodes H2 !! 0%nat) in
          match r3 with Some ?N2 => exists N2 end
      end
  end.
  repeat split; try (vm_compute; reflexivity).
  vm_compute. discriminate.
Qed.

(** C3, as the code has it.  Take a live node that does not watch the map
    yet, a map with a profile, whoever else watches it, and a controller
    address that is not in use.  After [setMap], and after any run of image layers
    joining and leaving the map (each announced to every watcher as an
    ADD_LAYER or REMOVE_LAYER change), the image layers that hold a
    subscription of the node's controller are exactly the image layers in
    the map; the controller has as many subscriptions on a layer as the map
    has entries for it, so exactly one on every layer of a map that lists
    each layer once.  Destroying the node withdraws them all. *)
Theorem C3_subscriptions_follow_map (p : NodePtr) (mp : MapPtr)
    (options : TerrainOptions) (h0 : Heap) (n0 : TerrainEngineNode) (m0 : Map)
    (profile : Profile) (es : list MapEdit) :
  nodes h0 !! p = Some n0 →
  maps (heap_env h0) !! mp = Some m0 →
  getProfile m0 = Some profile →
  p ∉ watchers m0 →
  (∀ l, subscriptions (heap_env h0) l (Some (next_object (heap_env h0))) = 0%nat) →
  (∀ q n', q ≠ p → nodes h0 !! q = Some n' →
           _imageLayerController n' ≠ Some (next_object (heap_env h0))) →
  ∃ h1 h2 h3 n2 c,
    invoke p (setMap (Some mp) options) h0 = Some (tt, h1)
    ∧ apply_edits mp es h1 = Some h2
    ∧ nodes h2 !! p = Some n2
    ∧ _imageLayerController n2 = Some c
    ∧ layers_of h2 mp = layers_after es (map_imageLayers m0)
    ∧ (∀ l, Some c ∈ callbacks_of (heap_env h2) l ↔ l ∈ layers_of h2 mp)
    ∧ (∀ l, subscriptions (heap_env h2) l (Some c)
            = count_occ Nat.eq_dec (layers_of h2 mp) l)
    ∧ (NoDup (layers_of h2 mp) →
       ∀ l, l ∈ layers_of h2 mp → subscriptions (heap_env h2) l (Some c) = 1%nat)
    ∧ destroy p h2 = Some h3
    ∧ (∀ l, subscriptions (heap_env h3) l (Some c) = 0%nat).
Proof.
  intros Hlive Hmap Hprofile Hnew Hfresh Hothers.
  destruct (setMap_follows p mp options h0 n0 m0 profile
              Hlive Hmap Hprofile Hnew Hfresh Hothers)
    as (h1 & Hrun1 & Hfollows1 & Hlayers1).
  destruct (follows_edits p mp _ es h1 Hfollows1) as (h2 & Hrun2 & Hfollows2 & Hlayers2).
  destruct (destroy_withdraws p mp _ h2 Hfollows2) as (h3 & Hrun3 & _ & Hnone).
  rewrite Hlayers1 in Hlayers2.
  pose proof Hfollows2 as ((n2 & Hlive2 & Hctrl2 & _) & m2 & Hmap2 & _ & Hcount2).
  assert (Hcount : ∀ l, subscriptions (heap_env h2) l (Some (next_object (heap_env h0)))
                        = count_occ Nat.eq_dec (layers_of h2 mp) l).
  { intros l. rewrite Hcount2. unfold layers_of. rewrite Hmap2. reflexivity. }
  exists h1, h2, h3, n2, (next_object (heap_env h0)).
  split; [exact Hrun1|]. split; [exact Hrun2|]. split; [exact Hlive2|].
  split; [exact Hctrl2|]. split; [exact Hlayers2|]. split; [|split; [exact Hcount|split]].
  - intros l. split; intros Hin.
    + apply list_elem_of_In, (count_occ_In Nat.eq_dec). rewrite <- Hcount.
      apply (count_occ_In (decide_rel (=))), list_elem_of_In. exact Hin.
    + apply list_elem_of_In, (count_occ_In (decide_rel (=))).
      unfold subscriptions, occurrences, callbacks_of in *. rewrite Hcount.
      apply (count_occ_In Nat.eq_dec), list_elem_of_In. exact Hin.
  - intros Hnd l Hin. rewrite Hcount, count_occ_NoDup by exact Hnd.
    destruct (decide (l ∈ layers_of h2 mp)); tauto.
  - split; [exact Hrun3 | exact Hnone].
Qed.

Lemma C3_subscriptions_follow_map_witness :
  ∃ h1 h2 h3 n2 c,
    invoke 0%nat (setMap (Some 1%nat) sample_options) sample_shared_heap = Some (tt, h1)
    ∧ apply_edits 1%nat
        [AddImageLayer 12; RemoveImageLayer 10; RemoveImageLayer 99; AddImageLayer 12]
        h1 = Some h2
    ∧ nodes h2 !! 0%nat = Some n2
    ∧ _imageLayerController n2 = Some c
    ∧ layers_of h2 1%nat = [11%nat; 12%nat; 12%nat]
    ∧ (∀ l, Some c ∈ callbacks_of (heap_env h2) l ↔ l ∈ layers_of h2 1%nat)
    ∧ (∀ l, subscriptions (heap_env h2) l (Some c)
            = count_occ Nat.eq_dec (layers_of h2 1%nat) l)
    ∧ (NoDup (layers_of h2 1%nat) →
       ∀ l, l ∈ layers_of h2 1%nat → subscriptions (heap_env h2) l (Some c) = 1%nat)
    ∧ destroy 0%nat h2 = Some h3
    ∧ (∀ l, subscriptions (heap_env h3) l (Some c) = 0%nat).
Proof.
  apply (C3_subscriptions_follow_map 0%nat 1%nat sample_options sample_shared_heap
           TerrainEngineNode_new
           (set_mapCallbacks [{| _node := 7%nat |}; {| _node := 9%nat |}] sample_map)
           5%nat
           [AddImageLayer 12; RemoveImageLayer 10; RemoveImageLayer 99; AddImageLayer 12]).
  - vm_compute. reflexivity.
  - vm_compute. reflexivity.
  - reflexivity.
  - apply (bool_decide_unpack _). vm_compute. exact I.
  - intros l. unfold subscriptions, occurrences. cbn.
    destruct (decide (l = 10%nat)) as [->|H10].
    + rewrite lookup_insert_eq. reflexivity.
    + rewrite lookup_insert_ne by congruence.
      destruct (decide (l = 11%nat)) as [->|H11].
      * rewrite lookup_singleton_eq. reflexivity.
      * rewrite lookup_singleton_ne by congruence. reflexivity.
  - intros q n' Hq. cbn.
    destruct (decide (q = 7%nat)) as [->|H7].
    + rewrite lookup_insert_eq. intros Hn. injection Hn as <-. discriminate.
    + rewrite lookup_insert_ne by congruence.
      rewrite lookup_singleton_ne by congruence. discriminate.
Defined.


(** * Further properties *)

(** ** Tile-model callback registry *)

Lemma erase_first_equal_find_and_erase (v : list (ptr CreateTileModelCallback)) cb :
  erase_first_equal v cb = find_and_erase v cb.
Proof.
  induction v as [|c v IH]; [reflexivity|].
  rewrite find_and_erase_cons. cbn. destruct (decide (c = cb)); [reflexivity|].
  rewrite IH. reflexivity.
Qed.

Lemma find_and_erase_split {A} `{EqDecision A} (pre post : list A) (x : A) :
  x ∉ pre → find_and_erase (pre ++ x :: post) x = pre ++ post.
Proof.
  induction pre as [|y pre IH]; intros Hx; cbn [app]; rewrite find_and_erase_cons.
  - destruct (decide (x = x)); congruence.
  - apply not_elem_of_cons in Hx as [Hne Hx].
    destruct (decide (y = x)); [congruence|]. rewrite IH by assumption. reflexivity.
Qed.

Lemma set_createTileModelCallbacks_same (n : TerrainEngineNode) :
  set_createTileModelCallbacks (_createTileModelCallbacks n) n = n.
Proof. destruct n; reflexivity. Qed.

Lemma world_eta (w : World) : {| self := self w; this := this w; env := env w |} = w.
Proof. destruct w; reflexivity. Qed.

(** X1. A tile-model callback (null or not) that is not in the registry:
    removing it changes nothing at all, and registering it and then removing
    it gives back the world the two calls started from. *)
Theorem X1_tileModelCallback_add_remove (cb : ptr CreateTileModelCallback) (w : World) :
  cb ∉ _createTileModelCallbacks (this w) →
  removeCreateTileModelCallback cb w = Some (tt, w)
  ∧ (addCreateTileModelCallback cb ;; removeCreateTileModelCallback cb) w = Some (tt, w).
Proof.
  intros Hfresh. split.
  - unfold removeCreateTileModelCallback. run.
    rewrite erase_first_equal_find_and_erase, find_and_erase_absent by assumption.
    rewrite set_createTileModelCallbacks_same, world_eta. reflexivity.
  - unfold addCreateTileModelCallback, removeCreateTileModelCallback. run.
    rewrite erase_first_equal_find_and_erase, find_and_erase_app_fresh by assumption.
    destruct w as [s n E]. destruct n. reflexivity.
Qed.

Lemma X1_tileModelCallback_add_remove_witness :
  removeCreateTileModelCallback (Some 23%nat) sample_tiles_world
  = Some (tt, sample_tiles_world)
  ∧ (addCreateTileModelCallback (Some 23%nat) ;;
     removeCreateTileModelCallback (Some 23%nat)) sample_tiles_world
    = Some (tt, sample_tiles_world).
Proof.
  apply (X1_tileModelCallback_add_remove (Some 23%nat) sample_tiles_world).
  apply (bool_decide_unpack _). vm_compute. exact I.
Defined.

(** X2. Removing a registered tile-model callback takes out its earliest
    registration and nothing else, and the next tile request shows it: with
    the registry [pre ++ cb :: post] and [cb] not in [pre], after
    [removeCreateTileModelCallback cb] a successful [createTileModel] calls
    exactly the callbacks of [pre ++ post], in that order. *)
Theorem X2_removed_callback_no_longer_fires (H : Host)
    (frame : Map) (key : TileKey H) (filter : CreateTileModelFilter H)
    (progress : ptr (ProgressCallback H))
    (w : World) (factory : TerrainTileModelFactory)
    (pre post : list CreateTileModelCallback) (cb : CreateTileModelCallback)
    (model : TerrainTileModel H) :
  _tileModelFactory (this w) = Some factory →
  _createTileModelCallbacks (this w) = Some <$> (pre ++ cb :: post) →
  cb ∉ pre →
  factory_createTileModel H factory frame key filter (requirements_of (this w)) progress
    = Some model →
  let w1 := with_tileModelCallbacks (Some <$> (pre ++ post)) w in
  removeCreateTileModelCallback (Some cb) w = Some (tt, w1)
  ∧ createTileModel H frame key filter progress w1 =
    Some (Some (foldl (λ m c, onCreateTileModel H c (this w1) m) model (pre ++ post)),
          emitted (Callback_onCreateTileModel <$> (pre ++ post)) w1).
Proof.
  intros Hfactory Hcbs Hpre Hmodel w1. split.
  - unfold removeCreateTileModelCallback. run. subst w1. unfold with_tileModelCallbacks.
    rewrite erase_first_equal_find_and_erase, Hcbs.
    rewrite fmap_app, fmap_cons, find_and_erase_split, <- fmap_app; [reflexivity|].
    intros Hin. apply list_elem_of_fmap in Hin as (c & Heq & Hin). congruence.
  - unfold createTileModel. run. rewrite Hfactory. cbn.
    change (requirements_of (set_createTileModelCallbacks (Some <$> pre ++ post) (this w)))
      with (requirements_of (this w)).
    rewrite Hmodel. rewrite fire_callbacks_all. reflexivity.
Qed.

Lemma X2_removed_callback_no_longer_fires_witness :
  ∃ w1 w2,
    removeCreateTileModelCallback (Some 21%nat) sample_tiles_world = Some (tt, w1)
    ∧ createTileModel sample_host sample_map (1%nat, 0%nat, 0%nat) tt None w1
      = Some (Some [22%nat], w2)
    ∧ trace (env w2) = trace (env sample_tiles_world) ++ [Callback_onCreateTileModel 22].
Proof.
  assert (Hfactory : _tileModelFactory (this sample_tiles_world)
                     = Some {| factory_options := sample_options |})
    by (vm_compute; reflexivity).
  assert (Hcbs : _createTileModelCallbacks (this sample_tiles_world)
                 = Some <$> ([] ++ 21%nat :: [22%nat]))
    by (vm_compute; reflexivity).
  destruct (X2_removed_callback_no_longer_fires sample_host sample_map
              (1%nat, 0%nat, 0%nat) tt None sample_tiles_world _ [] [22%nat] 21%nat []
              Hfactory Hcbs (not_elem_of_nil _) eq_refl) as [Hremove Hcreate].
  eexists. eexists. split; [exact Hremove|]. split; [exact Hcreate|].
  vm_compute. reflexivity.
Defined.

(** ** Removing an installed effect *)

(** X3. [removeEffect] of an effect that is installed takes its earliest
    entry out of the list and keeps every other entry in place: with the
    list [pre ++ e :: post] and [e] not in [pre], the list afterwards is
    [pre ++ post].  The uninstall hook and then the dirty-state hook are
    called, the views are not asked to redraw, and the dirty counter
    stays. *)
Theorem X3_removeEffect_installed (e : TerrainEffect) (pre post : list TerrainEffect)
    (w : World) :
  effects_ (this w) = pre ++ e :: post →
  e ∉ pre →
  ∃ w', removeEffect (Some e) w = Some (tt, w')
        ∧ effects_ (this w') = pre ++ post
        ∧ trace (env w') = trace (env w) ++ [Effect_onUninstall e; DirtyState]
        ∧ _dirtyCount (this w') = _dirtyCount (this w)
        ∧ outward_signals (env w') = outward_signals (env w).
Proof.
  intros Hlist Hpre. eexists. split; [apply removeEffect_some|]. cbn.
  rewrite Hlist, find_and_erase_split by assumption.
  repeat split. unfold outward_signals. cbn. rewrite count_signals_app. cbn. lia.
Qed.

Lemma X3_removeEffect_installed_witness :
  ∃ w', removeEffect (Some 2%nat) two_effects_world = Some (tt, w')
        ∧ effects_ (this w') = [1%nat] ++ []
        ∧ trace (env w') = trace (env two_effects_world) ++ [Effect_onUninstall 2; DirtyState]
        ∧ _dirtyCount (this w') = _dirtyCount (this two_effects_world)
        ∧ outward_signals (env w') = outward_signals (env two_effects_world).
Proof.
  apply (X3_removeEffect_installed 2%nat [1%nat] [] two_effects_world).
  - reflexivity.
  - apply (bool_decide_unpack _). vm_compute. exact I.
Defined.

(** ** Who writes what *)

Ltac keeps_same_update :=
  apply keeps_update_this;
  let n := fresh "n" in let Hn := fresh "Hn" in
  intros n Hn; cbn in Hn |- *; exact Hn.

Lemma fire_callbacks_keeps (H : Host) (P : TerrainEngineNode → Prop)
    (callbacks : list (ptr CreateTileModelCallback)) :
  ∀ model, keeps P (fire_callbacks H callbacks model).
Proof.
  induction callbacks as [|i rest IH]; intros model; cbn [fire_callbacks].
  - auto with keeps.
  - keeps_auto; apply IH.
Qed.

Lemma requestRedraw_keeps_same_on (fld : Field) (n0 : TerrainEngineNode) :
  fld ≠ DirtyCount → keeps (same_on fld n0) requestRedraw.
Proof.
  intros Hfld. unfold requestRedraw. keeps_auto.
  destruct fld; try congruence; keeps_same_update.
Qed.

(** A call keeps every part of the node that it does not assign to. *)
Lemma exec_keeps_same_on (H : Host) (fld : Field) (n0 : TerrainEngineNode) (op : Op H) :
  fld ∉ written_by H op → keeps (same_on fld n0) (exec H op).
Proof.
  intros Hw.
  destruct op;
    repeat match goal with
           | x : option _ |- _ => destruct x
           | x : VisitorType |- _ => destruct x
           end;
    destruct fld; cbn in Hw;
    try (exfalso; apply Hw; repeat constructor; fail);
    clear Hw; cbn [exec];
    unfold addEffect, removeEffect, ImageLayerController_onColorFiltersChanged,
      requireNormalTextures, requireElevationTextures, requireParentTextures,
      dirtyTerrain, setMap, setVerticalScale, onMapInfoEstablished,
      onMapModelChanged, createTileModel, addCreateTileModelCallback,
      removeCreateTileModelCallback, traverse, notifyOfTerrainTileNodeCreation,
      addTilePatchCallback, removeTilePatchCallback, setComputeRangeCallback,
      dirtyState, Map_addMapCallback, ImageLayer_addCallback, ImageLayer_removeCallback;
    keeps_auto;
    try keeps_same_update;
    try apply fire_callbacks_keeps;
    try (apply requestRedraw_keeps_same_on; discriminate).
Qed.

(** X4. Each part of the node's state has its own writers.  In a run of
    calls, a part that none of the calls assigns to is the same at the end
    as at the start: the effect list changes only under [addEffect] and
    [removeEffect] of a non-null effect, the tile-model callback registry
    only under its add and remove, the tile-patch registry only under its
    add and remove, the vertical scale only under [setVerticalScale], the
    compute-range callback only under its setter, the three requirement
    flags only under their setters, the dirty counter only under the
    redraw requests, the map-change handler and the event traversal, the
    objects made by [setMap] only under [setMap] of a non-null map; the
    tile-node callbacks and the remaining flags are never assigned.  In
    particular [createTileModel] and the tile-node notification write
    nothing. *)
Theorem X4_state_has_its_writers (H : Host) (fld : Field) (ops : list (Op H))
    (w w' : World) :
  (∀ op, op ∈ ops → fld ∉ written_by H op) →
  exec_all H ops w = Some (tt, w') →
  same_on fld (this w) (this w').
Proof.
  intros Hops Hrun.
  assert (Hkeeps : keeps (same_on fld (this w)) (exec_all H ops)).
  { clear Hrun. unfold exec_all. induction ops as [|op ops IH]; cbn [for_each].
    - apply keeps_ret.
    - apply keeps_bind.
      + apply exec_keeps_same_on, Hops. apply elem_of_cons. left. reflexivity.
      + intros _. apply IH. intros op' Hin. apply Hops, elem_of_cons. right. exact Hin. }
  apply (Hkeeps w tt w' Hrun). destruct fld; cbn; repeat split; reflexivity.
Qed.

Lemma X4_state_has_its_writers_witness :
  ∃ w', exec_all sample_host
          [call_requireNormalTextures sample_host;
           call_createTileModel sample_host sample_map (1%nat, 0%nat, 0%nat) tt None;
           call_traverse sample_host EVENT_VISITOR;
           call_removeCreateTileModelCallback sample_host (Some 21%nat);
           call_setVerticalScale sample_host 3]
          sample_tiles_world = Some (tt, w')
        ∧ same_on Setup (this sample_tiles_world) (this w')
        ∧ same_on EffectList (this sample_tiles_world) (this w').
Proof.
  pose (ops := [call_requireNormalTextures sample_host;
                call_createTileModel sample_host sample_map (1%nat, 0%nat, 0%nat) tt None;
                call_traverse sample_host EVENT_VISITOR;
                call_removeCreateTileModelCallback sample_host (Some 21%nat);
                call_setVerticalScale sample_host 3]).
  assert (Hnot : ∀ fld, fld = Setup ∨ fld = EffectList →
                        ∀ op, op ∈ ops → fld ∉ written_by sample_host op).
  { intros fld Hfld op Hin. subst ops.
    repeat (apply elem_of_cons in Hin as [->|Hin]);
      [..|apply elem_of_nil in Hin as []];
      destruct Hfld as [->| ->]; cbn;
      intros Hbad; repeat (apply elem_of_cons in Hbad as [Hbad|Hbad]; [discriminate|]);
      apply elem_of_nil in Hbad as []. }
  let r := eval vm_compute in (exec_all sample_host ops sample_tiles_world) in
  match r with
  | Some (tt, ?W) =>
      exists W;
      assert (Hrun : exec_all sample_host ops sample_tiles_world = Some (tt, W))
        by (vm_compute; reflexivity)
  end.
  split; [exact Hrun|]. split.
  - exact (X4_state_has_its_writers sample_host Setup ops _ _
             (Hnot Setup (or_introl eq_refl)) Hrun).
  - exact (X4_state_has_its_writers sample_host EffectList ops _ _
             (Hnot EffectList (or_intror eq_refl)) Hrun).
Defined.

(** ** Setting the node up *)

Lemma setMap_needs_map (mp : MapPtr) (options : TerrainOptions) (w : World) :
  maps (env w) !! mp = None → setMap (Some mp) options w = None.
Proof.
  intros Hmap. unfold setMap, Map_read. run. rewrite Hmap. reflexivity.
Qed.

Lemma setMap_needs_profile (mp : MapPtr) (options : TerrainOptions) (w : World) (m : Map) :
  maps (env w) !! mp = Some m → getProfile m = None →
  setMap (Some mp) options w = None.
Proof.
  intros Hmap Hprofile. unfold setMap, Map_read. run. rewrite Hmap. run.
  rewrite Hprofile. reflexivity.
Qed.

(** X5. [setMap] with a null map does nothing.  With a non-null map it
    returns exactly when the map is alive and has a profile: the profile is
    dereferenced before the test that guards the first
    [onMapInfoEstablished], so a map without a profile is an error, not a
    case that is skipped. *)
Theorem X5_setMap_succeeds_iff (options : TerrainOptions) (w : World) :
  setMap None options w = Some (tt, w)
  ∧ ∀ mp, is_Some (setMap (Some mp) options w)
          ↔ ∃ m profile, maps (env w) !! mp = Some m ∧ getProfile m = Some profile.
Proof.
  split; [reflexivity|]. intros mp. split.
  - intros Hrun. destruct (maps (env w) !! mp) as [m|] eqn:Hmap.
    + destruct (getProfile m) as [profile|] eqn:Hprofile; [eauto|].
      rewrite (setMap_needs_profile mp options w m Hmap Hprofile) in Hrun.
      destruct Hrun; discriminate.
    + rewrite (setMap_needs_map mp options w Hmap) in Hrun. destruct Hrun; discriminate.
  - intros (m & profile & Hmap & Hprofile).
    destruct (setMap_run mp options w m profile Hmap Hprofile) as (w' & Hrun & _).
    rewrite Hrun. eauto.
Qed.

Lemma X5_setMap_succeeds_iff_witness :
  is_Some (setMap (Some 1%nat) sample_options sample_world)
  ∧ ¬ is_Some (setMap (Some 2%nat) sample_options sample_world).
Proof.
  destruct (X5_setMap_succeeds_iff sample_options sample_world) as [_ Hiff]. split.
  - apply Hiff. exists sample_map, 5%nat. split; [vm_compute|]; reflexivity.
  - intros Hrun. apply Hiff in Hrun as (m & profile & Hmap & _).
    vm_compute in Hmap. discriminate.
Defined.

Lemma setMap_makes_ready (mp : MapPtr) (options : TerrainOptions) (w w1 : World) :
  setMap (Some mp) options w = Some (tt, w1) →
  ready (this w1)
  ∧ _textureResourceTracker (this w1)
    = Some {| compositor_offLimits := offLimitsTextureImageUnits (env w) |}
  ∧ _tileModelFactory (this w1) = Some {| factory_options := options |}.
Proof.
  intros Hrun.
  destruct (maps (env w) !! mp) as [m0|] eqn:Hmap;
    [|rewrite setMap_needs_map in Hrun by exact Hmap; discriminate].
  destruct (getProfile m0) as [profile|] eqn:Hprofile;
    [|rewrite (setMap_needs_profile mp options w m0) in Hrun by assumption; discriminate].
  revert Hrun. destruct w as [s n E]. cbn in Hmap.
  unfold setMap, Map_addMapCallback, Map_read, new_object, onMapInfoEstablished.
  destruct (isGeocentric m0) eqn:Hgeo, (binNumber options) as [bin|];
    repeat (run; rewrite ?Hmap, ?lookup_insert_eq, ?Hprofile, ?Hgeo);
    rewrite for_each_addCallback; run;
    intros Hrun; injection Hrun as <-; unfold ready; cbn;
    repeat split; eauto.
Qed.

Ltac keeps_ready_update :=
  apply keeps_update_this;
  let n := fresh "n" in
  intros n (? & ? & ? & ? & ? & ?); unfold ready; cbn; repeat split; eauto.

Lemma exec_keeps_ready (H : Host) (op : Op H) : keeps ready (exec H op).
Proof.
  destruct op; cbn [exec];
    unfold addEffect, removeEffect, ImageLayerController_onColorFiltersChanged,
      requireNormalTextures, requireElevationTextures, requireParentTextures,
      dirtyTerrain, setMap, setVerticalScale, onMapInfoEstablished,
      onMapModelChanged, createTileModel, addCreateTileModelCallback,
      removeCreateTileModelCallback, traverse, notifyOfTerrainTileNodeCreation,
      addTilePatchCallback, removeTilePatchCallback, setComputeRangeCallback,
      dirtyState, Map_addMapCallback, ImageLayer_addCallback, ImageLayer_removeCallback,
      requestRedraw;
    keeps_auto;
    try apply fire_callbacks_keeps;
    try keeps_ready_update.
Qed.

Lemma exec_all_keeps_ready (H : Host) (ops : list (Op H)) : keeps ready (exec_all H ops).
Proof. apply keeps_for_each. intros op. apply exec_keeps_ready. Qed.

Lemma Forall_is_Some_fmap {A} (l : list (option A)) :
  Forall is_Some l → ∃ xs, l = Some <$> xs.
Proof.
  induction 1 as [|o l [x ->] _ [xs ->]].
  - exists []. reflexivity.
  - exists (x :: xs). reflexivity.
Qed.

(** X6. Once [setMap] has returned, the node is ready and stays ready.  It
    holds its map, terrain interface, texture-unit tracker (seeded with the
    registry's off-limits units), tile-model factory (made from the given
    options) and layer controller, and no later call on the node takes any
    of them away.  So after any run of calls every traversal returns, every
    map change is handled, and a tile request returns whenever the
    registered tile-model callbacks are non-null. *)
Theorem X6_setMap_makes_ready (H : Host) (mp : MapPtr) (options : TerrainOptions)
    (w w1 : World) :
  setMap (Some mp) options w = Some (tt, w1) →
  ready (this w1)
  ∧ getResources w1
    = Some (Some {| compositor_offLimits := offLimitsTextureImageUnits (env w) |}, w1)
  ∧ _tileModelFactory (this w1) = Some {| factory_options := options |}
  ∧ ∀ (ops : list (Op H)) (w2 : World),
      exec_all H ops w1 = Some (tt, w2) →
      ready (this w2)
      ∧ (∀ vt, is_Some (traverse vt w2))
      ∧ (∀ change, is_Some (onMapModelChanged change w2))
      ∧ (∀ frame key filter progress,
           Forall is_Some (_createTileModelCallbacks (this w2)) →
           is_Some (createTileModel H frame key filter progress w2)).
Proof.
  intros Hrun. destruct (setMap_makes_ready mp options w w1 Hrun) as (Hready & Htracker & Hfactory).
  split; [exact Hready|]. split; [unfold getResources; run; rewrite Htracker; reflexivity|].
  split; [exact Hfactory|].
  intros ops w2 Hops.
  pose proof (exec_all_keeps_ready H ops w1 tt w2 Hops Hready) as Hready2.
  split; [exact Hready2|].
  destruct Hready2 as (_ & [terrain Hterrain] & _ & [factory Hfac] & _ & _).
  split; [|split].
  - intros vt. unfold traverse. destruct vt; run; rewrite ?Hterrain; run; eauto.
  - intros change. rewrite onMapModelChanged_run by (right; rewrite Hterrain; eauto). eauto.
  - intros frame key filter progress Hcbs.
    apply Forall_is_Some_fmap in Hcbs as [cbs Hcbs].
    unfold createTileModel. run. rewrite Hfac. cbn.
    destruct (factory_createTileModel H factory frame key filter
                (requirements_of (this w2)) progress) as [model|]; [|eauto].
    rewrite Hcbs, fire_callbacks_all. eauto.
Qed.

Lemma X6_setMap_makes_ready_witness :
  ∃ w1 w2,
    setMap (Some 1%nat) sample_options sample_world = Some (tt, w1)
    ∧ exec_all sample_host
        [call_requireElevationTextures sample_host;
         call_addCreateTileModelCallback sample_host (Some 21%nat);
         call_traverse sample_host UPDATE_VISITOR;
         call_removeEffect sample_host (Some 4%nat)] w1 = Some (tt, w2)
    ∧ ready (this w2)
    ∧ is_Some (traverse UPDATE_VISITOR w2)
    ∧ is_Some (createTileModel sample_host sample_map (1%nat, 0%nat, 0%nat) tt None w2).
Proof.
  pose (ops := [call_requireElevationTextures sample_host;
                call_addCreateTileModelCallback sample_host (Some 21%nat);
                call_traverse sample_host UPDATE_VISITOR;
                call_removeEffect sample_host (Some 4%nat)]).
  let r := eval vm_compute in (setMap (Some 1%nat) sample_options sample_world) in
  match r with
  | Some (tt, ?W1) =>
      exists W1;
      assert (Hset : setMap (Some 1%nat) sample_options sample_world = Some (tt, W1))
        by (vm_compute; reflexivity);
      let r2 := eval vm_compute in (exec_all sample_host ops W1) in
      match r2 with
      | Some (tt, ?W2) =>
          exists W2;
          assert (Hops : exec_all sample_host ops W1 = Some (tt, W2))
            by (vm_compute; reflexivity);
          assert (Hreg : Forall is_Some (_createTileModelCallbacks (this W2)))
            by (repeat constructor; eauto)
      end
  end.
  destruct (X6_setMap_makes_ready sample_host 1%nat sample_options sample_world _ Hset)
    as (_ & _ & _ & Hlater).
  destruct (Hlater ops _ Hops) as (Hready & Htraverse & _ & Hcreate).
  split; [exact Hset|]. split; [exact Hops|]. split; [exact Hready|].
  split; [apply Htraverse|]. apply Hcreate. exact Hreg.
Defined.

(** X7. A node that has no terrain interface and no tile-model factory (as
    the constructor leaves it, and as [setMap] with a null map leaves it) is
    not usable: an update traversal, a tile request, and a map change that
    carries an elevation layer each dereference a null pointer.  Event
    traversals and map changes without an elevation layer still work. *)
Theorem X7_unusable_before_setMap (H : Host) (w : World) :
  _terrainInterface (this w) = None →
  _tileModelFactory (this w) = None →
  traverse UPDATE_VISITOR w = None
  ∧ (∀ frame key filter progress, createTileModel H frame key filter progress w = None)
  ∧ (∀ change, is_Some (getElevationLayer change) → onMapModelChanged change w = None)
  ∧ is_Some (traverse EVENT_VISITOR w)
  ∧ (∀ change, getElevationLayer change = None → is_Some (onMapModelChanged change w)).
Proof.
  intros Hterrain Hfactory. refine (conj _ (conj _ (conj _ (conj _ _)))).
  - unfold traverse. run. rewrite Hterrain. reflexivity.
  - intros frame key filter progress. unfold createTileModel. run.
    rewrite Hfactory. reflexivity.
  - intros change [el Hel]. unfold onMapModelChanged.
    destruct (getAction change), (getImageLayer change); run;
      rewrite Hel, Hterrain; reflexivity.
  - unfold traverse. run. eauto.
  - intros change Hel. rewrite onMapModelChanged_run by (left; exact Hel). eauto.
Qed.

Lemma X7_unusable_before_setMap_witness :
  traverse UPDATE_VISITOR sample_world = None
  ∧ createTileModel sample_host sample_map (1%nat, 0%nat, 0%nat) tt None sample_world = None
  ∧ is_Some (traverse EVENT_VISITOR sample_world).
Proof.
  destruct (X7_unusable_before_setMap sample_host sample_world eq_refl eq_refl)
    as (Hupdate & Hcreate & _ & Hevent & _).
  split; [exact Hupdate|]. split; [apply Hcreate | exact Hevent].
Defined.

(** ** Redraw requests over whole runs *)

Lemma bounded_ret {A} (a : A) : bounded 0 0 (mret a).
Proof. intros w b w' Heq Hc Hroom. injection Heq as <- <-. lia. Qed.

Lemma bounded_bind {A B} (d1 d2 j1 j2 : nat) (m : M A) (k : A → M B) :
  bounded d1 j1 m → (∀ a, bounded d2 j2 (k a)) → bounded (d1 + d2) (j1 + j2) (m ≫= k).
Proof.
  intros Hm Hk w b w' Heq Hc Hroom. unfold mbind, M_bind in Heq.
  destruct (m w) as [[a w1]|] eqn:Hmw; [|discriminate].
  destruct (Hm w a w1 Hmw Hc) as [Hc1 Hs1]; [lia|].
  destruct (Hk a w1 b w' Heq) as [Hc2 Hs2]; lia.
Qed.

(** A larger allowance does no harm. *)
Lemma bounded_weaken {A} (d d' j j' : nat) (m : M A) :
  (d ≤ d')%nat → (j ≤ j')%nat → bounded d j m → bounded d' j' m.
Proof.
  intros Hd Hj Hm w a w' Heq Hc Hroom.
  destruct (Hm w a w' Heq Hc) as [Hc' Hs]; lia.
Qed.

Lemma bounded_crash {A} : bounded 0 0 (crash (A := A)).
Proof. intros w a w' Heq. discriminate. Qed.

Lemma bounded_deref {A} (p : ptr A) : bounded 0 0 (deref p).
Proof. destruct p; [apply bounded_ret | apply bounded_crash]. Qed.

Lemma bounded_get_this : bounded 0 0 get_this.
Proof. intros w a w' Heq Hc Hroom. injection Heq as <- <-. lia. Qed.

Lemma bounded_get_env : bounded 0 0 get_env.
Proof. intros w a w' Heq Hc Hroom. injection Heq as <- <-. lia. Qed.

Lemma bounded_get_self : bounded 0 0 get_self.
Proof. intros w a w' Heq Hc Hroom. injection Heq as <- <-. lia. Qed.

Lemma bounded_update_env (f : Env → Env) :
  (∀ E, trace (f E) = trace E) → bounded 0 0 (update_env f).
Proof.
  intros Hf w a w' Heq Hc Hroom. injection Heq as <- <-. split; [cbn; lia|].
  unfold outward_signals, idle. cbn. rewrite Hf. lia.
Qed.

Lemma bounded_emit (e : Event) : e ≠ ViewsRequestRedraw → bounded 0 0 (emit e).
Proof.
  intros He w a w' Heq Hc Hroom. injection Heq as <- <-. split; [cbn; lia|].
  unfold outward_signals, idle. cbn. rewrite count_signals_app. cbn.
  destruct (Event_eq_dec e ViewsRequestRedraw); [congruence | lia].
Qed.

Lemma bounded_update_this (f : TerrainEngineNode → TerrainEngineNode) :
  (∀ n, _dirtyCount (f n) = _dirtyCount n) → bounded 0 0 (update_this f).
Proof.
  intros Hf w a w' Heq Hc Hroom. injection Heq as <- <-. unfold idle. cbn. rewrite Hf.
  lia.
Qed.

Lemma bounded_for_each {A} (body : A → M unit) (v : list A) :
  (∀ x, bounded 0 0 (body x)) → bounded 0 0 (for_each body v).
Proof.
  intros Hbody. induction v as [|x v IH]; cbn.
  - apply bounded_ret.
  - apply (bounded_bind 0 0 0 0); [apply Hbody | intros _; exact IH].
Qed.

(** A request increments the counter, which has room for it, and reaches
    the views only if the counter was 0. *)
Lemma bounded_requestRedraw : bounded 0 1 requestRedraw.
Proof.
  intros w a w' Heq Hc Hroom.
  destruct (decide (_dirtyCount (this w) = 0)) as [Hz|Hnz].
  - rewrite requestRedraw_first in Heq by exact Hz. injection Heq as <- <-.
    unfold outward_signals, idle. cbn. rewrite count_signals_app, Hz. cbn.
    repeat case_decide; try congruence; lia.
  - rewrite requestRedraw_later in Heq by exact Hnz. injection Heq as <- <-.
    unfold idle. cbn. rewrite uint_wrap_small by lia.
    destruct (decide (_dirtyCount (this w) + 1 = 0)), (decide (_dirtyCount (this w) = 0));
      lia.
Qed.

Lemma bounded_fire_callbacks (H : Host) (callbacks : list (ptr CreateTileModelCallback)) :
  ∀ model, bounded 0 0 (fire_callbacks H callbacks model).
Proof.
  induction callbacks as [|i rest IH]; intros model; cbn [fire_callbacks].
  - apply bounded_ret.
  - apply (bounded_bind 0 0 0 0); [apply bounded_deref | intros cb].
    apply (bounded_bind 0 0 0 0); [apply bounded_get_this | intros n].
    apply (bounded_bind 0 0 0 0); [apply bounded_emit; discriminate | intros _; apply IH].
Qed.

Create HintDb bounded.
#[export] Hint Resolve bounded_ret bounded_crash bounded_deref bounded_get_this
  bounded_get_env bounded_get_self bounded_fire_callbacks : bounded.

(** Decompose a method that lets no extra redraw request out; a call of
    [requestRedraw], if there is one, is the last thing the method does. *)
Ltac bounded_step :=
  match goal with
  | |- bounded 0 1 requestRedraw => apply bounded_requestRedraw
  | |- bounded 0 ?j (_ ≫= _) => apply (bounded_bind 0 0 0 j); [|intros ?]
  | |- bounded 0 _ (match ?x with _ => _ end) => destruct x
  | |- bounded 0 1 _ => apply (bounded_weaken 0 0 0 1); [lia | lia |]
  | |- bounded 0 0 (for_each _ _) => apply bounded_for_each; intros ?
  | |- bounded 0 0 (emit _) => apply bounded_emit; discriminate
  | |- bounded 0 0 (update_env _) => apply bounded_update_env; intros ?; reflexivity
  | |- bounded 0 0 (update_this _) => apply bounded_update_this; intros ?; reflexivity
  | |- bounded 0 0 _ => solve [auto with bounded]
  end.

Lemma bounded_reset : bounded 1 0 (update_this (set_dirtyCount 0)).
Proof.
  intros w a w' Heq Hc Hroom. injection Heq as <- <-. unfold idle. cbn.
  repeat case_decide; lia.
Qed.

(** Every call increments the counter at most once, and only an event
    traversal lets a further redraw request out. *)
Lemma exec_bounded (H : Host) (op : Op H) :
  bounded (if is_event_traversal H op then 1 else 0) 1 (exec H op).
Proof.
  destruct op; try match goal with vt : VisitorType |- _ => destruct vt end;
    cbn [exec is_event_traversal];
    unfold addEffect, removeEffect, ImageLayerController_onColorFiltersChanged,
      requireNormalTextures, requireElevationTextures, requireParentTextures,
      dirtyTerrain, setMap, setVerticalScale, onMapInfoEstablished,
      onMapModelChanged, createTileModel, addCreateTileModelCallback,
      removeCreateTileModelCallback, traverse, notifyOfTerrainTileNodeCreation,
      addTilePatchCallback, removeTilePatchCallback, setComputeRangeCallback,
      dirtyState, Map_addMapCallback, Map_read, new_object,
      ImageLayer_addCallback, ImageLayer_removeCallback;
    repeat bounded_step.
  apply (bounded_weaken 1 1 0 1); [lia | lia |].
  apply (bounded_bind 1 0 0 0); [apply bounded_reset | intros _].
  apply bounded_emit. discriminate.
Qed.

Lemma exec_all_bounded (H : Host) (ops : list (Op H)) :
  bounded (event_traversals H ops) (length ops) (exec_all H ops).
Proof.
  unfold exec_all.
  induction ops as [|op ops IH]; cbn [for_each event_traversals foldr length].
  - apply bounded_ret.
  - pose proof (bounded_bind _ _ _ _ (exec H op) (λ _, for_each (exec H) ops)
                  (exec_bounded H op) (λ _, IH)) as Hb.
    destruct (is_event_traversal H op); exact Hb.
Qed.

(** X8. Redraw requests are coalesced over every run of calls, whatever the
    calls are, as long as the dirty counter cannot wrap around during the
    run.  From a node whose dirty counter is not negative and has room for
    one increment per call of the run, the counter stays in that range, and
    the number of redraw requests that reach the views during the run is at
    most the number of event traversals in the run, plus one if the counter
    was 0 at the start. *)
Theorem X8_redraws_bounded_by_event_traversals (H : Host) (ops : list (Op H))
    (w w' : World) :
  0 ≤ _dirtyCount (this w) →
  _dirtyCount (this w) + Z.of_nat (length ops) ≤ UINT_MAX →
  exec_all H ops w = Some (tt, w') →
  0 ≤ _dirtyCount (this w') ≤ _dirtyCount (this w) + Z.of_nat (length ops)
  ∧ (outward_signals (env w')
     ≤ outward_signals (env w) + event_traversals H ops + idle w)%nat.
Proof.
  intros Hc Hroom Hrun.
  destruct (exec_all_bounded H ops w tt w' Hrun Hc Hroom) as [Hc' Hs].
  split; [exact Hc' | lia].
Qed.

Lemma X8_redraws_bounded_by_event_traversals_witness :
  ∃ w',
    exec_all sample_host
      [call_requestRedraw sample_host; call_requireNormalTextures sample_host;
       call_addEffect sample_host (Some 3%nat);
       call_traverse sample_host EVENT_VISITOR;
       call_dirtyTerrain sample_host; call_requestRedraw sample_host;
       call_traverse sample_host CULL_VISITOR; call_requireParentTextures sample_host]
      sample_world = Some (tt, w')
    ∧ 0 ≤ _dirtyCount (this w') ≤ 8
    ∧ (outward_signals (env w') ≤ outward_signals (env sample_world) + 1 + 1)%nat
    ∧ outward_signals (env w') = 2%nat.
Proof.
  pose (ops := [call_requestRedraw sample_host; call_requireNormalTextures sample_host;
                call_addEffect sample_host (Some 3%nat);
                call_traverse sample_host EVENT_VISITOR;
                call_dirtyTerrain sample_host; call_requestRedraw sample_host;
                call_traverse sample_host CULL_VISITOR;
                call_requireParentTextures sample_host]).
  let r := eval vm_compute in (exec_all sample_host ops sample_world) in
  match r with
  | Some (tt, ?W) =>
      exists W;
      assert (Hrun : exec_all sample_host ops sample_world = Some (tt, W))
        by (vm_compute; reflexivity)
  end.
  assert (Hc : 0 ≤ _dirtyCount (this sample_world)) by (cbn; lia).
  assert (Hroom : _dirtyCount (this sample_world) + Z.of_nat (length ops) ≤ UINT_MAX)
    by (vm_compute; discriminate).
  destruct (X8_redraws_bounded_by_event_traversals sample_host ops _ _ Hc Hroom Hrun)
    as [Hc' Hs].
  split; [exact Hrun|]. split; [exact Hc'|]. split; [exact Hs|].
  vm_compute. reflexivity.
Defined.

(** ** Subscriptions, beyond maps that list each layer once *)

(** X9. The subscriptions follow the map as a multiset, for every run of
    edits and also when the map lists a layer more than once (nothing in
    [setMap] or [onMapModelChanged] looks for duplicates): after [setMap]
    on a map that nobody watches yet, and after any edits, the controller
    has on each layer as many subscriptions as the map has entries for that
    layer.  In particular it is subscribed to a layer exactly when the
    layer is in the map. *)
Theorem X9_subscriptions_count_map_entries (p : NodePtr) (mp : MapPtr)
    (options : TerrainOptions) (h0 : Heap) (n0 : TerrainEngineNode) (m0 : Map)
    (profile : Profile) (es : list MapEdit) :
  nodes h0 !! p = Some n0 →
  maps (heap_env h0) !! mp = Some m0 →
  getProfile m0 = Some profile →
  _mapCallbacks m0 = [] →
  (∀ l, subscriptions (heap_env h0) l (Some (next_object (heap_env h0))) = 0%nat) →
  ∃ h1 h2 c,
    invoke p (setMap (Some mp) options) h0 = Some (tt, h1)
    ∧ apply_edits mp es h1 = Some h2
    ∧ c = next_object (heap_env h0)
    ∧ layers_of h2 mp = layers_after es (map_imageLayers m0)
    ∧ (∀ l, subscriptions (heap_env h2) l (Some c)
            = count_occ Nat.eq_dec (layers_of h2 mp) l)
    ∧ (∀ l, Some c ∈ callbacks_of (heap_env h2) l ↔ l ∈ layers_of h2 mp).
Proof.
  intros Hlive Hmap Hprofile Hcbs Hfresh.
  destruct (setMap_tracks p mp options h0 n0 m0 profile Hlive Hmap Hprofile Hcbs Hfresh)
    as (h1 & Hrun1 & Htracks1 & Hlayers1).
  destruct (tracks_edits p mp _ es h1 Htracks1) as (h2 & Hrun2 & Htracks2 & Hlayers2).
  rewrite Hlayers1 in Hlayers2.
  destruct Htracks2 as (n2 & m2 & _ & _ & _ & Hmap2 & _ & Hcount2).
  assert (Hcount : ∀ l, subscriptions (heap_env h2) l (Some (next_object (heap_env h0)))
                        = count_occ Nat.eq_dec (layers_of h2 mp) l).
  { intros l. rewrite Hcount2. unfold layers_of. rewrite Hmap2. reflexivity. }
  exists h1, h2, (next_object (heap_env h0)).
  repeat split; try assumption.
  - intros Hin. apply list_elem_of_In, (count_occ_In Nat.eq_dec). rewrite <- Hcount.
    apply (count_occ_In (decide_rel (=))), list_elem_of_In. exact Hin.
  - intros Hin. apply list_elem_of_In, (count_occ_In (decide_rel (=))).
    unfold subscriptions, occurrences, callbacks_of in *. rewrite Hcount.
    apply (count_occ_In Nat.eq_dec), list_elem_of_In. exact Hin.
Qed.

Lemma X9_subscriptions_count_map_entries_witness :
  ∃ h1 h2 c,
    invoke 0%nat (setMap (Some 1%nat) sample_options) sample_heap = Some (tt, h1)
    ∧ apply_edits 1%nat
        [AddImageLayer 10; AddImageLayer 12; AddImageLayer 10; RemoveImageLayer 11;
         RemoveImageLayer 10] h1 = Some h2
    ∧ c = next_object (heap_env sample_heap)
    ∧ layers_of h2 1%nat = [10%nat; 12%nat; 10%nat]
    ∧ (∀ l, subscriptions (heap_env h2) l (Some c)
            = count_occ Nat.eq_dec (layers_of h2 1%nat) l)
    ∧ (∀ l, Some c ∈ callbacks_of (heap_env h2) l ↔ l ∈ layers_of h2 1%nat).
Proof.
  apply (X9_subscriptions_count_map_entries 0%nat 1%nat sample_options sample_heap
           TerrainEngineNode_new sample_map 5%nat
           [AddImageLayer 10; AddImageLayer 12; AddImageLayer 10; RemoveImageLayer 11;
            RemoveImageLayer 10]).
  - vm_compute. reflexivity.
  - vm_compute. reflexivity.
  - reflexivity.
  - reflexivity.
  - intros l. unfold subscriptions, occurrences. cbn. rewrite lookup_empty. reflexivity.
Defined.

(** ** The map outlives the node *)

Lemma occurrences_unsubscribe_all_other cb cb' (ls : list ImageLayer) : ∀ lc l,
  cb ≠ cb' →
  occurrences (unsubscribe_all cb ls lc) l cb' = occurrences lc l cb'.
Proof.
  induction ls as [|l0 ls IH]; intros lc l Hne; cbn; [reflexivity|].
  unfold unsubscribe_all in IH. rewrite IH by exact Hne. rewrite occurrences_insert.
  destruct (decide (l0 = l)) as [->|_]; [|reflexivity].
  rewrite count_find_and_erase. destruct (decide (cb = cb')); [congruence|reflexivity].
Qed.

(** X10. What destroying a node does.  The node is gone from the heap; if
    it had a map, its controller loses, on every layer, as many
    subscriptions as the map has entries for that layer; the subscriptions
    of every other callback are as they were; nothing is called out; and the
    map keeps its layers and its callbacks, so the proxy the node registered
    with it stays registered. *)
Theorem X10_destroy (p : NodePtr) (mp : MapPtr) (h : Heap)
    (n : TerrainEngineNode) (m : Map) :
  nodes h !! p = Some n →
  _map n = Some mp →
  maps (heap_env h) !! mp = Some m →
  ∃ h', destroy p h = Some h'
        ∧ nodes h' = delete p (nodes h)
        ∧ observer_lock h' p = None
        ∧ maps (heap_env h') = maps (heap_env h)
        ∧ trace (heap_env h') = trace (heap_env h)
        ∧ (∀ l, subscriptions (heap_env h') l (_imageLayerController n)
                = (subscriptions (heap_env h) l (_imageLayerController n)
                   - count_occ Nat.eq_dec (map_imageLayers m) l)%nat)
        ∧ (∀ l cb, cb ≠ _imageLayerController n →
                   subscriptions (heap_env h') l cb = subscriptions (heap_env h) l cb).
Proof.
  intros Hlive Hmapptr Hmap.
  unfold destroy, invoke. rewrite Hlive.
  unfold TerrainEngineNode_destructor, Map_read. run. rewrite Hmapptr. run.
  rewrite Hmap. run. rewrite for_each_removeCallback. cbn.
  eexists. split; [reflexivity|]. cbn.
  split; [apply delete_insert_eq|].
  split; [unfold observer_lock; cbn; apply lookup_delete_eq|].
  split; [reflexivity|]. split; [reflexivity|]. split.
  - intros l. unfold subscriptions. cbn. apply occurrences_unsubscribe_all.
  - intros l cb Hne. unfold subscriptions. cbn.
    apply occurrences_unsubscribe_all_other. congruence.
Qed.

Lemma X10_destroy_witness :
  ∃ h', destroy 0%nat
          {| nodes := {[ 0%nat := this sample_ready_world ]};
             heap_env := env sample_ready_world |} = Some h'
        ∧ observer_lock h' 0%nat = None
        ∧ (∀ l, subscriptions (heap_env h') l (Some 100%nat)
                = (subscriptions (env sample_ready_world) l (Some 100%nat)
                   - count_occ Nat.eq_dec [10%nat; 11%nat] l)%nat).
Proof.
  pose (h := {| nodes := {[ 0%nat := this sample_ready_world ]};
                heap_env := env sample_ready_world |}).
  assert (Hlive : nodes h !! 0%nat = Some (this sample_ready_world))
    by apply lookup_singleton_eq.
  assert (Hmapptr : _map (this sample_ready_world) = Some 1%nat)
    by (vm_compute; reflexivity).
  assert (Hctrl : _imageLayerController (this sample_ready_world) = Some 100%nat)
    by (vm_compute; reflexivity).
  assert (Hmap : maps (heap_env h) !! 1%nat
                 = Some (set_mapCallbacks [{| _node := 0%nat |}] sample_map))
    by (vm_compute; reflexivity).
  destruct (X10_destroy 0%nat 1%nat h _ _ Hlive Hmapptr Hmap)
    as (h' & Hrun & _ & Hdead & _ & _ & Hown & _).
  exists h'. split; [exact Hrun|]. split; [exact Hdead|].
  intros l. rewrite <- Hctrl. apply Hown.
Defined.

Lemma Map_notify_dead (callbacks : list TerrainEngineNodeCallbackProxy)
    (change : MapModelChange) (h : Heap) :
  Forall (λ proxy, observer_lock h (_node proxy) = None) callbacks →
  Map_notify callbacks change h = Some h.
Proof.
  induction 1 as [|proxy rest Hdead _ IH]; cbn [Map_notify]; [reflexivity|].
  unfold Proxy_onMapModelChanged. rewrite Hdead. exact IH.
Qed.

Lemma orphaned_edit (mp : MapPtr) (e : MapEdit) (h : Heap) :
  orphaned mp h →
  ∃ h', apply_edit mp e h = Some h'
        ∧ orphaned mp h'
        ∧ nodes h' = nodes h
        ∧ trace (heap_env h') = trace (heap_env h)
        ∧ layerCallbacks (heap_env h') = layerCallbacks (heap_env h)
        ∧ layers_of h' mp = edit_layers e (layers_of h mp).
Proof.
  intros Horph. pose proof Horph as (m & Hmap & Hdead).
  assert (Hstep : ∀ L,
    let h1 := heap_set_map mp (set_map_imageLayers L m) h in
    orphaned mp h1 ∧ nodes h1 = nodes h
    ∧ trace (heap_env h1) = trace (heap_env h)
    ∧ layerCallbacks (heap_env h1) = layerCallbacks (heap_env h)
    ∧ layers_of h1 mp = L).
  { intros L h1. refine (conj _ (conj _ (conj _ (conj _ _)))); try reflexivity.
    - exists (set_map_imageLayers L m). split; [cbn; apply lookup_insert_eq | exact Hdead].
    - unfold layers_of. cbn. rewrite lookup_insert_eq. reflexivity. }
  destruct e as [l|l]; cbn [apply_edit edit_layers];
    unfold Map_addImageLayer, Map_removeImageLayer; rewrite Hmap.
  - rewrite Map_notify_dead by exact Hdead. eexists. split; [reflexivity|].
    unfold layers_of at 2. rewrite Hmap. apply Hstep.
  - destruct (decide (l ∈ map_imageLayers m)) as [Hin|Hout].
    + rewrite Map_notify_dead by exact Hdead. eexists. split; [reflexivity|].
      unfold layers_of at 2. rewrite Hmap. apply Hstep.
    + exists h. split; [reflexivity|]. split; [exact Horph|].
      repeat split. unfold layers_of. rewrite Hmap.
      symmetry. apply find_and_erase_absent. exact Hout.
Qed.

(** X11. A map whose watchers have all been destroyed can still be edited:
    every edit returns, each notification is dropped by its proxy, and
    nothing but the map's layer list changes: no node appears, nothing is
    called out, no subscription is made or withdrawn. *)
Theorem X11_edits_after_destruction (mp : MapPtr) (es : list MapEdit) (h : Heap) :
  orphaned mp h →
  ∃ h', apply_edits mp es h = Some h'
        ∧ nodes h' = nodes h
        ∧ trace (heap_env h') = trace (heap_env h)
        ∧ layerCallbacks (heap_env h') = layerCallbacks (heap_env h)
        ∧ layers_of h' mp = layers_after es (layers_of h mp).
Proof.
  revert h. induction es as [|e es IH]; intros h Horph.
  - exists h. repeat split.
  - destruct (orphaned_edit mp e h Horph)
      as (h1 & Hrun1 & Horph1 & Hnodes1 & Htrace1 & Hsubs1 & Hlayers1).
    destruct (IH h1 Horph1) as (h' & Hrun & Hnodes & Htrace & Hsubs & Hlayers).
    exists h'. cbn [apply_edits]. rewrite Hrun1. split; [exact Hrun|].
    split; [congruence|]. split; [congruence|]. split; [congruence|].
    rewrite Hlayers, Hlayers1. reflexivity.
Qed.

Lemma X11_edits_after_destruction_witness :
  ∃ h', apply_edits 1%nat [AddImageLayer 12; RemoveImageLayer 10] sample_orphan_heap
        = Some h'
        ∧ nodes h' = nodes sample_orphan_heap
        ∧ trace (heap_env h') = trace (heap_env sample_orphan_heap)
        ∧ layerCallbacks (heap_env h') = layerCallbacks (heap_env sample_orphan_heap)
        ∧ layers_of h' 1%nat = [11%nat; 12%nat].
Proof.
  assert (Horph : orphaned 1%nat sample_orphan_heap).
  { exists (set_mapCallbacks [{| _node := 0%nat |}] sample_map).
    split; [vm_compute; reflexivity|].
    repeat constructor. }
  destruct (X11_edits_after_destruction 1%nat [AddImageLayer 12; RemoveImageLayer 10]
              sample_orphan_heap Horph) as (h' & Hrun & Hnodes & Htrace & Hsubs & Hlayers).
  exists h'. split; [exact Hrun|]. split; [exact Hnodes|]. split; [exact Htrace|].
  split; [exact Hsubs|]. rewrite Hlayers. vm_compute. reflexivity.
Defined.

(** ** What [std::remove] leaves in the tile-patch registry *)

Section StdRemoveContract.
Context {A : Type} `{EqDecision A}.
Variable moved_from : A → A.
Variable x : A.

Local Abbreviation kept := (filter (λ y, y ≠ x)).

Lemma kept_all (v : list A) : x ∉ v → kept v = v.
Proof.
  induction v as [|y v IH]; intros Hx; [reflexivity|].
  apply not_elem_of_cons in Hx as [Hne Hx].
  rewrite filter_cons_True by congruence. rewrite IH by exact Hx. reflexivity.
Qed.

Lemma kept_snoc_same (l : list A) : kept (l ++ [x]) = kept l.
Proof.
  rewrite filter_app, (filter_cons_False _ x []), filter_nil, app_nil_r; [reflexivity|].
  intros Hne. apply Hne. reflexivity.
Qed.

Lemma kept_snoc_other (l : list A) (y : A) : y ≠ x → kept (l ++ [y]) = kept l ++ [y].
Proof.
  intros Hne. rewrite filter_app, (filter_cons_True _ y []), filter_nil; [reflexivity|].
  exact Hne.
Qed.

Lemma take_std_find (v : list A) : x ∉ take (std_find v x) v.
Proof.
  induction v as [|y v IH]; cbn; [apply not_elem_of_nil|].
  destruct (decide (y = x)); cbn; [apply not_elem_of_nil|].
  apply not_elem_of_cons. split; [congruence | exact IH].
Qed.

(** The loop keeps, in front of [first], the elements other than [x] that it
    has passed, and behind [i] the elements it has yet to visit. *)
Lemma std_remove_loop_front (v0 : list A) (n : nat) : ∀ (v : list A) (first i : nat),
  (first < i)%nat →
  (n + i = length v0)%nat →
  length v = length v0 →
  take first v = kept (take i v0) →
  drop i v = drop i v0 →
  let r := std_remove_loop moved_from x n v first i in
  take (snd r) (fst r) = kept v0 ∧ snd r = length (kept v0).
Proof.
  induction n as [|n IH]; intros v first i Hlt Hn Hlen Hfront Hrest; cbn.
  - rewrite (take_ge v0) in Hfront by lia. split; [exact Hfront|].
    rewrite <- Hfront, length_take. lia.
  - assert (Hvi : v !! i = v0 !! i).
    { rewrite <- (Nat.add_0_r i), <- !lookup_drop, Hrest. reflexivity. }
    destruct (v0 !! i) as [y|] eqn:Hy;
      [|apply lookup_ge_None in Hy; lia].
    rewrite Hvi.
    assert (Hrest' : ∀ u, length u = length v0 → drop i u = drop i v0 →
                          drop (S i) u = drop (S i) v0).
    { intros u _ Hu. replace (S i) with (i + 1)%nat by lia.
      rewrite <- !drop_drop, Hu. reflexivity. }
    destruct (decide (y = x)) as [->|Hne].
    + apply IH; try lia; try assumption.
      * rewrite (take_S_r _ _ _ Hy), kept_snoc_same. exact Hfront.
      * apply Hrest'; assumption.
    + apply IH; try lia.
      * rewrite !length_insert. exact Hlen.
      * rewrite take_insert_ge by lia.
        rewrite (take_S_r _ _ y) by (apply list_lookup_insert_eq; lia).
        rewrite take_insert_ge by lia.
        rewrite (take_S_r _ _ _ Hy), kept_snoc_other, Hfront by exact Hne.
        reflexivity.
      * rewrite !drop_insert_lt by lia. apply Hrest'; assumption.
Qed.

(** [std::remove] returns with the elements other than [x] at the front, in
    their order, and the vector as long as it was. *)
Lemma std_remove_front (v : list A) :
  let r := std_remove moved_from x v in
  take (snd r) (fst r) = kept v
  ∧ snd r = length (kept v)
  ∧ length (fst r) = length v.
Proof.
  cbn zeta. split; [|split]; [| |apply std_remove_length].
  all: unfold std_remove; destruct (decide (std_find v x ≠ length v)) as [Hfound|Hnone].
  all: try (assert (Hx : x ∉ v);
            [intros Hin; apply std_find_present, lookup_lt_Some in Hin; lia|];
            cbn; rewrite kept_all by exact Hx;
            first [apply take_ge; lia | lia]).
  all: assert (Hin : v !! std_find v x = Some x).
  all: try (pose proof (std_find_le v x);
            destruct (decide (x ∈ v)) as [Hx|Hx];
            [apply std_find_present; exact Hx
            |apply std_find_absent in Hx; lia]).
  all: pose proof (lookup_lt_Some _ _ _ Hin) as Hlt.
  all: apply (std_remove_loop_front v); try lia; try reflexivity.
  all: rewrite (take_S_r _ _ _ Hin), kept_snoc_same.
  all: symmetry; apply kept_all, take_std_find.
Qed.
End StdRemoveContract.

Lemma set_tilePatchCallbacks_same (n : TerrainEngineNode) :
  set_tilePatchCallbacks (_tilePatchCallbacks n) n = n.
Proof. destruct n; reflexivity. Qed.

(** X12. What [removeTilePatchCallback cb] does to the registry, whatever
    assignment does to its source: the registry keeps its length; its front
    holds the entries other than [cb], in their order; what follows them is
    left over from the shifting and may still contain [cb].  When [cb] is not
    registered the call changes nothing at all. *)
Theorem X12_removeTilePatchCallback_shifts (H : Host) (cb : ptr TilePatchCallback)
    (w : World) :
  ∃ w', removeTilePatchCallback H cb w = Some (tt, w')
        ∧ env w' = env w
        ∧ length (_tilePatchCallbacks (this w')) = length (_tilePatchCallbacks (this w))
        ∧ take (length (filter (λ c, c ≠ cb) (_tilePatchCallbacks (this w))))
               (_tilePatchCallbacks (this w'))
          = filter (λ c, c ≠ cb) (_tilePatchCallbacks (this w))
        ∧ (cb ∉ _tilePatchCallbacks (this w) → w' = w).
Proof.
  eexists. split; [reflexivity|]. cbn.
  destruct (std_remove_front (moved_from H) cb (_tilePatchCallbacks (this w)))
    as (Hfront & Hk & Hlen).
  split; [reflexivity|]. split; [exact Hlen|]. split.
  - rewrite <- Hk. exact Hfront.
  - intros Habs.
    assert (Hsame : fst (std_remove (moved_from H) cb (_tilePatchCallbacks (this w)))
                    = _tilePatchCallbacks (this w)).
    { rewrite <- (take_ge (fst _) (length (_tilePatchCallbacks (this w)))) by lia.
      rewrite <- (kept_all cb (_tilePatchCallbacks (this w)) Habs) at 1.
      rewrite <- Hk, Hfront. apply kept_all. exact Habs. }
    rewrite Hsame, set_tilePatchCallbacks_same. apply world_eta.
Qed.

Lemma X12_removeTilePatchCallback_shifts_witness :
  (∃ w', removeTilePatchCallback sample_host (Some 1%nat) sample_patch_world = Some (tt, w')
         ∧ _tilePatchCallbacks (this w') = [Some 2%nat; Some 3%nat; Some 1%nat; Some 3%nat]
         ∧ take 2 (_tilePatchCallbacks (this w')) = [Some 2%nat; Some 3%nat])
  ∧ removeTilePatchCallback sample_host (Some 9%nat) sample_patch_world
    = Some (tt, sample_patch_world).
Proof.
  split.
  - destruct (X12_removeTilePatchCallback_shifts sample_host (Some 1%nat) sample_patch_world)
      as (w' & Hrun & _ & _ & Hfront & _).
    exists w'. split; [exact Hrun|].
    assert (Hw' : Some (tt, w') = removeTilePatchCallback sample_host (Some 1%nat)
                                    sample_patch_world) by (symmetry; exact Hrun).
    vm_compute in Hw'. injection Hw' as ->. split; reflexivity.
  - destruct (X12_removeTilePatchCallback_shifts sample_host (Some 9%nat) sample_patch_world)
      as (w' & Hrun & _ & _ & _ & Habs).
    rewrite Hrun, Habs; [reflexivity|].
    apply (bool_decide_unpack _). vm_compute. exact I.
Defined.

(** ** Tile-node callbacks *)

Lemma for_each_tile_node_callbacks (cbs : list TileNodeCallback) : ∀ w,
  for_each (λ i, callback ← deref i; emit (TileNodeCallback_call callback))
           (Some <$> cbs) w
  = Some (tt, emitted (TileNodeCallback_call <$> cbs) w).
Proof.
  induction cbs as [|cb cbs IH]; intros w.
  - cbn. rewrite emitted_nil. reflexivity.
  - cbn [fmap list_fmap for_each]. run.
    change ({| self := self w; this := this w;
               env := set_trace (trace (env w) ++ [TileNodeCallback_call cb]) (env w) |})
      with (emitted [TileNodeCallback_call cb] w).
    change (list_fmap _ _ Some cbs) with (Some <$> cbs).
    rewrite IH, emitted_emitted. reflexivity.
Qed.

Lemma for_each_tile_node_callbacks_null (v : list (ptr TileNodeCallback)) : ∀ w,
  None ∈ v →
  for_each (λ i, callback ← deref i; emit (TileNodeCallback_call callback)) v w = None.
Proof.
  induction v as [|i v IH]; intros w Hin; [apply elem_of_nil in Hin as []|].
  cbn [for_each]. destruct i as [cb|]; [|reflexivity].
  apply elem_of_cons in Hin as [Heq|Hin]; [discriminate|].
  run. apply IH. exact Hin.
Qed.

(** X13. [notifyOfTerrainTileNodeCreation] calls every tile-node callback
    once, in index order, and touches nothing else, when all entries are
    non-null; with a null entry in the registry the call dereferences it
    and fails. *)
Theorem X13_notifyOfTerrainTileNodeCreation (H : Host) (key : TileKey H)
    (node : ptr nat) (w : World) :
  (∀ cbs, _tileNodeCallbacks (this w) = Some <$> cbs →
          notifyOfTerrainTileNodeCreation H key node w
          = Some (tt, emitted (TileNodeCallback_call <$> cbs) w))
  ∧ (None ∈ _tileNodeCallbacks (this w) →
     notifyOfTerrainTileNodeCreation H key node w = None).
Proof.
  unfold notifyOfTerrainTileNodeCreation. split.
  - intros cbs Hcbs. run. rewrite Hcbs. apply for_each_tile_node_callbacks.
  - intros Hnull. run. apply for_each_tile_node_callbacks_null. exact Hnull.
Qed.

Lemma X13_notifyOfTerrainTileNodeCreation_witness :
  notifyOfTerrainTileNodeCreation sample_host (2%nat, 1%nat, 0%nat) (Some 77%nat)
    (tile_node_world [Some 31%nat; Some 32%nat])
  = Some (tt, emitted [TileNodeCallback_call 31; TileNodeCallback_call 32]
                      (tile_node_world [Some 31%nat; Some 32%nat]))
  ∧ notifyOfTerrainTileNodeCreation sample_host (2%nat, 1%nat, 0%nat) (Some 77%nat)
      (tile_node_world [Some 31%nat; None; Some 32%nat])
    = None.
Proof.
  split.
  - apply (proj1 (X13_notifyOfTerrainTileNodeCreation sample_host (2%nat, 1%nat, 0%nat)
                    (Some 77%nat) (tile_node_world [Some 31%nat; Some 32%nat]))
                 [31%nat; 32%nat]).
    reflexivity.
  - apply (proj2 (X13_notifyOfTerrainTileNodeCreation sample_host (2%nat, 1%nat, 0%nat)
                    (Some 77%nat) (tile_node_world [Some 31%nat; None; Some 32%nat]))).
    apply (bool_decide_unpack _). vm_compute. exact I.
Defined.

(** ** What [setMap] calls *)

Lemma onMapInfoEstablished_emitted (mapInfo : MapInfo) (profile : Profile) (w : World) :
  mapInfo_getProfile mapInfo = Some profile →
  onMapInfoEstablished mapInfo w
  = Some (tt, emitted (coordinate_system_calls profile (mapInfo_isGeocentric mapInfo)) w).
Proof.
  intros Hprofile. unfold onMapInfoEstablished, coordinate_system_calls, emitted.
  rewrite Hprofile. destruct (mapInfo_isGeocentric mapInfo); run;
    rewrite <- ?app_assoc; reflexivity.
Qed.

(** X14. The calls [setMap] makes, for a live map with a profile: the
    coordinate-system node is set up twice, once inline and once through
    [onMapInfoEstablished] (which makes exactly these calls whenever its
    profile is non-null, and fails when it is null), with the render-bin
    call, if any, in between.  No redraw is requested and the dirty counter
    is not touched. *)
Theorem X14_setMap_calls (mp : MapPtr) (options : TerrainOptions) (w : World)
    (m : Map) (profile : Profile) :
  maps (env w) !! mp = Some m →
  getProfile m = Some profile →
  let cs := coordinate_system_calls profile (isGeocentric m) in
  onMapInfoEstablished (MapInfo_of m) w = Some (tt, emitted cs w)
  ∧ (∀ geocentric, onMapInfoEstablished
                     {| mapInfo_getProfile := None; mapInfo_isGeocentric := geocentric |} w
                   = None)
  ∧ ∃ w', setMap (Some mp) options w = Some (tt, w')
          ∧ trace (env w') = trace (env w) ++ cs ++ render_bin_calls options ++ cs
          ∧ outward_signals (env w') = outward_signals (env w)
          ∧ _dirtyCount (this w') = _dirtyCount (this w).
Proof.
  intros Hmap Hprofile cs. split; [|split].
  - apply onMapInfoEstablished_emitted. exact Hprofile.
  - intros geocentric. reflexivity.
  - subst cs. destruct w as [s n E]. cbn in Hmap.
    unfold setMap, Map_addMapCallback, Map_read, new_object, onMapInfoEstablished,
      coordinate_system_calls, render_bin_calls.
    destruct (isGeocentric m) eqn:Hgeo, (binNumber options) as [bin|];
      repeat (run; rewrite ?Hmap, ?lookup_insert_eq, ?Hprofile, ?Hgeo);
      rewrite for_each_addCallback; run;
      (eexists; split; [reflexivity|]); unfold outward_signals; cbn;
      rewrite <- ?app_assoc; cbn;
      (split; [reflexivity|]); (split; [|reflexivity]);
      rewrite ?count_signals_app; cbn; lia.
Qed.

Lemma X14_setMap_calls_witness :
  ∃ w', setMap (Some 1%nat) {| binNumber := Some 7 |} sample_world = Some (tt, w')
        ∧ trace (env w')
          = trace (env sample_world)
            ++ [SRS_populateCoordinateSystemNode 5] ++ [SetRenderBinDetails 7]
            ++ [SRS_populateCoordinateSystemNode 5]
        ∧ outward_signals (env w') = outward_signals (env sample_world)
        ∧ _dirtyCount (this w') = _dirtyCount (this sample_world).
Proof.
  assert (Hmap : maps (env sample_world) !! 1%nat = Some sample_map)
    by (vm_compute; reflexivity).
  exact (proj2 (proj2 (X14_setMap_calls 1%nat {| binNumber := Some 7 |} sample_world
                         sample_map 5%nat Hmap eq_refl))).
Defined.

(** ** The driver factory *)

Lemma driver_extension_inj (a b : string) :
  (".osgearth_engine_" +:+ a)%string = (".osgearth_engine_" +:+ b)%string → a = b.
Proof. intros Heq. vm_compute in Heq. congruence. Qed.

(** X15. [TerrainEngineNodeFactory::create] asks the plugin loader for
    [.osgearth_engine_] followed by the driver name, where options that name
    no driver stand for the registry's default.  So options without a driver
    give the same outcome as options naming the default; two requests ask
    for the same plugin only if they mean the same driver; the node is
    returned exactly when the loader finds an object under that name and the
    object is a terrain engine node; and the warning is logged exactly when
    null is returned, naming the driver that failed. *)
Theorem X15_factory_create (getDriver : TerrainOptions → string) (defaultName : string)
    (readObjectFile : string → ptr LoadedObject) (options options' : TerrainOptions) :
  let create := TerrainEngineNodeFactory_create getDriver defaultName readObjectFile in
  let driver := effective_driver getDriver defaultName in
  (getDriver options = EmptyString → getDriver options' = defaultName →
   create options = create options')
  ∧ (asked_for (create options) = asked_for (create options') →
     driver options = driver options')
  ∧ (∀ node, created (create options) = Some node
             ↔ readObjectFile (".osgearth_engine_" +:+ driver options)%string
               = Some (LoadedEngine node))
  ∧ (created (create options) = None
     ↔ warned_about (create options) = Some (driver options))
  ∧ (is_Some (created (create options)) ↔ warned_about (create options) = None).
Proof.
  cbn zeta. unfold TerrainEngineNodeFactory_create. refine (conj _ (conj _ (conj _ (conj _ _)))).
  - intros Hempty Hdefault.
    assert (Hsame : effective_driver getDriver defaultName options
                    = effective_driver getDriver defaultName options').
    { unfold effective_driver. rewrite Hempty, Hdefault.
      destruct (decide (EmptyString = EmptyString)); [|congruence].
      destruct (decide (defaultName = EmptyString)); congruence. }
    rewrite Hsame. reflexivity.
  - cbn [asked_for]. apply driver_extension_inj.
  - intros node. cbn [created].
    destruct (readObjectFile _) as [[n|]|]; split; congruence.
  - cbn [created warned_about].
    destruct (readObjectFile _) as [[n|]|]; split; congruence.
  - cbn [created warned_about].
    destruct (readObjectFile _) as [[n|]|]; split;
      try congruence; try (intros [? ?]; congruence); eauto.
Qed.

Lemma X15_factory_create_witness :
  TerrainEngineNodeFactory_create sample_getDriver "mp" sample_readObjectFile
    {| binNumber := None |}
  = TerrainEngineNodeFactory_create sample_getDriver "mp" sample_readObjectFile
      {| binNumber := Some 3 |}
  ∧ created (TerrainEngineNodeFactory_create sample_getDriver "mp" sample_readObjectFile
               {| binNumber := None |}) = Some 1%nat
  ∧ warned_about (TerrainEngineNodeFactory_create sample_getDriver "png"
                    sample_readObjectFile {| binNumber := None |}) = Some "png"%string.
Proof.
  split; [|split].
  - apply (X15_factory_create sample_getDriver "mp" sample_readObjectFile
             {| binNumber := None |} {| binNumber := Some 3 |}); reflexivity.
  - apply (X15_factory_create sample_getDriver "mp" sample_readObjectFile
             {| binNumber := None |} {| binNumber := None |}). reflexivity.
  - apply (X15_factory_create sample_getDriver "png" sample_readObjectFile
             {| binNumber := None |} {| binNumber := None |}). reflexivity.
Defined.

(** ** Setting the node up a second time *)

Lemma occurrences_subscribe_all_other cb cb' (ls : list ImageLayer) : ∀ lc l,
  cb ≠ cb' →
  occurrences (subscribe_all cb ls lc) l cb' = occurrences lc l cb'.
Proof.
  induction ls as [|l0 ls IH]; intros lc l Hne; cbn; [reflexivity|].
  unfold subscribe_all in IH. rewrite IH by exact Hne. rewrite occurrences_insert.
  destruct (decide (l0 = l)) as [->|_]; [|reflexivity].
  rewrite count_occ_app. cbn. destruct (decide_rel eq cb cb'); [congruence|].
  unfold occurrences. lia.
Qed.

(** One ADD_LAYER notification delivered to a live node. *)
Lemma Proxy_add_layer (p : NodePtr) (l : ImageLayer) (h : Heap)
    (n : TerrainEngineNode) (c : TerrainLayerCallback) :
  nodes h !! p = Some n →
  _imageLayerController n = Some c →
  ∃ h' n',
    Proxy_onMapModelChanged {| _node := p |}
      {| getAction := ADD_LAYER; getImageLayer := Some l; getElevationLayer := None |} h
    = Some h'
    ∧ nodes h' !! p = Some n'
    ∧ _imageLayerController n' = Some c
    ∧ maps (heap_env h') = maps (heap_env h)
    ∧ ∀ l' cb, subscriptions (heap_env h') l' cb
               = (subscriptions (heap_env h) l' cb
                  + if decide (l' = l ∧ cb = Some c) then 1 else 0)%nat.
Proof.
  intros Hlive Hctrl.
  unfold Proxy_onMapModelChanged, observer_lock, invoke. cbn [_node]. rewrite Hlive.
  rewrite onMapModelChanged_run by (left; reflexivity). cbn.
  eexists. eexists. split; [reflexivity|]. cbn.
  split; [apply lookup_insert_eq|]. split; [exact Hctrl|]. split; [reflexivity|].
  intros l' cb. unfold subscriptions. cbn. rewrite occurrences_insert, Hctrl.
  unfold callbacks_of, occurrences.
  destruct (decide (l = l')) as [->|Hne].
  - rewrite count_occ_app. cbn.
    destruct (decide_rel eq (Some c) cb), (decide (l' = l' ∧ cb = Some c)) as [[_ ?]|Hno];
      try congruence; try lia.
    exfalso. apply Hno. split; congruence.
  - destruct (decide (l' = l ∧ cb = Some c)) as [[? _]|_]; [congruence | lia].
Qed.

(** X16. [setMap] is not idempotent.  Called again on a node that already
    watches the map, it registers a second proxy and makes a new controller,
    which it subscribes to the layers beside the old one; the old
    controller's subscriptions are not withdrawn.  Every layer that joins the
    map afterwards is announced through both proxies, so the new controller
    is subscribed to it twice. *)
Theorem X16_setMap_again (p : NodePtr) (mp : MapPtr) (c : TerrainLayerCallback)
    (options : TerrainOptions) (h : Heap) (profile : Profile) (l0 : ImageLayer) :
  tracks p mp c h →
  (∃ m, maps (heap_env h) !! mp = Some m ∧ getProfile m = Some profile) →
  c ≠ next_object (heap_env h) →
  (∀ l, subscriptions (heap_env h) l (Some (next_object (heap_env h))) = 0%nat) →
  ∃ h1 h2 n1 m1 c',
    invoke p (setMap (Some mp) options) h = Some (tt, h1)
    ∧ c' = next_object (heap_env h)
    ∧ nodes h1 !! p = Some n1
    ∧ _imageLayerController n1 = Some c'
    ∧ maps (heap_env h1) !! mp = Some m1
    ∧ _mapCallbacks m1 = [{| _node := p |}; {| _node := p |}]
    ∧ map_imageLayers m1 = layers_of h mp
    ∧ (∀ l, subscriptions (heap_env h1) l (Some c)
            = count_occ Nat.eq_dec (layers_of h mp) l)
    ∧ (∀ l, subscriptions (heap_env h1) l (Some c')
            = count_occ Nat.eq_dec (layers_of h mp) l)
    ∧ Map_addImageLayer mp l0 h1 = Some h2
    ∧ subscriptions (heap_env h2) l0 (Some c')
      = (count_occ Nat.eq_dec (layers_of h mp) l0 + 2)%nat
    ∧ subscriptions (heap_env h2) l0 (Some c)
      = count_occ Nat.eq_dec (layers_of h mp) l0.
Proof.
  intros (n & m & Hlive & Hctrl & Hmapptr & Hmap & Hcbs & Hcount)
         (m' & Hmap' & Hprofile) Hnew Hfresh.
  rewrite Hmap in Hmap'. injection Hmap' as <-.
  assert (Hlayers : layers_of h mp = map_imageLayers m)
    by (unfold layers_of; rewrite Hmap; reflexivity).
  rewrite Hlayers.
  destruct (setMap_run mp options {| self := p; this := n; env := heap_env h |}
              m profile Hmap Hprofile)
    as (w' & Hrun & _ & _ & Hctrl' & _ & _ & _ & Hmaps & Hsubs & _).
  cbn in Hctrl', Hmaps, Hsubs. rewrite Hcbs in Hmaps. cbn in Hmaps.
  set (h1 := {| nodes := <[p := this w']> (nodes h); heap_env := env w' |}).
  set (m1 := set_mapCallbacks [{| _node := p |}; {| _node := p |}] m) in *.
  assert (Hrun1 : invoke p (setMap (Some mp) options) h = Some (tt, h1))
    by (unfold invoke; rewrite Hlive, Hrun; reflexivity).
  assert (Hlive1 : nodes h1 !! p = Some (this w')) by apply lookup_insert_eq.
  assert (Hmap1 : maps (heap_env h1) !! mp = Some m1)
    by (cbn; rewrite Hmaps; apply lookup_insert_eq).
  assert (Hold : ∀ l, subscriptions (heap_env h1) l (Some c)
                      = count_occ Nat.eq_dec (map_imageLayers m) l).
  { intros l. unfold subscriptions in *. cbn. rewrite Hsubs.
    rewrite occurrences_subscribe_all_other by congruence. apply Hcount. }
  assert (Hnew1 : ∀ l, subscriptions (heap_env h1) l (Some (next_object (heap_env h)))
                       = count_occ Nat.eq_dec (map_imageLayers m) l).
  { intros l. unfold subscriptions in *. cbn. rewrite Hsubs.
    rewrite occurrences_subscribe_all, Hfresh. reflexivity. }
  (* the layer joins: two notifications *)
  set (h1' := heap_set_map mp (set_map_imageLayers (map_imageLayers m1 ++ [l0]) m1) h1).
  destruct (Proxy_add_layer p l0 h1' (this w') _ Hlive1 Hctrl')
    as (ha & na & Hruna & Hlivea & Hctrla & _ & Hsuba).
  destruct (Proxy_add_layer p l0 ha na _ Hlivea Hctrla)
    as (hb & nb & Hrunb & _ & _ & _ & Hsubb).
  assert (Hadd : Map_addImageLayer mp l0 h1 = Some hb).
  { unfold Map_addImageLayer. rewrite Hmap1. cbn [_mapCallbacks m1 set_mapCallbacks Map_notify].
    fold m1. fold h1'. rewrite Hruna, Hrunb. reflexivity. }
  exists h1, hb, (this w'), m1, (next_object (heap_env h)).
  split; [exact Hrun1|]. split; [reflexivity|]. split; [exact Hlive1|].
  split; [exact Hctrl'|]. split; [exact Hmap1|]. split; [reflexivity|].
  split; [reflexivity|]. split; [exact Hold|]. split; [exact Hnew1|].
  split; [exact Hadd|]. split.
  - rewrite Hsubb, Hsuba.
    change (subscriptions (heap_env h1') l0 (Some (next_object (heap_env h))))
      with (subscriptions (heap_env h1) l0 (Some (next_object (heap_env h)))).
    rewrite Hnew1. destruct (decide (l0 = l0 ∧ _)) as [_|Hno]; [lia|].
    exfalso. apply Hno. split; reflexivity.
  - rewrite Hsubb, Hsuba.
    change (subscriptions (heap_env h1') l0 (Some c))
      with (subscriptions (heap_env h1) l0 (Some c)).
    rewrite Hold. destruct (decide (l0 = l0 ∧ _)) as [[_ Heq]|_]; [congruence | lia].
Qed.

Lemma X16_setMap_again_witness :
  ∃ h1 h2,
    invoke 0%nat (setMap (Some 1%nat) sample_options) sample_watched_heap = Some (tt, h1)
    ∧ Map_addImageLayer 1%nat 12%nat h1 = Some h2
    ∧ subscriptions (heap_env h1) 10%nat (Some 100%nat) = 1%nat
    ∧ subscriptions (heap_env h1) 10%nat (Some 101%nat) = 1%nat
    ∧ subscriptions (heap_env h2) 12%nat (Some 101%nat) = 2%nat.
Proof.
  assert (Hfresh0 : ∀ l, subscriptions (heap_env sample_heap) l
                           (Some (next_object (heap_env sample_heap))) = 0%nat).
  { intros l. unfold subscriptions, occurrences. cbn. rewrite lookup_empty. reflexivity. }
  destruct (setMap_tracks 0%nat 1%nat sample_options sample_heap TerrainEngineNode_new
              sample_map 5%nat eq_refl eq_refl eq_refl eq_refl Hfresh0)
    as (h & Hrun & Htracks & _).
  assert (Hh : sample_watched_heap = h)
    by (unfold sample_watched_heap; rewrite Hrun; reflexivity).
  assert (Hnext : next_object (heap_env sample_watched_heap) = 101%nat)
    by (vm_compute; reflexivity).
  assert (Hlayers : layers_of sample_watched_heap 1%nat = [10%nat; 11%nat])
    by (vm_compute; reflexivity).
  assert (Hmap : ∃ m, maps (heap_env sample_watched_heap) !! 1%nat = Some m
                      ∧ getProfile m = Some 5%nat).
  { exists (set_mapCallbacks [{| _node := 0%nat |}] sample_map).
    split; [vm_compute|]; reflexivity. }
  assert (Hfresh : ∀ l, subscriptions (heap_env sample_watched_heap) l
                          (Some (next_object (heap_env sample_watched_heap))) = 0%nat).
  { intros l. rewrite Hnext.
    destruct (setMap_run 1%nat sample_options
                {| self := 0%nat; this := TerrainEngineNode_new; env := sample_env |}
                sample_map 5%nat eq_refl eq_refl)
      as (w' & Hrun' & _ & _ & _ & _ & _ & _ & _ & Hsubs & _).
    assert (Hw : heap_env sample_watched_heap = env w').
    { unfold sample_watched_heap, invoke. cbn [heap_env nodes sample_heap].
      rewrite lookup_singleton_eq, Hrun'. reflexivity. }
    unfold subscriptions. rewrite Hw, Hsubs.
    rewrite occurrences_subscribe_all_other by discriminate.
    unfold occurrences. cbn. rewrite lookup_empty. reflexivity. }
  rewrite <- Hh in Htracks.
  assert (Hne : 100%nat ≠ next_object (heap_env sample_watched_heap))
    by (rewrite Hnext; discriminate).
  destruct (X16_setMap_again 0%nat 1%nat 100%nat sample_options sample_watched_heap
              5%nat 12%nat Htracks Hmap Hne Hfresh)
    as (h1 & h2 & n1 & m1 & c' & Hrun1 & Hc' & _ & _ & _ & _ & _ & Hold & Hnew
        & Hadd & Htwice & _).
  rewrite Hnext in Hc'. subst c'. rewrite Hlayers in Hold, Hnew, Htwice.
  exists h1, h2. split; [exact Hrun1|]. split; [exact Hadd|].
  split; [rewrite Hold; reflexivity|]. split; [rewrite Hnew; reflexivity|].
  rewrite Htwice. reflexivity.
Defined.

(** ** The compute-range callback *)

(** X17. [getComputeRangeCallback] returns what the last
    [setComputeRangeCallback] stored, whatever other calls have been made on
    the node in between, and reading it changes nothing. *)
Theorem X17_computeRangeCallback_round_trip (H : Host) (cb : ptr ComputeRangeCallback)
    (ops : list (Op H)) (w w2 : World) :
  (∀ op, op ∈ ops → ComputeRange ∉ written_by H op) →
  (setComputeRangeCallback cb ;; exec_all H ops) w = Some (tt, w2) →
  getComputeRangeCallback w2 = Some (cb, w2).
Proof.
  intros Hops Hrun. unfold getComputeRangeCallback. run.
  revert Hrun. unfold setComputeRangeCallback. run. intros Hrun.
  assert (Hkeeps : keeps (same_on ComputeRange
                            (set_computeRangeCallback cb (this w))) (exec_all H ops)).
  { unfold exec_all. clear Hrun. induction ops as [|op ops IH]; cbn [for_each].
    - apply keeps_ret.
    - apply keeps_bind.
      + apply exec_keeps_same_on, Hops. apply elem_of_cons. left. reflexivity.
      + intros _. apply IH. intros op' Hin. apply Hops, elem_of_cons. right. exact Hin. }
  pose proof (Hkeeps _ tt w2 Hrun eq_refl) as Hsame. cbn in Hsame.
  rewrite <- Hsame. reflexivity.
Qed.

Lemma X17_computeRangeCallback_round_trip_witness :
  ∃ w2,
    (setComputeRangeCallback (Some 8%nat) ;;
     exec_all sample_host
       [call_requestRedraw sample_host; call_addEffect sample_host (Some 2%nat);
        call_traverse sample_host EVENT_VISITOR]) sample_world = Some (tt, w2)
    ∧ getComputeRangeCallback w2 = Some (Some 8%nat, w2).
Proof.
  pose (ops := [call_requestRedraw sample_host; call_addEffect sample_host (Some 2%nat);
                call_traverse sample_host EVENT_VISITOR]).
  assert (Hnot : ∀ op, op ∈ ops → ComputeRange ∉ written_by sample_host op).
  { intros op Hin. subst ops.
    repeat (apply elem_of_cons in Hin as [->|Hin]);
      [..|apply elem_of_nil in Hin as []]; cbn;
      intros Hbad; repeat (apply elem_of_cons in Hbad as [Hbad|Hbad]; [discriminate|]);
      apply elem_of_nil in Hbad as []. }
  let r := eval vm_compute in
             ((setComputeRangeCallback (Some 8%nat) ;; exec_all sample_host ops)
                sample_world) in
  match r with
  | Some (tt, ?W) =>
      exists W;
      assert (Hrun : (setComputeRangeCallback (Some 8%nat) ;; exec_all sample_host ops)
                       sample_world = Some (tt, W))
        by (vm_compute; reflexivity)
  end.
  split; [exact Hrun|].
  exact (X17_computeRangeCallback_round_trip sample_host (Some 8%nat) ops _ _ Hnot Hrun).
Defined.

(** ** Requirement flags reach the factory *)

Lemma require_run (f : RequirementFlag) (w : World) :
  ∃ w1, require f w = Some (tt, w1)
        ∧ requirements_of (this w1) = with_requirement f (requirements_of (this w))
        ∧ _tileModelFactory (this w1) = _tileModelFactory (this w)
        ∧ _createTileModelCallbacks (this w1) = _createTileModelCallbacks (this w).
Proof.
  destruct f; unfold require, requireNormalTextures, requireElevationTextures,
    requireParentTextures, dirtyTerrain, requestRedraw; run;
    destruct (decide (0 = _dirtyCount (this w))); run;
    eexists; (split; [reflexivity|]); cbn; repeat split.
Qed.

(** X18. The factory is handed the requirement flags as they are when the
    tile is requested: a tile request made after a requirement setter is
    answered with what the factory returns for the requirements with that
    flag on, and the callbacks fire on that model. *)
Theorem X18_factory_sees_current_requirements (H : Host) (f : RequirementFlag)
    (frame : Map) (key : TileKey H) (filter : CreateTileModelFilter H)
    (progress : ptr (ProgressCallback H))
    (w : World) (factory : TerrainTileModelFactory)
    (cbs : list CreateTileModelCallback) :
  _tileModelFactory (this w) = Some factory →
  _createTileModelCallbacks (this w) = Some <$> cbs →
  ∃ w1, require f w = Some (tt, w1)
        ∧ (require f ;; createTileModel H frame key filter progress) w =
          match factory_createTileModel H factory frame key filter
                  (with_requirement f (requirements_of (this w))) progress with
          | Some model =>
              Some (Some (foldl (λ m cb, onCreateTileModel H cb (this w1) m) model cbs),
                    emitted (Callback_onCreateTileModel <$> cbs) w1)
          | None => Some (None, w1)
          end.
Proof.
  intros Hfactory Hcbs.
  destruct (require_run f w) as (w1 & Hrun & Hreq & Hfac & Hreg).
  exists w1. split; [exact Hrun|].
  unfold mbind at 1, M_bind at 1. rewrite Hrun.
  unfold createTileModel. run. rewrite Hfac, Hfactory. cbn. rewrite Hreq.
  destruct (factory_createTileModel H factory frame key filter
              (with_requirement f (requirements_of (this w))) progress) as [model|];
    [|reflexivity].
  rewrite Hreg, Hcbs, fire_callbacks_all. reflexivity.
Qed.

Lemma X18_factory_sees_current_requirements_witness :
  createTileModel normals_host sample_map (1%nat, 0%nat, 0%nat) tt None sample_tiles_world
  = Some (None, sample_tiles_world)
  ∧ ∃ w1,
      require NormalTextures sample_tiles_world = Some (tt, w1)
      ∧ (require NormalTextures ;;
         createTileModel normals_host sample_map (1%nat, 0%nat, 0%nat) tt None)
          sample_tiles_world
        = Some (Some [21%nat; 22%nat],
                emitted [Callback_onCreateTileModel 21; Callback_onCreateTileModel 22] w1).
Proof.
  split; [vm_compute; reflexivity|].
  assert (Hfactory : _tileModelFactory (this sample_tiles_world)
                     = Some {| factory_options := sample_options |})
    by (vm_compute; reflexivity).
  assert (Hcbs : _createTileModelCallbacks (this sample_tiles_world)
                 = Some <$> [21%nat; 22%nat])
    by (vm_compute; reflexivity).
  destruct (X18_factory_sees_current_requirements normals_host NormalTextures sample_map
              (1%nat, 0%nat, 0%nat) tt None sample_tiles_world _ _ Hfactory Hcbs)
    as (w1 & Hrun & Hcreate).
  exists w1. split; [exact Hrun | exact Hcreate].
Defined.

(** ** Installing effects in a row *)

(** X19. Effects are kept in the order in which they were added: adding the
    effects [es] one after the other puts them, in that order, behind the
    effects already installed, and calls for each, in turn, its install hook
    and then the dirty-state hook. *)
Theorem X19_effects_keep_insertion_order (es : list TerrainEffect) : ∀ w : World,
  ∃ w', for_each addEffect (Some <$> es) w = Some (tt, w')
        ∧ effects_ (this w') = effects_ (this w) ++ es
        ∧ trace (env w')
          = trace (env w) ++ (es ≫= λ e, [Effect_onInstall e; DirtyState])
        ∧ _dirtyCount (this w') = _dirtyCount (this w).
Proof.
  induction es as [|e es IH]; intros w.
  - exists w. cbn. rewrite !app_nil_r. repeat split.
  - cbn [fmap list_fmap for_each]. unfold mbind at 1, M_bind at 1.
    rewrite addEffect_some.
    destruct (IH {| self := self w;
                    this := set_effects (effects_ (this w) ++ [e]) (this w);
                    env := set_trace (trace (env w) ++ [Effect_onInstall e; DirtyState])
                                     (env w) |})
      as (w' & Hrun & Heff & Htrace & Hcount).
    exists w'. split; [exact Hrun|]. cbn in Heff, Htrace, Hcount.
    rewrite Heff, Htrace, Hcount, <- !app_assoc. repeat split.
Qed.
